(** * Classical decoding and aggregation logic of the QEC control emulator

    A shallow embedding of the classical parts of the Python scripts
    (syndrome lookup tables, measurement-string parsing, success tallies,
    circuit construction as gate lists, error-channel constructors) and the
    properties proved of them.

    Conventions of the embedding:
    - a Python [str] is a [string]; characters are code points below 256;
    - a Python [dict] with string keys is a [gmap string V]; a dict literal
      is the list of its written entries, inserted from left to right;
    - Python [None] in a returned tuple is [None] of an [option];
    - a Python [float] is an IEEE 754 binary64 number, with the operations
      of the standard library's [SpecFloat] (round to nearest, ties to even);
    - a raised exception is the [Raise] case of [Result];
    - [print] calls have no effect on any returned value and are left out;
      what is computed for them is kept where it can raise. *)

From Stdlib Require Import Ascii String ZArith QArith Qpower SpecFloat.
From stdpp Require Import gmap strings list fin_maps pretty sorting.

Open Scope string_scope.
Open Scope list_scope.

(** ** Python runtime pieces shared by the scripts *)

Module Py.

(** Exceptions the modelled functions raise themselves, and a failure
    reported by the simulation backend (named by its exception class). *)
Inductive exn : Type :=
| ValueError (msg : string)
| ZeroDivisionError
| OverflowError
| IndexError
| BackendError (name : string).

Inductive Result (A : Type) : Type :=
| Ok (a : A)
| Raise (e : exn).
Global Arguments Ok {A} a.
Global Arguments Raise {A} e.

(** Sequencing: an exception raised by the first step ends the call. *)
Global Instance Result_bind : MBind Result := λ A B k r,
  match r with
  | Ok a => k a
  | Raise e => Raise e
  end.
Global Instance Result_ret : MRet Result := λ A a, Ok a.

(** A dict literal [{k1: v1, k2: v2, ...}]: entries are stored in the
    order they are written, a repeated key keeps the value written last. *)
Definition dict_literal {V} (entries : list (string * V)) : gmap string V :=
  foldl (λ d kv, <[kv.1 := kv.2]> d) ∅ entries.

(** [d.get(k, dflt)] *)
Definition get {V} (d : gmap string V) (k : string) (dflt : V) : V :=
  default dflt (d !! k).

(** The entry written last for key [k] in a list of entries. *)
Definition last_listed {V} (k : string) (entries : list (string * V)) : option V :=
  foldl (λ acc kv, if decide (kv.1 = k) then Some kv.2 else acc) None entries.

(** [c.isspace()] for a character below 256: the characters at which
    [str.split()] cuts. *)
Definition isspace (c : ascii) : bool :=
  let n := N_of_ascii c in
  ((9 <=? n) && (n <=? 13) || (28 <=? n) && (n <=? 32)
   || (n =? 133) || (n =? 160))%N.

(** [s.split()]: the maximal runs of non-whitespace characters. [word] is
    the run read so far. *)
Fixpoint split_go (word s : string) : list string :=
  match s with
  | "" => if decide (word = "") then [] else [word]
  | String c s' =>
      if isspace c
      then (if decide (word = "") then [] else [word]) ++ split_go "" s'
      else split_go (word +:+ String c "") s'
  end.
Definition split (s : string) : list string := split_go "" s.

(** A string of the characters ['0'] and ['1'] only. *)
Fixpoint bitstring (s : string) : bool :=
  match s with
  | "" => true
  | String c s' => bool_decide (c = "0"%char ∨ c = "1"%char) && bitstring s'
  end.

(** [s.replace(c, '')] for a one-character [c]. *)
Fixpoint remove_char (c : ascii) (s : string) : string :=
  match s with
  | "" => ""
  | String a s' => if decide (a = c) then remove_char c s'
                   else String a (remove_char c s')
  end.

(** [s.count(c)] for a one-character [c]. *)
Fixpoint count (c : ascii) (s : string) : Z :=
  match s with
  | "" => 0
  | String a s' => (if decide (a = c) then 1 else 0) + count c s'
  end%Z.

(** [s[i:j]] for literal bounds [0 <= i <= j]. *)
Definition slice (i j : nat) (s : string) : string := substring i (j - i) s.

(** [s[-n:]] for a literal [n > 0]. *)
Definition suffix (n : nat) (s : string) : string :=
  substring (String.length s - n) n s.

(** [sum(values)] of Python ints. *)
Definition sum (values : list Z) : Z := foldr Z.add 0%Z values.

(** *** Floats

    A Python [float] is a binary64 number: 53 bits of precision, exponent
    of the infinities 1024. *)
Definition float : Type := spec_float.
Definition float_prec : Z := 53.
Definition float_emax : Z := 1024.

(** An int as the exact operand of a correctly rounded operation. *)
Definition int_operand (n : Z) : float :=
  match n with
  | Z0 => S754_zero false
  | Zpos p => S754_finite false p 0
  | Zneg p => S754_finite true p 0
  end.

(** [float(n)] for an int that fits: the nearest float. *)
Definition float_of_int (n : Z) : float :=
  binary_normalize float_prec float_emax n 0 false.

(** The float a decimal literal with digits [n] and [k] decimal places
    denotes, e.g. [decimal 5 2] for [0.05]: the float nearest to it. *)
Definition decimal (n : Z) (k : nat) : float :=
  SFdiv float_prec float_emax (int_operand n) (int_operand (10 ^ Z.of_nat k)).

(** [x + y], [x - y], [x * y] and the comparisons on floats. *)
Definition fadd (x y : float) : float := SFadd float_prec float_emax x y.
Definition fsub (x y : float) : float := SFsub float_prec float_emax x y.
Definition fmul (x y : float) : float := SFmul float_prec float_emax x y.
Definition flt (x y : float) : bool := SFltb x y.
Definition fgt (x y : float) : bool := SFltb y x.
Definition fle (x y : float) : bool := SFleb x y.

(** [a / b] on ints: the exact quotient rounded to the nearest float. A
    zero divisor and a quotient beyond the largest float raise. *)
Definition truediv (a b : Z) : Result float :=
  if decide (b = 0%Z) then Raise ZeroDivisionError
  else match SFdiv float_prec float_emax (int_operand a) (int_operand b) with
       | S754_infinity _ => Raise OverflowError
       | q => Ok q
       end.

(** [x * n] for a float [x] and a small int literal [n]. *)
Definition mul_int (x : float) (n : Z) : float := fmul x (float_of_int n).

(** A number a function returns as an int on one path and as a float on
    another. *)
Inductive number : Type :=
| PyInt (n : Z)
| PyFloat (x : float).

(** The rational a finite float stands for. *)
Definition float_value (x : float) : option Q :=
  match x with
  | S754_zero _ => Some 0%Q
  | S754_finite s m e =>
      Some (inject_Z (if s then Zneg m else Zpos m) * Qpower 2 e)%Q
  | _ => None
  end.

(** For bounds on rounded results: the mantissa a shift record or a
    located mantissa stands for, rounded up, and the floats that are [+0]
    or positive, finite and at most [n * 2 ^ eb]. *)
Definition shr_ceil (mrs : shr_record) : Z :=
  if shr_r mrs || shr_s mrs then (shr_m mrs + 1)%Z else shr_m mrs.
Definition loc_ceil (m : Z) (l : location) : Z :=
  match l with loc_Exact => m | loc_Inexact _ => (m + 1)%Z end.
Definition float_upto (n eb : Z) (x : float) : Prop :=
  x = S754_zero false
  ∨ ∃ m e, x = S754_finite false m e ∧ (e ≤ eb)%Z
           ∧ (Zpos m ≤ n * 2 ^ (eb - e))%Z.

(** The divisions of a report loop that prints [(count / total) * 100]
    for each count in turn; the loop has no other effect on the caller. *)
Definition report_percentages (count_list : list Z) (total : Z)
    : Result unit :=
  foldl (λ so_far count,
           _ ← so_far;
           ratio ← truediv count total;
           let percentage := mul_int ratio 100 in
           mret tt)
        (Ok tt) count_list.

(** Order of [(str, int)] tuples, as [sorted(d.items())] compares them. *)
Definition item_le (a b : string * Z) : Prop :=
  (String.le a.1 b.1 ∧ a.1 ≠ b.1) ∨ (a.1 = b.1 ∧ (a.2 ≤ b.2)%Z).
Global Instance item_le_dec : RelDecision item_le.
Proof. intros a b. unfold item_le. apply _. Defined.

(** [sorted(d.items())] *)
Definition sorted_items (d : gmap string Z) : list (string * Z) :=
  merge_sort item_le (map_to_list d).

(** [sorted(d.items(), key=lambda x: x[1], reverse=True)]: by descending
    count; entries with equal counts stay in the dictionary's own order. *)
Definition count_ge (a b : string * Z) : Prop := (b.2 ≤ a.2)%Z.
Global Instance count_ge_dec : RelDecision count_ge.
Proof. intros a b. unfold count_ge. apply _. Defined.

Definition sorted_by_count_desc (d : gmap string Z) : list (string * Z) :=
  merge_sort count_ge (map_to_list d).

(** [sorted(items, key=key, reverse=True)] for an int-valued [key]. *)
Definition key_ge {A} (key : A → Z) (a b : A) : Prop := (key b ≤ key a)%Z.
Global Instance key_ge_dec {A} (key : A → Z) : RelDecision (key_ge key).
Proof. intros a b. unfold key_ge. apply _. Defined.

Definition sorted_desc {A} (key : A → Z) (items : list A) : list A :=
  merge_sort (key_ge key) items.

(** The pointwise sum of two histograms: a key of either, with the sum of
    the counts it has in them. *)
Definition pointwise_sum (c1 c2 : gmap string Z) : gmap string Z :=
  union_with (λ a b, Some (a + b)%Z) c1 c2.

(** A histogram as the backend returns it: every listed outcome was seen. *)
Definition positive_counts (counts : gmap string Z) : Prop :=
  map_Forall (λ _ n, (0 < n)%Z) counts.

End Py.
Export Py.

(** ** The circuit objects the scripts build

    A [QuantumCircuit] is kept as the registers it was created with and the
    list of instructions appended to it, in order. *)

Module Qiskit.

Record Register := { reg_size : nat; reg_name : string }.
Definition QuantumRegister (size : nat) (name : string) : Register :=
  {| reg_size := size; reg_name := name |}.
Definition ClassicalRegister (size : nat) (name : string) : Register :=
  {| reg_size := size; reg_name := name |}.

(** A qubit or classical bit: its register's name and its index there. *)
Definition Bit : Type := string * nat.

(** [reg[i]] for an index written in the script (always in range). *)
Definition bit (reg : Register) (i : nat) : Bit := (reg_name reg, i).

(** [reg[i]] for an index received as an argument: a negative index counts
    from the end, an index out of range raises. *)
Definition getitem (reg : Register) (i : Z) : Result Bit :=
  let n := Z.of_nat (reg_size reg) in
  if bool_decide (0 ≤ i < n)%Z then Ok (reg_name reg, Z.to_nat i)
  else if bool_decide (- n ≤ i < 0)%Z then Ok (reg_name reg, Z.to_nat (n + i))
  else Raise IndexError.

Inductive Instruction : Type :=
| x (qubit : Bit)
| y (qubit : Bit)
| z (qubit : Bit)
| h (qubit : Bit)
| cx (control target : Bit)
| cz (control target : Bit)
| barrier (label : option string)
| measure (qubit clbit : Bit).

Global Instance Instruction_eq_dec : EqDecision Instruction.
Proof. solve_decision. Defined.

(** [qc.measure(qreg, creg)] on whole registers: bit by bit. *)
Definition measure_register (qreg creg : Register) : list Instruction :=
  (λ i, measure (bit qreg i) (bit creg i)) <$> seq 0 (reg_size qreg).

Record QuantumCircuit := {
  qregs : list Register;
  cregs : list Register;
  data : list Instruction
}.

(** The qubits an instruction acts on. *)
Definition qubits_of (i : Instruction) : list Bit :=
  match i with
  | x q | y q | z q | h q => [q]
  | cx c t | cz c t => [c; t]
  | barrier _ => []
  | measure q _ => [q]
  end.

(** The instructions of a circuit that act on qubit [q], in order. *)
Definition acting_on (q : Bit) (instrs : list Instruction) : list Instruction :=
  filter (λ i, q ∈ qubits_of i) instrs.

(** All instructions of [instrs] act on qubits of register [name] only. *)
Definition on_register (name : string) (instrs : list Instruction) : Prop :=
  Forall (λ i, ∀ q, q ∈ qubits_of i → q.1 = name) instrs.

(** *** Noiseless runs of circuits made of [x], [cx], [barrier], [measure]

    Such a circuit maps the all-zero start state to one computational
    basis state, so every shot gives the same classical bits. Circuits
    with other gates are outside this simulation ([None]). *)

(** The bits written so far, latest first; a bit never written is 0. *)
Definition bits := list (Bit * bool).
Definition zero_bits : bits := [].
Fixpoint get_bit (m : bits) (b : Bit) : bool :=
  match m with
  | [] => false
  | (b', v) :: m' => if decide (b' = b) then v else get_bit m' b
  end.
Definition set_bit (b : Bit) (v : bool) (m : bits) : bits := (b, v) :: m.

Fixpoint run_basis (instrs : list Instruction) (qstate cstate : bits)
    : option bits :=
  match instrs with
  | [] => Some cstate
  | x q :: rest =>
      run_basis rest (set_bit q (negb (get_bit qstate q)) qstate) cstate
  | cx c t :: rest =>
      run_basis rest
        (set_bit t (xorb (get_bit qstate t) (get_bit qstate c)) qstate) cstate
  | barrier _ :: rest => run_basis rest qstate cstate
  | measure q c :: rest =>
      run_basis rest qstate (set_bit c (get_bit qstate q) cstate)
  | _ :: _ => None
  end.

(** The characters of one classical register in a result key, highest
    index first. *)
Definition register_string (cstate : bits) (creg : Register) : string :=
  foldl (λ acc i, (if get_bit cstate (bit creg i) then "1" else "0") +:+ acc) ""
    (seq 0 (reg_size creg)).

(** The [if]/[elif] chain that appends the requested error gate. An error
    type other than ['X'], ['Z'], ['Y'] appends nothing and never indexes
    the register. *)
Definition error_gate (physical : Register) (error_qubit : Z)
    (error_type : string) : Result (list Instruction) :=
  if decide (error_type = "X")
  then q ← getitem physical error_qubit; mret [x q]
  else if decide (error_type = "Z")
  then q ← getitem physical error_qubit; mret [z q]
  else if decide (error_type = "Y")
  then q ← getitem physical error_qubit; mret [y q]
  else mret [].

(** The gate method an error type selects in that chain. *)
Definition pauli_gate (error_type : string) : Bit → Instruction :=
  if decide (error_type = "X") then x
  else if decide (error_type = "Z") then z
  else y.

(** [circuit.qubits]: the qubits of the quantum registers, in the order
    the registers were given. *)
Definition register_bits (reg : Register) : list Bit :=
  bit reg <$> seq 0 (reg_size reg).
Definition circuit_qubits (qc : QuantumCircuit) : list Bit :=
  concat (register_bits <$> qregs qc).

(** Some two-qubit gate of [instrs] joins qubits [a] and [q]. *)
Definition coupled (a q : Bit) (instrs : list Instruction) : bool :=
  existsb (λ i, match i with
                | cx c t | cz c t =>
                    bool_decide ((c = a ∧ t = q) ∨ (c = q ∧ t = a))
                | _ => false
                end) instrs.

End Qiskit.
Export Qiskit.

(** ** qec_codes.py: the 3-qubit bit-flip code *)

Module BitFlip.

Definition logical_q := QuantumRegister 1 "logical".
Definition physical_q := QuantumRegister 3 "physical".
Definition syndrome_q := QuantumRegister 2 "syndrome".
Definition syndrome_c := ClassicalRegister 2 "syndrome_bits".
Definition physical_c := ClassicalRegister 3 "physical_bits".

(** Returns [(qc, syndrome_c, physical_c)]. *)
Definition create_bitflip_code (input_value : Z) (apply_error : bool)
    (error_qubit : Z) : Result (QuantumCircuit * Register * Register) :=
  (* STEP 2: initialize input *)
  let step2 :=
    (if decide (input_value = 1%Z) then [x (bit logical_q 0)] else [])
    ++ [barrier (Some "Input")] in
  (* STEP 3: encode *)
  let step3 :=
    [ cx (bit logical_q 0) (bit physical_q 0);
      cx (bit logical_q 0) (bit physical_q 1);
      cx (bit logical_q 0) (bit physical_q 2);
      barrier (Some "Encoded") ] in
  (* STEP 4: error (optional) *)
  step4 ← (if apply_error
           then q ← getitem physical_q error_qubit;
                mret [ x q;
                       barrier (Some ("Error on qubit " +:+ pretty error_qubit)) ]
           else mret []);
  (* STEP 5: syndrome measurement *)
  let step5 :=
    [ cx (bit physical_q 0) (bit syndrome_q 0);
      cx (bit physical_q 1) (bit syndrome_q 0);
      cx (bit physical_q 1) (bit syndrome_q 1);
      cx (bit physical_q 2) (bit syndrome_q 1);
      barrier (Some "Syndrome Measured") ] in
  (* STEP 6, STEP 7: measure syndrome, then physical qubits *)
  let step6 := measure_register syndrome_q syndrome_c in
  let step7 := measure_register physical_q physical_c in
  mret ({| qregs := [logical_q; physical_q; syndrome_q];
           cregs := [syndrome_c; physical_c];
           data := step2 ++ step3 ++ step4 ++ step5 ++ step6 ++ step7 |},
        syndrome_c, physical_c).

(** The two measured syndrome bits, [(syndrome_c[0], syndrome_c[1])]. *)
Definition syndrome_of (cstate : bits) : bool * bool :=
  (get_bit cstate (bit syndrome_c 0), get_bit cstate (bit syndrome_c 1)).

(** The syndrome expected of a single X error on physical qubit [q]:
    qubit 0 breaks the first parity, qubit 2 the second, qubit 1 both. *)
Definition bitflip_syndrome (q : Z) : bool * bool :=
  if decide (q = 0%Z) then (true, false)
  else if decide (q = 1%Z) then (true, true)
  else (false, true).

(** The three measured physical bits. *)
Definition physical_of (cstate : bits) : bool * bool * bool :=
  (get_bit cstate (bit physical_c 0), get_bit cstate (bit physical_c 1),
   get_bit cstate (bit physical_c 2)).

(** The key under which the backend counts a shot: the classical
    registers from the one added last to the one added first, separated by
    a space, here ['physical_bits syndrome_bits'] (the layout the sibling
    scripts with the same two registers read, and the one the other codes'
    comments give as the format from Qiskit). *)
Definition bitstring_of (cstate : bits) : string :=
  register_string cstate physical_c +:+ " " +:+ register_string cstate syndrome_c.

(** The histogram of a noiseless run: all [shots] land on one key. *)
Definition get_counts (qc : QuantumCircuit) (shots : Z)
    : option (gmap string Z) :=
  cstate ← run_basis (data qc) zero_bits zero_bits;
  Some {[ bitstring_of cstate := shots ]}.

Record Results := {
  res_circuit : QuantumCircuit;
  res_counts : gmap string Z;
  res_syndrome_c : Register;
  res_physical_c : Register
}.

(** [run_qec_circuit]; [None] inside stands for a circuit outside the
    simulated gate set. *)
Definition run_qec_circuit (input_value : Z) (apply_error : bool)
    (error_qubit : Z) (shots : Z) : Result (option Results) :=
  '(qc, syndrome_c, physical_c) ←
      create_bitflip_code input_value apply_error error_qubit;
  mret (counts ← get_counts qc shots;
        Some {| res_circuit := qc; res_counts := counts;
                res_syndrome_c := syndrome_c; res_physical_c := physical_c |}).

(** Lines 128-140: the majority vote on one result key. *)
Definition majority_vote (bitstring : string) : Z :=
  let physical_bits :=
    match split bitstring with
    | [_; part1] => part1
    | _ => suffix 3 bitstring
    end in
  let zeros := count "0" physical_bits in
  let ones := count "1" physical_bits in
  if decide (ones > zeros)%Z then 1%Z else 0%Z.

(** What one histogram entry adds to [success], and to [failure]. *)
Definition success_share (input_value : Z) (item : string * Z) : Z :=
  if decide (majority_vote item.1 = input_value) then item.2 else 0%Z.
Definition failure_share (input_value : Z) (item : string * Z) : Z :=
  if decide (majority_vote item.1 = input_value) then 0%Z else item.2.

(** The success and failure counters after one histogram entry. *)
Definition tally_step (input_value : Z) (acc : Z * Z) (item : string * Z)
    : Z * Z :=
  let '(success, failure) := acc in
  let '(bitstring, count) := item in
  let result := majority_vote bitstring in
  if decide (result = input_value) then ((success + count)%Z, failure)
  else (success, (failure + count)%Z).

(** The [(success, failure)] counters the loop of [analyze_results]
    accumulates over [sorted(counts.items())]. *)
Definition tally (counts : gmap string Z) (input_value : Z) : Z * Z :=
  foldl (tally_step input_value) (0%Z, 0%Z) (sorted_items counts).

(** The loop as it runs: each iteration also computes the printed
    [percentage], dividing by [sum(counts.values())]. *)
Definition analyze_loop (counts : gmap string Z) (input_value : Z)
    : Result (Z * Z) :=
  foldl (λ racc item,
           acc ← racc;
           percentage ← truediv item.2 (Py.sum (map_to_list counts).*2);
           mret (tally_step input_value acc item))
        (Ok (0%Z, 0%Z)) (sorted_items counts).

Definition analyze_results (results : Results) (input_value : Z)
    : Result number :=
  let counts := res_counts results in
  '(success, failure) ← analyze_loop counts input_value;
  let total := (success + failure)%Z in
  if decide (total > 0)%Z
  then ratio ← truediv success total; mret (PyFloat (mul_int ratio 100))
  else mret (PyInt 0).

End BitFlip.

(** ** five_qubit_code.py *)

Module FiveQubit.

(** What [decode_five_qubit_syndrome] returns: [(error_qubit, error_type)]. *)
Definition correction : Type := option nat * option string.

(** The entries of the [syndrome_table] literal, as written. *)
Definition syndrome_table_entries : list (string * correction) :=
  [ ("0000", (None, None));
    (* X errors on each qubit *)
    ("1011", (Some 0, Some "X"));
    ("0111", (Some 1, Some "X"));
    ("1101", (Some 2, Some "X"));
    ("1110", (Some 3, Some "X"));
    ("0110", (Some 4, Some "X"));
    (* Z errors on each qubit *)
    ("0101", (Some 0, Some "Z"));
    ("1010", (Some 1, Some "Z"));
    ("0011", (Some 2, Some "Z"));
    ("1100", (Some 3, Some "Z"));
    ("1001", (Some 4, Some "Z"));
    (* Y errors on each qubit *)
    ("1110", (Some 0, Some "Y"));
    ("1101", (Some 1, Some "Y"));
    ("1110", (Some 2, Some "Y"));
    ("0010", (Some 3, Some "Y"));
    ("1111", (Some 4, Some "Y")) ].

Definition syndrome_table : gmap string correction :=
  Py.dict_literal syndrome_table_entries.

Definition decode_five_qubit_syndrome (syndrome : string) : correction :=
  Py.get syndrome_table syndrome (None, Some "Unknown").

(** Lines 251-259: the two classical registers of one measurement string,
    [(physical_bits, syndrome_bits)]. *)
Definition parse_measurement (measurement : string) : string * string :=
  match split measurement with
  | [physical_bits; syndrome_bits] => (physical_bits, syndrome_bits)
  | _ =>
      let full_measurement := remove_char " " measurement in
      (slice 0 5 full_measurement, slice 5 9 full_measurement)
  end.

(** What one histogram entry adds to [successful]. *)
Definition zero_syndrome_share (item : string * Z) : Z :=
  if decide ((parse_measurement item.1).2 = "0000") then item.2 else 0%Z.

(** One value of the [syndrome_stats] dictionary. *)
Record SyndromeStat := { stat_count : Z; stat_error : correction }.

(** The body of the first [for] loop of [analyze_five_qubit_results],
    on the loop state [(successful, syndrome_stats)]. *)
Definition analyze_step (acc : Z * gmap string SyndromeStat)
    (item : string * Z) : Z * gmap string SyndromeStat :=
  let '(successful, syndrome_stats) := acc in
  let '(measurement, count) := item in
  let '(physical_bits, syndrome_bits) := parse_measurement measurement in
  let '(error_qubit, error_type) := decode_five_qubit_syndrome syndrome_bits in
  let syndrome_stats :=
    if decide (syndrome_stats !! syndrome_bits = None)
    then <[syndrome_bits :=
            {| stat_count := 0; stat_error := (error_qubit, error_type) |}]>
           syndrome_stats
    else syndrome_stats in
  let syndrome_stats :=
    alter (λ st, {| stat_count := stat_count st + count;
                    stat_error := stat_error st |})
      syndrome_bits syndrome_stats in
  let successful :=
    if decide (syndrome_bits = "0000") then (successful + count)%Z
    else successful in
  (successful, syndrome_stats).

(** The count [syndrome_stats] holds for the syndrome ['0000'], 0 when
    that syndrome was never seen. *)
Definition zero_syndrome_count (syndrome_stats : gmap string SyndromeStat) : Z :=
  default 0%Z (stat_count <$> syndrome_stats !! "0000").

Definition analyze_loop (counts : gmap string Z) : Z * gmap string SyndromeStat :=
  foldl analyze_step (0%Z, ∅) (sorted_by_count_desc counts).

(** The counts the second loop prints a percentage for, in its order:
    [sorted(syndrome_stats.items(), key=lambda x: x[1]['count'],
    reverse=True)]. *)
Definition reported_counts (syndrome_stats : gmap string SyndromeStat)
    : list Z :=
  (λ item, stat_count item.2)
    <$> sorted_desc (λ item, stat_count item.2) (map_to_list syndrome_stats).

Definition analyze_five_qubit_results (counts : gmap string Z)
    (input_value : Z) : Result float :=
  let total_shots := Py.sum (map_to_list counts).*2 in
  let '(successful, syndrome_stats) := analyze_loop counts in
  _ ← report_percentages (reported_counts syndrome_stats) total_shots;
  ratio ← truediv successful total_shots;
  mret (mul_int ratio 100).

(** *** The circuit *)

Definition physical := QuantumRegister 5 "physical".
Definition syndrome := QuantumRegister 4 "syndrome".
Definition c_syndrome := ClassicalRegister 4 "c_syn".
Definition c_physical := ClassicalRegister 5 "c_phys".

(** Returns [(qc, c_syndrome, c_physical)]. *)
Definition create_five_qubit_code (input_value : Z) (apply_error : bool)
    (error_qubit : Z) (error_type : string)
    : Result (QuantumCircuit * Register * Register) :=
  (* ENCODING *)
  let encoding :=
    (if decide (input_value = 1%Z) then [x (bit physical 0)] else [])
    ++ [ h (bit physical 1); h (bit physical 2);
         h (bit physical 3); h (bit physical 4);
         cx (bit physical 0) (bit physical 1);
         cx (bit physical 0) (bit physical 2);
         cx (bit physical 1) (bit physical 3);
         cx (bit physical 2) (bit physical 4);
         cx (bit physical 3) (bit physical 0);
         cx (bit physical 4) (bit physical 0);
         cx (bit physical 3) (bit physical 1);
         cx (bit physical 4) (bit physical 2);
         cz (bit physical 0) (bit physical 3);
         cz (bit physical 1) (bit physical 4);
         barrier None ] in
  (* ERROR INJECTION *)
  error_injection ←
    (if apply_error
     then gate ← error_gate physical error_qubit error_type;
          mret (gate ++ [barrier None])
     else mret []);
  (* STABILIZER MEASUREMENTS *)
  let stabilizers :=
    [ (* Stabilizer 1: XZZXI *)
      h (bit syndrome 0);
      cx (bit syndrome 0) (bit physical 0);
      cz (bit syndrome 0) (bit physical 1);
      cz (bit syndrome 0) (bit physical 2);
      cx (bit syndrome 0) (bit physical 3);
      h (bit syndrome 0);
      (* Stabilizer 2: IXZZX *)
      h (bit syndrome 1);
      cx (bit syndrome 1) (bit physical 1);
      cz (bit syndrome 1) (bit physical 2);
      cz (bit syndrome 1) (bit physical 3);
      cx (bit syndrome 1) (bit physical 4);
      h (bit syndrome 1);
      (* Stabilizer 3: XIXZZ *)
      h (bit syndrome 2);
      cx (bit syndrome 2) (bit physical 0);
      cx (bit syndrome 2) (bit physical 2);
      cz (bit syndrome 2) (bit physical 3);
      cz (bit syndrome 2) (bit physical 4);
      h (bit syndrome 2);
      (* Stabilizer 4: ZXIXZ *)
      h (bit syndrome 3);
      cz (bit syndrome 3) (bit physical 0);
      cx (bit syndrome 3) (bit physical 1);
      cx (bit syndrome 3) (bit physical 3);
      cz (bit syndrome 3) (bit physical 4);
      h (bit syndrome 3);
      barrier None ] in
  (* MEASUREMENT *)
  let measurement :=
    measure_register syndrome c_syndrome
    ++ measure_register physical c_physical in
  mret ({| qregs := [physical; syndrome];
           cregs := [c_syndrome; c_physical];
           data := encoding ++ error_injection ++ stabilizers ++ measurement |},
        c_syndrome, c_physical).

(** The four stabilizer generators named in the module docstring, one
    Pauli letter per physical qubit. *)
Definition stabilizer_generators : list string :=
  ["XZZXI"; "IXZZX"; "XIXZZ"; "ZXIXZ"].

(** The ancilla-controlled gates that measure a generator written as a
    Pauli string: [cx] onto the qubits with an X, [cz] onto those with a Z,
    nothing for I, from qubit [i] on. *)
Fixpoint generator_gates (ancilla : Bit) (i : nat) (generator : string)
    : list Instruction :=
  match generator with
  | "" => []
  | String c rest =>
      (if decide (c = "X"%char) then [cx ancilla (bit physical i)]
       else if decide (c = "Z"%char) then [cz ancilla (bit physical i)]
       else [])
      ++ generator_gates ancilla (S i) rest
  end.

(** What one histogram entry adds to the count of syndrome [s] in
    [syndrome_stats]. *)
Definition syndrome_share (s : string) (item : string * Z) : Z :=
  if decide ((parse_measurement item.1).2 = s) then item.2 else 0%Z.

End FiveQubit.

(** ** steane_code.py *)

Module Steane.

Definition physical := QuantumRegister 7 "physical".
Definition syndrome_x := QuantumRegister 3 "syn_x".
Definition syndrome_z := QuantumRegister 3 "syn_z".
Definition c_syndrome_x := ClassicalRegister 3 "c_syn_x".
Definition c_syndrome_z := ClassicalRegister 3 "c_syn_z".
Definition c_physical := ClassicalRegister 7 "c_phys".

(** Returns [(qc, c_syndrome_x, c_syndrome_z, c_physical)]. *)
Definition create_steane_code (input_value : Z) (apply_error : bool)
    (error_qubit : Z) (error_type : string)
    : Result (QuantumCircuit * Register * Register * Register) :=
  (* ENCODING *)
  let encoding :=
    (if decide (input_value = 1%Z) then [x (bit physical 0)] else [])
    ++ [ h (bit physical 0); h (bit physical 2);
         h (bit physical 4); h (bit physical 6);
         cx (bit physical 0) (bit physical 1);
         cx (bit physical 2) (bit physical 1);
         cx (bit physical 2) (bit physical 3);
         cx (bit physical 4) (bit physical 3);
         cx (bit physical 4) (bit physical 5);
         cx (bit physical 6) (bit physical 5);
         cx (bit physical 0) (bit physical 6);
         cx (bit physical 2) (bit physical 6);
         cx (bit physical 4) (bit physical 6);
         barrier None ] in
  (* ERROR INJECTION *)
  error_injection ←
    (if apply_error
     then gate ← (if decide (error_type = "X")
                  then q ← getitem physical error_qubit; mret [x q]
                  else if decide (error_type = "Z")
                  then q ← getitem physical error_qubit; mret [z q]
                  else if decide (error_type = "Y")
                  then q ← getitem physical error_qubit; mret [y q]
                  else mret []);
          mret (gate ++ [barrier None])
     else mret []);
  (* SYNDROME MEASUREMENT FOR X ERRORS *)
  let x_syndromes :=
    [ (* First X syndrome *)
      h (bit syndrome_x 0);
      cx (bit syndrome_x 0) (bit physical 0);
      cx (bit syndrome_x 0) (bit physical 1);
      cx (bit syndrome_x 0) (bit physical 2);
      cx (bit syndrome_x 0) (bit physical 3);
      h (bit syndrome_x 0);
      (* Second X syndrome *)
      h (bit syndrome_x 1);
      cx (bit syndrome_x 1) (bit physical 2);
      cx (bit syndrome_x 1) (bit physical 3);
      cx (bit syndrome_x 1) (bit physical 4);
      cx (bit syndrome_x 1) (bit physical 5);
      h (bit syndrome_x 1);
      (* Third X syndrome *)
      h (bit syndrome_x 2);
      cx (bit syndrome_x 2) (bit physical 4);
      cx (bit syndrome_x 2) (bit physical 5);
      cx (bit syndrome_x 2) (bit physical 6);
      cx (bit syndrome_x 2) (bit physical 0);
      h (bit syndrome_x 2);
      barrier None ] in
  (* SYNDROME MEASUREMENT FOR Z ERRORS *)
  let z_syndromes :=
    [ (* First Z syndrome *)
      cx (bit physical 0) (bit syndrome_z 0);
      cx (bit physical 1) (bit syndrome_z 0);
      cx (bit physical 2) (bit syndrome_z 0);
      cx (bit physical 3) (bit syndrome_z 0);
      (* Second Z syndrome *)
      cx (bit physical 2) (bit syndrome_z 1);
      cx (bit physical 3) (bit syndrome_z 1);
      cx (bit physical 4) (bit syndrome_z 1);
      cx (bit physical 5) (bit syndrome_z 1);
      (* Third Z syndrome *)
      cx (bit physical 4) (bit syndrome_z 2);
      cx (bit physical 5) (bit syndrome_z 2);
      cx (bit physical 6) (bit syndrome_z 2);
      cx (bit physical 0) (bit syndrome_z 2);
      barrier None ] in
  (* MEASUREMENT *)
  let measurement :=
    measure_register syndrome_x c_syndrome_x
    ++ measure_register syndrome_z c_syndrome_z
    ++ measure_register physical c_physical in
  mret ({| qregs := [physical; syndrome_x; syndrome_z];
           cregs := [c_syndrome_x; c_syndrome_z; c_physical];
           data := encoding ++ error_injection ++ x_syndromes
                   ++ z_syndromes ++ measurement |},
        c_syndrome_x, c_syndrome_z, c_physical).

(** The qubit supports of the three stabilizer generators of each type:
    X0X1X2X3, X2X3X4X5, X4X5X6X0 (and the same with Z). *)
Definition stabilizer_support (k : nat) : list nat :=
  match k with
  | 0 => [0; 1; 2; 3]
  | 1 => [2; 3; 4; 5]
  | _ => [4; 5; 6; 0]
  end.

Definition x_syndrome_table : gmap string (option nat) :=
  dict_literal
    [ ("000", None); ("111", Some 0); ("110", Some 1); ("101", Some 2);
      ("011", Some 3); ("010", Some 4); ("001", Some 5); ("100", Some 6) ].

Definition z_syndrome_table : gmap string (option nat) :=
  dict_literal
    [ ("000", None); ("111", Some 0); ("110", Some 1); ("101", Some 2);
      ("011", Some 3); ("010", Some 4); ("001", Some 5); ("100", Some 6) ].

Definition decode_steane_syndrome (syndrome_x syndrome_z : string)
    : option nat * option string :=
  let x_error_qubit := Py.get x_syndrome_table syndrome_x None in
  let z_error_qubit := Py.get z_syndrome_table syndrome_z None in
  match x_error_qubit, z_error_qubit with
  | Some xq, Some zq =>
      if decide (xq = zq) then (Some xq, Some "Y")
      else (None, Some "Unknown")
  | Some xq, None => (Some xq, Some "X")
  | None, Some zq => (Some zq, Some "Z")
  | None, None => (None, None)
  end.

(** *** The analysis *)

(** Lines 266-276: [(physical_bits, syndrome_z_bits, syndrome_x_bits)]. *)
Definition parse_measurement (measurement : string) : string * string * string :=
  match split measurement with
  | [physical_bits; syndrome_z_bits; syndrome_x_bits] =>
      (physical_bits, syndrome_z_bits, syndrome_x_bits)
  | _ =>
      let full_measurement := remove_char " " measurement in
      (slice 0 7 full_measurement, slice 7 10 full_measurement,
       slice 10 13 full_measurement)
  end.

Record SyndromeStat := {
  stat_count : Z;
  stat_error : option nat * option string
}.

(** The body of the first [for] loop of [analyze_steane_results], on the
    loop state [(successful, syndrome_stats)]. *)
Definition analyze_step (acc : Z * gmap string SyndromeStat)
    (item : string * Z) : Z * gmap string SyndromeStat :=
  let '(successful, syndrome_stats) := acc in
  let '(measurement, count) := item in
  let '(physical_bits, syndrome_z_bits, syndrome_x_bits) :=
    parse_measurement measurement in
  let '(error_qubit, error_type) :=
    decode_steane_syndrome syndrome_x_bits syndrome_z_bits in
  let syndrome_key := "X:" +:+ syndrome_x_bits +:+ " Z:" +:+ syndrome_z_bits in
  let syndrome_stats :=
    if decide (syndrome_stats !! syndrome_key = None)
    then <[syndrome_key :=
            {| stat_count := 0; stat_error := (error_qubit, error_type) |}]>
           syndrome_stats
    else syndrome_stats in
  let syndrome_stats :=
    alter (λ st, {| stat_count := stat_count st + count;
                    stat_error := stat_error st |})
      syndrome_key syndrome_stats in
  let successful :=
    if bool_decide (syndrome_x_bits = "000")
       && bool_decide (syndrome_z_bits = "000")
    then (successful + count)%Z
    else successful in
  (successful, syndrome_stats).

Definition analyze_loop (counts : gmap string Z) : Z * gmap string SyndromeStat :=
  foldl analyze_step (0%Z, ∅) (sorted_by_count_desc counts).

(** The counts the second loop prints a percentage for, in its order. *)
Definition reported_counts (syndrome_stats : gmap string SyndromeStat)
    : list Z :=
  (λ item, stat_count item.2)
    <$> sorted_desc (λ item, stat_count item.2) (map_to_list syndrome_stats).

Definition analyze_steane_results (counts : gmap string Z)
    (input_value : Z) : Result float :=
  let total_shots := Py.sum (map_to_list counts).*2 in
  let '(successful, syndrome_stats) := analyze_loop counts in
  _ ← report_percentages (reported_counts syndrome_stats) total_shots;
  ratio ← truediv successful total_shots;
  mret (mul_int ratio 100).

(** What one histogram entry adds to [successful]. *)
Definition no_error_share (item : string * Z) : Z :=
  let '(_, syndrome_z_bits, syndrome_x_bits) := parse_measurement item.1 in
  if bool_decide (syndrome_x_bits = "000")
     && bool_decide (syndrome_z_bits = "000")
  then item.2 else 0%Z.

End Steane.

(** ** surface_code.py: the decoder *)

Module Surface.

Definition decode_surface_syndrome (syndrome_x syndrome_z : string)
    : option string * option string :=
  if bool_decide (syndrome_x = "0000") && bool_decide (syndrome_z = "0000")
  then (None, None)
  else if bool_decide (syndrome_x = "0000") && negb (bool_decide (syndrome_z = "0000"))
  then (Some "X-error detected", Some "X")
  else if negb (bool_decide (syndrome_x = "0000")) && bool_decide (syndrome_z = "0000")
  then (Some "Z-error detected", Some "Z")
  else if negb (bool_decide (syndrome_x = "0000")) && negb (bool_decide (syndrome_z = "0000"))
  then (Some "Y-error or multiple errors", Some "Y")
  else (Some "Unknown", Some "Unknown").

(** *** The circuit *)

Definition physical := QuantumRegister 9 "data".
Definition syndrome_x := QuantumRegister 4 "syn_x".
Definition syndrome_z := QuantumRegister 4 "syn_z".
Definition c_syndrome_x := ClassicalRegister 4 "c_syn_x".
Definition c_syndrome_z := ClassicalRegister 4 "c_syn_z".
Definition c_physical := ClassicalRegister 9 "c_data".

(** Returns [(qc, c_syndrome_x, c_syndrome_z, c_physical)]. *)
Definition create_surface_code (input_value : Z) (apply_error : bool)
    (error_qubit : Z) (error_type : string)
    : Result (QuantumCircuit * Register * Register * Register) :=
  (* INITIALIZATION *)
  let initialization :=
    (if decide (input_value = 1%Z)
     then [x (bit physical 0); x (bit physical 3); x (bit physical 6)]
     else [])
    ++ [barrier None] in
  (* ERROR INJECTION *)
  error_injection ←
    (if apply_error
     then gate ← error_gate physical error_qubit error_type;
          mret (gate ++ [barrier None])
     else mret []);
  (* X-TYPE STABILIZER MEASUREMENTS *)
  let x_stabilizers :=
    [ (* X-stabilizer 0: qubits 0, 1, 3 *)
      h (bit syndrome_x 0);
      cx (bit syndrome_x 0) (bit physical 0);
      cx (bit syndrome_x 0) (bit physical 1);
      cx (bit syndrome_x 0) (bit physical 3);
      h (bit syndrome_x 0);
      (* X-stabilizer 1: qubits 1, 2, 4 *)
      h (bit syndrome_x 1);
      cx (bit syndrome_x 1) (bit physical 1);
      cx (bit syndrome_x 1) (bit physical 2);
      cx (bit syndrome_x 1) (bit physical 4);
      h (bit syndrome_x 1);
      (* X-stabilizer 2: qubits 3, 4, 6 *)
      h (bit syndrome_x 2);
      cx (bit syndrome_x 2) (bit physical 3);
      cx (bit syndrome_x 2) (bit physical 4);
      cx (bit syndrome_x 2) (bit physical 6);
      h (bit syndrome_x 2);
      (* X-stabilizer 3: qubits 4, 5, 7 *)
      h (bit syndrome_x 3);
      cx (bit syndrome_x 3) (bit physical 4);
      cx (bit syndrome_x 3) (bit physical 5);
      cx (bit syndrome_x 3) (bit physical 7);
      h (bit syndrome_x 3);
      barrier None ] in
  (* Z-TYPE STABILIZER MEASUREMENTS *)
  let z_stabilizers :=
    [ (* Z-stabilizer 0: qubits 0, 1, 3, 4 *)
      cx (bit physical 0) (bit syndrome_z 0);
      cx (bit physical 1) (bit syndrome_z 0);
      cx (bit physical 3) (bit syndrome_z 0);
      cx (bit physical 4) (bit syndrome_z 0);
      (* Z-stabilizer 1: qubits 1, 2, 4, 5 *)
      cx (bit physical 1) (bit syndrome_z 1);
      cx (bit physical 2) (bit syndrome_z 1);
      cx (bit physical 4) (bit syndrome_z 1);
      cx (bit physical 5) (bit syndrome_z 1);
      (* Z-stabilizer 2: qubits 3, 4, 6, 7 *)
      cx (bit physical 3) (bit syndrome_z 2);
      cx (bit physical 4) (bit syndrome_z 2);
      cx (bit physical 6) (bit syndrome_z 2);
      cx (bit physical 7) (bit syndrome_z 2);
      (* Z-stabilizer 3: qubits 4, 5, 7, 8 *)
      cx (bit physical 4) (bit syndrome_z 3);
      cx (bit physical 5) (bit syndrome_z 3);
      cx (bit physical 7) (bit syndrome_z 3);
      cx (bit physical 8) (bit syndrome_z 3);
      barrier None ] in
  (* MEASUREMENT *)
  let measurement :=
    measure_register syndrome_x c_syndrome_x
    ++ measure_register syndrome_z c_syndrome_z
    ++ measure_register physical c_physical in
  mret ({| qregs := [physical; syndrome_x; syndrome_z];
           cregs := [c_syndrome_x; c_syndrome_z; c_physical];
           data := initialization ++ error_injection ++ x_stabilizers
                   ++ z_stabilizers ++ measurement |},
        c_syndrome_x, c_syndrome_z, c_physical).

(** The data qubits each stabilizer is said to measure, in the comments of
    the two measurement blocks. *)
Definition x_stabilizer_support (k : nat) : list nat :=
  match k with
  | 0 => [0; 1; 3]
  | 1 => [1; 2; 4]
  | 2 => [3; 4; 6]
  | _ => [4; 5; 7]
  end.
Definition z_stabilizer_support (k : nat) : list nat :=
  match k with
  | 0 => [0; 1; 3; 4]
  | 1 => [1; 2; 4; 5]
  | 2 => [3; 4; 6; 7]
  | _ => [4; 5; 7; 8]
  end.

(** *** The analysis *)

(** Lines 253-262: [(physical_bits, syndrome_z_bits, syndrome_x_bits)]. *)
Definition parse_measurement (measurement : string) : string * string * string :=
  match split measurement with
  | [physical_bits; syndrome_z_bits; syndrome_x_bits] =>
      (physical_bits, syndrome_z_bits, syndrome_x_bits)
  | _ =>
      let full_measurement := remove_char " " measurement in
      (slice 0 9 full_measurement, slice 9 13 full_measurement,
       slice 13 17 full_measurement)
  end.

Record SyndromeStat := {
  stat_count : Z;
  stat_error : option string * option string
}.

(** The body of the first [for] loop of [analyze_surface_results]. *)
Definition analyze_step (acc : Z * gmap string SyndromeStat)
    (item : string * Z) : Z * gmap string SyndromeStat :=
  let '(successful, syndrome_stats) := acc in
  let '(measurement, count) := item in
  let '(physical_bits, syndrome_z_bits, syndrome_x_bits) :=
    parse_measurement measurement in
  let '(error_location, error_type) :=
    decode_surface_syndrome syndrome_x_bits syndrome_z_bits in
  let syndrome_key := "X:" +:+ syndrome_x_bits +:+ " Z:" +:+ syndrome_z_bits in
  let syndrome_stats :=
    if decide (syndrome_stats !! syndrome_key = None)
    then <[syndrome_key :=
            {| stat_count := 0;
               stat_error := (error_location, error_type) |}]>
           syndrome_stats
    else syndrome_stats in
  let syndrome_stats :=
    alter (λ st, {| stat_count := stat_count st + count;
                    stat_error := stat_error st |})
      syndrome_key syndrome_stats in
  let successful :=
    if bool_decide (syndrome_x_bits = "0000")
       && bool_decide (syndrome_z_bits = "0000")
    then (successful + count)%Z
    else successful in
  (successful, syndrome_stats).

Definition analyze_loop (counts : gmap string Z) : Z * gmap string SyndromeStat :=
  foldl analyze_step (0%Z, ∅) (sorted_by_count_desc counts).

(** The counts the second loop prints a percentage for, in its order. *)
Definition reported_counts (syndrome_stats : gmap string SyndromeStat)
    : list Z :=
  (λ item, stat_count item.2)
    <$> sorted_desc (λ item, stat_count item.2) (map_to_list syndrome_stats).

Definition analyze_surface_results (counts : gmap string Z)
    (input_value : Z) : Result float :=
  let total_shots := Py.sum (map_to_list counts).*2 in
  let '(successful, syndrome_stats) := analyze_loop counts in
  _ ← report_percentages (reported_counts syndrome_stats) total_shots;
  ratio ← truediv successful total_shots;
  mret (mul_int ratio 100).

(** What one histogram entry adds to [successful], told by the decoder's
    verdict on its two syndromes. *)
Definition no_error_share (item : string * Z) : Z :=
  let '(_, syndrome_z_bits, syndrome_x_bits) := parse_measurement item.1 in
  if decide (decode_surface_syndrome syndrome_x_bits syndrome_z_bits
             = (None, None))
  then item.2 else 0%Z.

End Surface.

(** ** error_models.py

    The argument numbers are kept abstract: [add], [sub], [gt] and [one]
    are Python's [+], [-], [>] and the literal [1] on whatever number type
    the caller passes (floats in the script's own examples). The backend
    is a parameter as well: its two error constructors, and the two things
    a noise model asks of an error object, the number of qubits it acts on
    and whether it is ideal (the identity). Every call made to a
    constructor is recorded in [calls]. *)

Module ErrorModels.

Inductive BackendCall (F : Type) : Type :=
| depolarizing_error_call (param : F) (num_qubits : nat)
| pauli_error_call (noise_ops : list (string * F)).
Global Arguments depolarizing_error_call {F} param num_qubits.
Global Arguments pauli_error_call {F} noise_ops.

(** A run of a constructor: the backend calls it made, then its outcome. *)
Record Run (F A : Type) := {
  calls : list (BackendCall F);
  outcome : Result A
}.
Global Arguments calls {F A} r.
Global Arguments outcome {F A} r.

Global Instance Run_bind {F} : MBind (Run F) := λ A B k r,
  match outcome r with
  | Ok a => {| calls := calls r ++ calls (k a); outcome := outcome (k a) |}
  | Raise e => {| calls := calls r; outcome := Raise e |}
  end.
Global Instance Run_ret {F} : MRet (Run F) := λ A a,
  {| calls := []; outcome := Ok a |}.

Definition raise {F A} (e : exn) : Run F A :=
  {| calls := []; outcome := Raise e |}.

(** A step that calls no constructor. *)
Definition lift {F A} (r : Result A) : Run F A :=
  {| calls := []; outcome := r |}.

(** What a backend constructor hands back: the name of the exception it
    raised, or the error object it built. *)
Definition from_backend {A} (r : string + A) : Result A :=
  match r with
  | inl name => Raise (BackendError name)
  | inr a => Ok a
  end.

(** The number of qubits of the gates the module attaches errors to. *)
Definition instruction_qubits (name : string) : option nat :=
  if decide (name ∈ ["id"; "x"; "y"; "z"; "h"]) then Some 1%nat
  else if decide (name = "cx") then Some 2%nat
  else None.

Section QuantumErrorModels.
Context {F QuantumError : Type}.
Context (add sub : F → F → F) (one : F) (gt : F → F → bool).
Context (aer_depolarizing_error : F → nat → string + QuantumError).
Context (aer_pauli_error : list (string * F) → string + QuantumError).
Context (num_qubits : QuantumError → nat) (ideal : QuantumError → bool).

Definition depolarizing_error (param : F) (num_qubits : nat)
    : Run F QuantumError :=
  {| calls := [depolarizing_error_call param num_qubits];
     outcome := from_backend (aer_depolarizing_error param num_qubits) |}.

Definition pauli_error (noise_ops : list (string * F)) : Run F QuantumError :=
  {| calls := [pauli_error_call noise_ops];
     outcome := from_backend (aer_pauli_error noise_ops) |}.

(** A [NoiseModel]: the error each instruction name carries on all
    qubits. *)
Record NoiseModel := {
  default_quantum_errors : list (string * QuantumError)
}.
Definition NoiseModel_new : NoiseModel := {| default_quantum_errors := [] |}.

(** The check the backend makes before it gives an instruction an error:
    a gate on [n] qubits takes an error on [n] qubits only. *)
Definition check_number_of_qubits (error : QuantumError) (name : string)
    : Result unit :=
  match instruction_qubits name with
  | Some n => if decide (num_qubits error = n) then Ok tt
              else Raise (BackendError "NoiseError")
  | None => Ok tt
  end.

(** The backend's [noise_model.add_all_qubit_quantum_error(error,
    instructions)]: an ideal error is not added at all; otherwise the
    instruction names are taken in turn, each checked against the number
    of qubits of the error and then given the error. (A name that carries
    an error already would get the composition of the two; the module
    attaches once, to a fresh model, under distinct names.) *)
Definition add_all_qubit_quantum_error (noise_model : NoiseModel)
    (error : QuantumError) (instructions : list string) : Result NoiseModel :=
  if ideal error then Ok noise_model
  else
    foldl (λ model name,
             noise_model ← model;
             _ ← check_number_of_qubits error name;
             mret {| default_quantum_errors :=
                       default_quantum_errors noise_model ++ [(name, error)] |})
          (Ok noise_model) instructions.

Definition depolarizing_channel (p : F) : Run F NoiseModel :=
  error ← depolarizing_error p 1;
  let noise_model := NoiseModel_new in
  lift (add_all_qubit_quantum_error noise_model error
          ["id"; "x"; "y"; "z"; "h"; "cx"]).

Definition bit_flip_channel (p : F) : Run F NoiseModel :=
  error ← pauli_error [("X", p); ("I", sub one p)];
  let noise_model := NoiseModel_new in
  lift (add_all_qubit_quantum_error noise_model error
          ["id"; "x"; "y"; "z"; "h"; "cx"]).

Definition phase_flip_channel (p : F) : Run F NoiseModel :=
  error ← pauli_error [("Z", p); ("I", sub one p)];
  let noise_model := NoiseModel_new in
  lift (add_all_qubit_quantum_error noise_model error
          ["id"; "x"; "y"; "z"; "h"; "cx"]).

Definition bit_phase_flip_channel (p : F) : Run F NoiseModel :=
  error ← pauli_error [("Y", p); ("I", sub one p)];
  let noise_model := NoiseModel_new in
  lift (add_all_qubit_quantum_error noise_model error
          ["id"; "x"; "y"; "z"; "h"; "cx"]).

Definition custom_pauli_channel (px py pz : F) : Run F NoiseModel :=
  if gt (add (add px py) pz) one
  then raise (ValueError "Sum of error probabilities must be <= 1")
  else
    let pi := sub one (add (add px py) pz) in
    error ← pauli_error [("X", px); ("Y", py); ("Z", pz); ("I", pi)];
    let noise_model := NoiseModel_new in
    lift (add_all_qubit_quantum_error noise_model error
            ["id"; "x"; "y"; "z"; "h"; "cx"]).

(** The instruction names [thermal_relaxation_channel] attaches its error
    to: the same list without ['cx']. *)
Definition thermal_relaxation_instructions : list string :=
  ["id"; "x"; "y"; "z"; "h"].

End QuantumErrorModels.

(** *** The module on floats, with a backend that checks its arguments

    A stand-in for the backend, used to run the module on concrete
    numbers. It keeps the argument checks of the backend library:
    [depolarizing_error] wants [num_qubits >= 1] and
    [0 <= param <= 4^n / (4^n - 1)]; a Pauli error wants non-negative
    probabilities whose sum is 1 within the tolerance of [numpy.isclose].
    An error object is kept as the arguments it was built from; a Pauli
    error acts on as many qubits as its labels have letters, and an error
    is ideal when all its probability lies on the identity. *)

Inductive AerError : Type :=
| Depolarizing (param : float) (num_qubits : nat)
| Pauli (noise_ops : list (string * float)).

Definition aer_num_qubits (error : AerError) : nat :=
  match error with
  | Depolarizing _ n => n
  | Pauli noise_ops => default 0%nat (head ((λ op, String.length op.1) <$> noise_ops))
  end.

(** A Pauli label of identities only. *)
Fixpoint identity_label (label : string) : bool :=
  match label with
  | "" => true
  | String c label' => bool_decide (c = "I"%char) && identity_label label'
  end.

Definition aer_ideal (error : AerError) : bool :=
  match error with
  | Depolarizing param _ => SFeqb param (float_of_int 0)
  | Pauli noise_ops =>
      forallb (λ op, identity_label op.1 || SFeqb op.2 (float_of_int 0))
        noise_ops
  end.

Definition f_depolarizing_error (param : float) (num_qubits : nat)
    : string + AerError :=
  let num_terms := (4 ^ Z.of_nat num_qubits)%Z in
  let max_param :=
    SFdiv float_prec float_emax (int_operand num_terms)
      (int_operand (num_terms - 1)) in
  if bool_decide (num_qubits < 1)%nat then inl "NoiseError"
  else if flt param (float_of_int 0) || fgt param max_param
  then inl "NoiseError"
  else inr (Depolarizing param num_qubits).

(** [numpy.isclose(a, b)] with its default tolerances:
    [|a - b| <= 1e-08 + 1e-05 * |b|]. *)
Definition isclose (a b : float) : bool :=
  fle (SFabs (fsub a b)) (fadd (decimal 1 8) (fmul (decimal 1 5) (SFabs b))).

Definition f_pauli_error (noise_ops : list (string * float))
    : string + AerError :=
  let total := foldl fadd (float_of_int 0) noise_ops.*2 in
  if existsb (λ op, flt op.2 (float_of_int 0)) noise_ops then inl "NoiseError"
  else if negb (isclose total (float_of_int 1)) then inl "NoiseError"
  else inr (Pauli noise_ops).

Definition f_depolarizing_channel :=
  depolarizing_channel f_depolarizing_error aer_num_qubits aer_ideal.
Definition f_bit_flip_channel :=
  bit_flip_channel fsub (float_of_int 1) f_pauli_error aer_num_qubits aer_ideal.
Definition f_phase_flip_channel :=
  phase_flip_channel fsub (float_of_int 1) f_pauli_error aer_num_qubits
    aer_ideal.
Definition f_bit_phase_flip_channel :=
  bit_phase_flip_channel fsub (float_of_int 1) f_pauli_error aer_num_qubits
    aer_ideal.
Definition f_custom_pauli_channel :=
  custom_pauli_channel fadd fsub (float_of_int 1) fgt f_pauli_error
    aer_num_qubits aer_ideal.

End ErrorModels.

(** ** error_models.py: [apply_random_errors]

    The global NumPy generator is threaded through as a state [G]:
    [random] is [np.random.random()], [choice] is [np.random.choice], and
    [lt] is [<] on the drawn number and [error_rate]. A gate method called
    with an [int] acts on the qubit at that position of [circuit.qubits]. *)

Module RandomErrors.

Section apply_random_errors.
Context {F G : Type}.
Context (lt : F → F → bool).
Context (random : G → F * G).
Context (choice : list string → G → Result (string * G)).

(** [circuit.x(qubit)], [circuit.y(qubit)], [circuit.z(qubit)] *)
Definition append_gate (gate : Bit → Instruction) (circuit : QuantumCircuit)
    (qubit : nat) : Result QuantumCircuit :=
  match circuit_qubits circuit !! qubit with
  | Some q => Ok {| qregs := qregs circuit; cregs := cregs circuit;
                    data := data circuit ++ [gate q] |}
  | None => Raise (BackendError "CircuitError")
  end.

(** One iteration of the [for] loop, on the state
    [(circuit, errors_applied, generator)]. *)
Definition error_step (error_rate : F) (error_types : list string)
    (state : QuantumCircuit * list (nat * string) * G) (qubit : nat)
    : Result (QuantumCircuit * list (nat * string) * G) :=
  let '(circuit, errors_applied, g) := state in
  let '(draw, g) := random g in
  if lt draw error_rate then
    '(error_type, g) ← choice error_types g;
    let errors_applied := errors_applied ++ [(qubit, error_type)] in
    circuit ← (if decide (error_type = "X") then append_gate x circuit qubit
               else if decide (error_type = "Y") then append_gate y circuit qubit
               else if decide (error_type = "Z") then append_gate z circuit qubit
               else mret circuit);
    mret (circuit, errors_applied, g)
  else mret (circuit, errors_applied, g).

(** Returns [(circuit, errors_applied)], and the generator it leaves. *)
Definition apply_random_errors (circuit : QuantumCircuit) (num_qubits : Z)
    (error_rate : F) (error_types : list string) (g : G)
    : Result (QuantumCircuit * list (nat * string) * G) :=
  foldl (λ state qubit, st ← state; error_step error_rate error_types st qubit)
        (Ok (circuit, [], g)) (seq 0 (Z.to_nat num_qubits)).

(** The gate, if any, that recording the error [(qubit, error_type)] goes
    with. *)
Definition gate_of_error (circuit : QuantumCircuit) (error : nat * string)
    : list Instruction :=
  match circuit_qubits circuit !! error.1 with
  | Some q =>
      if decide (error.2 = "X") then [x q]
      else if decide (error.2 = "Y") then [y q]
      else if decide (error.2 = "Z") then [z q]
      else []
  | None => []
  end.

End apply_random_errors.

(** A generator for examples: it replays a fixed list of draws (then
    zeros) and always chooses the first of the offered types. *)
Definition replay_random (g : list Z) : Z * list Z :=
  match g with
  | [] => (0%Z, [])
  | d :: g' => (d, g')
  end.
Definition first_choice (error_types : list string) (g : list Z)
    : Result (string * list Z) :=
  match error_types with
  | [] => Raise (ValueError "'a' cannot be empty unless no samples are taken")
  | t :: _ => Ok (t, g)
  end.

End RandomErrors.

(** ** Properties *)

Section dict_literal_facts.
Context {V : Type}.
Implicit Types (entries : list (string * V)) (d : gmap string V).

Lemma foldl_insert_lookup entries d k :
  foldl (λ d kv, <[kv.1 := kv.2]> d) d entries !! k
  = foldl (λ acc kv, if decide (kv.1 = k) then Some kv.2 else acc)
      (d !! k) entries.
Proof.
  revert d. induction entries as [|[k' v] entries IH]; intros d; simpl; [done|].
  rewrite IH. f_equal. rewrite lookup_insert. by case_decide.
Qed.

Lemma dict_literal_lookup entries k :
  dict_literal entries !! k = last_listed k entries.
Proof.
  unfold Py.dict_literal, last_listed.
  rewrite foldl_insert_lookup. by rewrite lookup_empty.
Qed.

Lemma last_listed_None entries k :
  last_listed k entries = None ↔ k ∉ entries.*1.
Proof.
  unfold last_listed.
  assert (∀ acc, foldl (λ acc kv, if decide (kv.1 = k) then Some kv.2 else acc)
                   acc entries = None ↔ acc = None ∧ k ∉ entries.*1) as H.
  { induction entries as [|[k' v] entries IH]; intros acc; simpl.
    - split; [intros ->; split; [done|apply not_elem_of_nil]|by intros [? _]].
    - rewrite IH, not_elem_of_cons. case_decide; simplify_eq/=; intuition congruence. }
  rewrite H. tauto.
Qed.
End dict_literal_facts.

Section five_qubit_table.
Import FiveQubit.

Lemma decode_five_qubit_last_listed syndrome :
  decode_five_qubit_syndrome syndrome
  = default (None, Some "Unknown") (last_listed syndrome syndrome_table_entries).
Proof.
  unfold decode_five_qubit_syndrome, Py.get, syndrome_table.
  by rewrite dict_literal_lookup.
Qed.

(** C1. The [syndrome_table] literal lists the key ['1110'] three times,
    for (3,'X'), (0,'Y') and (2,'Y'), and the key ['1101'] twice, for
    (2,'X') and (1,'Y'); in particular two distinct Y-error corrections
    share one key.  For every syndrome the decoder returns the entry
    written last for it, so ['1110'] decodes to (2,'Y') only and ['1101']
    to (1,'Y') only. *)
Theorem five_qubit_table_duplicate_keys :
  filter (λ e, e.1 = "1110") syndrome_table_entries
    = [("1110", (Some 3, Some "X")); ("1110", (Some 0, Some "Y"));
       ("1110", (Some 2, Some "Y"))]
  ∧ filter (λ e, e.1 = "1101") syndrome_table_entries
    = [("1101", (Some 2, Some "X")); ("1101", (Some 1, Some "Y"))]
  ∧ (∃ k c1 c2, (k, c1) ∈ syndrome_table_entries
                ∧ (k, c2) ∈ syndrome_table_entries
                ∧ c1.2 = Some "Y" ∧ c2.2 = Some "Y" ∧ c1 ≠ c2)
  ∧ (∀ s, decode_five_qubit_syndrome s
          = default (None, Some "Unknown")
              (last_listed s syndrome_table_entries))
  ∧ decode_five_qubit_syndrome "1110" = (Some 2, Some "Y")
  ∧ decode_five_qubit_syndrome "1101" = (Some 1, Some "Y").
Proof.
  split_and!.
  - by vm_compute.
  - by vm_compute.
  - exists "1110", (Some 0, Some "Y"), (Some 2, Some "Y").
    split_and!; [| |done|done|done].
    + apply list_elem_of_In. vm_compute. tauto.
    + apply list_elem_of_In. vm_compute. tauto.
  - apply decode_five_qubit_last_listed.
  - by vm_compute.
  - by vm_compute.
Qed.

Lemma five_qubit_table_duplicate_keys_witness :
  decode_five_qubit_syndrome "1110" = (Some 2, Some "Y")%nat
  ∧ decode_five_qubit_syndrome "1101" = (Some 1, Some "Y")%nat.
Proof.
  destruct five_qubit_table_duplicate_keys as (_ & _ & _ & _ & H1 & H2).
  split; [exact H1|exact H2].
Defined.

End five_qubit_table.

Section five_qubit_decoder.
Import FiveQubit.

Lemma five_qubit_keys_cases s :
  s ∈ syndrome_table_entries.*1 →
  s ∈ ["0000"; "1011"; "0111"; "1101"; "1110"; "0110"; "0101"; "1010";
       "0011"; "1100"; "1001"; "0010"; "1111"].
Proof.
  unfold syndrome_table_entries. simpl. intros Hin.
  repeat (apply elem_of_cons in Hin as [->|Hin];
          [apply list_elem_of_In; simpl; tauto|]).
  by apply elem_of_nil in Hin.
Qed.

Lemma decode_five_qubit_unlisted s :
  s ∉ syndrome_table_entries.*1 →
  decode_five_qubit_syndrome s = (None, Some "Unknown").
Proof.
  intros Hs. rewrite decode_five_qubit_last_listed.
  apply last_listed_None in Hs. by rewrite Hs.
Qed.

(** C10. [decode_five_qubit_syndrome] is a total function of its string
    argument: it returns [(None, None)] exactly for ['0000'], a
    [(qubit, type)] pair with a qubit below 5 and a type among X, Y, Z for
    each of the 12 other distinct keys of the table literal, and the
    sentinel [(None, 'Unknown')] for every string that is not a key; equal
    inputs give equal outputs. *)
Theorem decode_five_qubit_syndrome_total (s : string) :
  (decode_five_qubit_syndrome s = (None, None) ↔ s = "0000")
  ∧ (s ∈ syndrome_table_entries.*1 → s ≠ "0000" →
     ∃ q t, decode_five_qubit_syndrome s = (Some q, Some t)
            ∧ (q < 5)%nat ∧ t ∈ ["X"; "Y"; "Z"])
  ∧ (s ∉ syndrome_table_entries.*1 →
     decode_five_qubit_syndrome s = (None, Some "Unknown"))
  ∧ length (remove_dups syndrome_table_entries.*1) = 13%nat
  ∧ size syndrome_table = 13%nat
  ∧ (∀ s', s = s' →
           decode_five_qubit_syndrome s = decode_five_qubit_syndrome s').
Proof.
  assert (s ∈ syndrome_table_entries.*1 → s ≠ "0000" →
          ∃ q t, decode_five_qubit_syndrome s = (Some q, Some t)
                 ∧ (q < 5)%nat ∧ t ∈ ["X"; "Y"; "Z"]) as Hkeys.
  { intros Hin%five_qubit_keys_cases Hne.
    repeat (apply elem_of_cons in Hin as [->|Hin];
            [first [done | vm_compute; eexists _, _;
                           split_and!; [reflexivity|lia|];
                           apply list_elem_of_In; simpl; tauto]|]).
    by apply elem_of_nil in Hin. }
  split_and!; [|done|apply decode_five_qubit_unlisted| | |by intros ? <-].
  - split; [|by intros ->].
    destruct (decide (s ∈ syndrome_table_entries.*1)) as [Hin|Hout].
    + destruct (decide (s = "0000")) as [|Hne]; [done|].
      destruct (Hkeys Hin Hne) as (q & t & -> & _). done.
    + rewrite (decode_five_qubit_unlisted _ Hout). done.
  - by vm_compute.
  - by vm_compute.
Qed.

Lemma decode_five_qubit_syndrome_total_witness :
  (∃ q t, decode_five_qubit_syndrome "0011" = (Some q, Some t)
          ∧ (q < 5)%nat ∧ t ∈ ["X"; "Y"; "Z"])
  ∧ decode_five_qubit_syndrome "0001" = (None, Some "Unknown").
Proof.
  destruct (decode_five_qubit_syndrome_total "0011") as (_ & Hkey & _).
  destruct (decode_five_qubit_syndrome_total "0001") as (_ & _ & Hother & _).
  split.
  - apply Hkey; [|discriminate].
    apply list_elem_of_In. unfold syndrome_table_entries. simpl. tauto.
  - apply Hother. unfold syndrome_table_entries. simpl.
    intros Hin. repeat (apply elem_of_cons in Hin as [?|Hin]; [done|]).
    by apply elem_of_nil in Hin.
Defined.

End five_qubit_decoder.

Section steane_decoder.
Import Steane.

(** C2, as the code has it. The X- and Z-syndromes are looked up
    separately, each in its own table, and the two lookups are then merged
    into one report: when the X entry names qubit [a] and the Z entry a
    different qubit [b], the decoder returns [(None, 'Unknown')] and names
    neither; when both name the same qubit it reports a Y error there; when
    only one syndrome names a qubit it reports that qubit with type X or Z;
    when neither does it reports no error. *)
Theorem decode_steane_syndrome_cases (syndrome_x syndrome_z : string) :
  let xq := Py.get x_syndrome_table syndrome_x None in
  let zq := Py.get z_syndrome_table syndrome_z None in
  (∀ a b, xq = Some a → zq = Some b → a ≠ b →
          decode_steane_syndrome syndrome_x syndrome_z = (None, Some "Unknown"))
  ∧ (∀ a, xq = Some a → zq = Some a →
          decode_steane_syndrome syndrome_x syndrome_z = (Some a, Some "Y"))
  ∧ (∀ a, xq = Some a → zq = None →
          decode_steane_syndrome syndrome_x syndrome_z = (Some a, Some "X"))
  ∧ (∀ b, xq = None → zq = Some b →
          decode_steane_syndrome syndrome_x syndrome_z = (Some b, Some "Z"))
  ∧ (xq = None → zq = None →
          decode_steane_syndrome syndrome_x syndrome_z = (None, None)).
Proof.
  intros xq zq. unfold decode_steane_syndrome. fold xq zq.
  split_and!.
  - intros a b -> -> Hab. by rewrite decide_False.
  - intros a -> ->. by rewrite decide_True.
  - by intros a -> ->.
  - by intros b -> ->.
  - by intros -> ->.
Qed.

Lemma decode_steane_syndrome_cases_witness :
  decode_steane_syndrome "011" "001" = (None, Some "Unknown")
  ∧ decode_steane_syndrome "011" "011" = (Some 3, Some "Y")%nat
  ∧ decode_steane_syndrome "011" "000" = (Some 3, Some "X")%nat
  ∧ decode_steane_syndrome "abc" "001" = (Some 5, Some "Z")%nat
  ∧ decode_steane_syndrome "000" "" = (None, None).
Proof.
  split_and!.
  - apply (decode_steane_syndrome_cases "011" "001") with (a := 3%nat) (b := 5%nat);
      [by vm_compute|by vm_compute|lia].
  - apply (decode_steane_syndrome_cases "011" "011"); by vm_compute.
  - apply (decode_steane_syndrome_cases "011" "000"); by vm_compute.
  - apply (decode_steane_syndrome_cases "abc" "001"); by vm_compute.
  - apply (decode_steane_syndrome_cases "000" ""); by vm_compute.
Defined.

(** C2, as stated, fails: the X-syndrome ['011'] names qubit 3, the
    Z-syndrome ['001'] names qubit 5, and the decoder answers
    [(None, 'Unknown')], reporting neither correction. *)
Lemma decode_steane_x3_z5_counterexample :
  Py.get x_syndrome_table "011" None = Some 3%nat
  ∧ Py.get z_syndrome_table "001" None = Some 5%nat
  ∧ decode_steane_syndrome "011" "001" = (None, Some "Unknown")
  ∧ (decode_steane_syndrome "011" "001").1 ≠ Some 3%nat
  ∧ (decode_steane_syndrome "011" "001").1 ≠ Some 5%nat.
Proof. split_and!; by vm_compute. Qed.

End steane_decoder.

Section surface_decoder.
Import Surface.

(** C4. [decode_surface_syndrome] puts every pair of syndrome strings in
    exactly one of four cases: [(None, None)] if and only if both are
    ['0000']; the X-error report when only the Z-syndrome differs from
    ['0000']; the Z-error report when only the X-syndrome does; and the
    category ['Y-error or multiple errors'] when both do. The final
    ['Unknown'] return is never reached. *)
Theorem decode_surface_syndrome_classifies (syndrome_x syndrome_z : string) :
  (decode_surface_syndrome syndrome_x syndrome_z = (None, None)
   ↔ syndrome_x = "0000" ∧ syndrome_z = "0000")
  ∧ (syndrome_x = "0000" → syndrome_z ≠ "0000" →
     decode_surface_syndrome syndrome_x syndrome_z
     = (Some "X-error detected", Some "X"))
  ∧ (syndrome_x ≠ "0000" → syndrome_z = "0000" →
     decode_surface_syndrome syndrome_x syndrome_z
     = (Some "Z-error detected", Some "Z"))
  ∧ (syndrome_x ≠ "0000" → syndrome_z ≠ "0000" →
     decode_surface_syndrome syndrome_x syndrome_z
     = (Some "Y-error or multiple errors", Some "Y"))
  ∧ decode_surface_syndrome syndrome_x syndrome_z
    ≠ (Some "Unknown", Some "Unknown").
Proof.
  unfold decode_surface_syndrome.
  destruct (decide (syndrome_x = "0000")) as [Hx|Hx];
    destruct (decide (syndrome_z = "0000")) as [Hz|Hz];
    repeat first [rewrite (bool_decide_eq_true_2 _ Hx)
                 |rewrite (bool_decide_eq_false_2 _ Hx)
                 |rewrite (bool_decide_eq_true_2 _ Hz)
                 |rewrite (bool_decide_eq_false_2 _ Hz)];
    simpl; split_and!; try done; split; try done; intros [? ?]; done.
Qed.

Lemma decode_surface_syndrome_classifies_witness :
  decode_surface_syndrome "0000" "0100" = (Some "X-error detected", Some "X")
  ∧ decode_surface_syndrome "0010" "0000" = (Some "Z-error detected", Some "Z")
  ∧ decode_surface_syndrome "0010" "0100"
    = (Some "Y-error or multiple errors", Some "Y")
  ∧ decode_surface_syndrome "0000" "0000" = (None, None).
Proof.
  split_and!.
  - by apply (decode_surface_syndrome_classifies "0000" "0100").
  - by apply (decode_surface_syndrome_classifies "0010" "0000").
  - by apply (decode_surface_syndrome_classifies "0010" "0100").
  - by apply (decode_surface_syndrome_classifies "0000" "0000").
Defined.

End surface_decoder.

Section steane_circuit.
Import Steane.

Lemma getitem_register reg i q : getitem reg i = Ok q → q.1 = reg_name reg.
Proof.
  unfold getitem. repeat case_bool_decide; intros; by simplify_eq/=.
Qed.

(** Instructions on one register leave the qubits of another alone. *)
Lemma acting_on_other_register a instrs :
  Forall (λ i, ∀ q, q ∈ qubits_of i → q.1 ≠ a.1) instrs →
  acting_on a instrs = [].
Proof.
  unfold acting_on. induction 1 as [|i instrs Hi _ IH]; [done|].
  rewrite filter_cons_False; [done|]. intros Ha. by apply (Hi a).
Qed.

Lemma on_register_getitem reg i (gate : Bit → Instruction) :
  (∀ q, qubits_of (gate q) = [q]) →
  ∀ instrs, (q ← getitem reg i; mret [gate q]) = Ok instrs →
  on_register (reg_name reg) instrs.
Proof.
  intros Hgate instrs. destruct (getitem reg i) as [q|] eqn:Hq; [|done].
  intros [= <-]. apply Forall_cons. split; [|by apply Forall_nil].
  intros q'. rewrite Hgate. intros ->%list_elem_of_singleton.
  by apply getitem_register in Hq.
Qed.

Lemma acting_on_app a l1 l2 :
  acting_on a (l1 ++ l2) = acting_on a l1 ++ acting_on a l2.
Proof. apply filter_app. Qed.

Lemma acting_on_ancilla_physical a instrs :
  a.1 ≠ "physical" → on_register "physical" instrs → acting_on a instrs = [].
Proof.
  intros Ha Hinstrs. apply acting_on_other_register.
  eapply Forall_impl; [exact Hinstrs|]. simpl. intros i Hi q Hq.
  rewrite (Hi q Hq). done.
Qed.

(** C8. In every circuit [create_steane_code] builds, the instructions
    that touch the ancilla of the [k]-th X-type generator are exactly: a
    Hadamard, one controlled-X from the ancilla onto each qubit of the
    generator's support ({0,1,2,3}, {2,3,4,5}, {4,5,6,0}), a Hadamard, and
    its measurement; those that touch the ancilla of the [k]-th Z-type
    generator are exactly one controlled-X from each support qubit onto the
    ancilla, and its measurement, with no Hadamard. *)
Theorem steane_syndrome_blocks input_value apply_error error_qubit error_type
    qc r1 r2 r3 (k : nat) :
  create_steane_code input_value apply_error error_qubit error_type
  = Ok (qc, r1, r2, r3) →
  (k < 3)%nat →
  acting_on (bit syndrome_x k) (data qc)
  = [h (bit syndrome_x k)]
    ++ ((λ j, cx (bit syndrome_x k) (bit physical j)) <$> stabilizer_support k)
    ++ [h (bit syndrome_x k); measure (bit syndrome_x k) (bit c_syndrome_x k)]
  ∧ acting_on (bit syndrome_z k) (data qc)
    = ((λ j, cx (bit physical j) (bit syndrome_z k)) <$> stabilizer_support k)
      ++ [measure (bit syndrome_z k) (bit c_syndrome_z k)].
Proof.
  unfold create_steane_code.
  set (inj := if apply_error then _ else _).
  assert (∀ instrs, inj = Ok instrs → on_register "physical" instrs) as Hinj.
  { subst inj. intros instrs. destruct apply_error; [|intros [= <-]; constructor].
    match goal with |- (gate ← ?g; _) = _ → _ =>
      assert (∀ gs, g = Ok gs → on_register "physical" gs) as Hg end.
    { intros gs. repeat case_decide.
      - by apply (on_register_getitem physical).
      - by apply (on_register_getitem physical).
      - by apply (on_register_getitem physical).
      - intros [= <-]. constructor. }
    match goal with |- (gate ← ?g; _) = _ → _ => destruct g as [gs|]; [|done] end.
    intros [= <-]. apply Forall_app. split; [by apply Hg|].
    apply Forall_cons. split; [|constructor]. simpl. intros q Hq. by apply elem_of_nil in Hq. }
  destruct inj as [instrs|]; [|done]. specialize (Hinj _ eq_refl).
  intros [= <- <- <- <-] Hk. simpl data.
  rewrite !acting_on_app.
  rewrite (acting_on_ancilla_physical (bit syndrome_x k) instrs), (acting_on_ancilla_physical (bit syndrome_z k) instrs) by done.
  assert (k = 0 ∨ k = 1 ∨ k = 2)%nat as [->|[->| ->]] by lia;
    case_decide; split; by vm_compute.
Qed.
Lemma steane_syndrome_blocks_witness :
  ∃ qc, create_steane_code 1 true 3 "Y"
        = Ok (qc, c_syndrome_x, c_syndrome_z, c_physical)
        ∧ acting_on (bit syndrome_x 1) (data qc)
          = [ h ("syn_x", 1%nat);
              cx ("syn_x", 1%nat) ("physical", 2%nat);
              cx ("syn_x", 1%nat) ("physical", 3%nat);
              cx ("syn_x", 1%nat) ("physical", 4%nat);
              cx ("syn_x", 1%nat) ("physical", 5%nat);
              h ("syn_x", 1%nat);
              measure ("syn_x", 1%nat) ("c_syn_x", 1%nat) ]
        ∧ acting_on (bit syndrome_z 1) (data qc)
          = [ cx ("physical", 2%nat) ("syn_z", 1%nat);
              cx ("physical", 3%nat) ("syn_z", 1%nat);
              cx ("physical", 4%nat) ("syn_z", 1%nat);
              cx ("physical", 5%nat) ("syn_z", 1%nat);
              measure ("syn_z", 1%nat) ("c_syn_z", 1%nat) ].
Proof.
  eexists. split; [reflexivity|].
  apply (steane_syndrome_blocks 1 true 3 "Y" _ c_syndrome_x c_syndrome_z
           c_physical 1); [reflexivity|lia].
Defined.

End steane_circuit.

(** *** Rounded quotients and products of counts *)

Section binary64.
Local Open Scope Z_scope.

(** A float that is [+0] or positive, finite and at most [n * 2 ^ eb]. *)
Lemma shr_1_ceil mrs n :
  0 ≤ shr_m mrs → shr_ceil mrs ≤ 2 * n →
  0 ≤ shr_m (shr_1 mrs) ∧ shr_ceil (shr_1 mrs) ≤ n.
Proof.
  destruct mrs as [m r s]. unfold shr_ceil. simpl. intros Hm Hc.
  destruct m as [|[p|p|]|p]; destruct r, s; simpl in *; lia.
Qed.

Lemma iter_pos_shr_1_ceil p : ∀ mrs n,
  0 ≤ shr_m mrs → shr_ceil mrs ≤ 2 ^ Zpos p * n →
  0 ≤ shr_m (SpecFloat.iter_pos shr_1 p mrs) ∧ shr_ceil (SpecFloat.iter_pos shr_1 p mrs) ≤ n.
Proof.
  induction p as [p IH|p IH|]; intros mrs n Hm Hc; cbn [SpecFloat.iter_pos].
  - rewrite (Pos2Z.inj_xI p), Z.add_1_r, Z.pow_succ_r, Z.pow_twice_r in Hc by lia.
    destruct (shr_1_ceil mrs (2 ^ Zpos p * (2 ^ Zpos p * n))) as [Hm1 Hc1];
      [done|lia|].
    destruct (IH _ _ Hm1 Hc1) as [Hm2 Hc2]. by apply IH.
  - rewrite (Pos2Z.inj_xO p), Z.pow_twice_r in Hc.
    destruct (IH mrs (2 ^ Zpos p * n)) as [Hm1 Hc1]; [done|lia|].
    by apply IH.
  - apply shr_1_ceil; [done|]. by rewrite Z.pow_1_r in Hc.
Qed.

Lemma digits2_pos_bounds p :
  2 ^ (Zpos (digits2_pos p) - 1) ≤ Zpos p < 2 ^ Zpos (digits2_pos p).
Proof.
  induction p as [p IH|p IH|]; simpl digits2_pos.
  - rewrite Pos2Z.inj_succ, Z.pow_succ_r by lia.
    replace (Z.succ (Zpos (digits2_pos p)) - 1) with (Z.succ (Zpos (digits2_pos p) - 1)) by lia.
    rewrite Z.pow_succ_r by lia. lia.
  - rewrite Pos2Z.inj_succ, Z.pow_succ_r by lia.
    replace (Z.succ (Zpos (digits2_pos p)) - 1) with (Z.succ (Zpos (digits2_pos p) - 1)) by lia.
    rewrite Z.pow_succ_r by lia. lia.
  - simpl. lia.
Qed.

Lemma Zdigits2_le m k : 0 ≤ m → 0 ≤ k → m < 2 ^ k → Zdigits2 m ≤ k.
Proof.
  intros Hm Hk Hlt. destruct m as [|p|p]; simpl; [lia| |lia].
  pose proof (digits2_pos_bounds p) as [Hlo _].
  destruct (decide (Zpos (digits2_pos p) ≤ k)) as [|Hgt]; [done|].
  assert (2 ^ k ≤ 2 ^ (Zpos (digits2_pos p) - 1)) by (apply Z.pow_le_mono_r; lia).
  lia.
Qed.

Lemma shr_record_of_loc_ceil m l :
  shr_m (shr_record_of_loc m l) = m
  ∧ shr_ceil (shr_record_of_loc m l) = loc_ceil m l.
Proof. by destruct l as [|[]]. Qed.

Lemma shr_m_le_ceil mrs : shr_m mrs ≤ shr_ceil mrs.
Proof. unfold shr_ceil. destruct (shr_r mrs || shr_s mrs); lia. Qed.

Lemma shr_fexp_upto m e l n eb :
  0 ≤ m → 0 < n < 2 ^ float_prec →
  emin float_prec float_emax ≤ eb → e ≤ eb →
  loc_ceil m l ≤ n * 2 ^ (eb - e) →
  0 ≤ shr_m (shr_fexp float_prec float_emax m e l).1
  ∧ (shr_fexp float_prec float_emax m e l).2 ≤ eb
  ∧ shr_ceil (shr_fexp float_prec float_emax m e l).1
    ≤ n * 2 ^ (eb - (shr_fexp float_prec float_emax m e l).2).
Proof.
  intros Hm Hn Hemin He Hc.
  destruct (shr_record_of_loc_ceil m l) as [Hrm Hrc].
  unfold shr_fexp, shr.
  destruct (fexp float_prec float_emax (Zdigits2 m + e) - e) as [|p|p] eqn:Hk;
    cbn [fst snd]; [by rewrite Hrm, Hrc| |by rewrite Hrm, Hrc].
  assert (m < 2 ^ (float_prec + (eb - e))) as Hlt.
  { rewrite Z.pow_add_r by (unfold float_prec; lia).
    assert (0 < 2 ^ (eb - e)) by (apply Z.pow_pos_nonneg; lia).
    assert (m ≤ loc_ceil m l) by (destruct l; simpl; lia). nia. }
  assert (Zdigits2 m ≤ float_prec + (eb - e)) as Hd
    by (apply Zdigits2_le; [done|unfold float_prec; lia|done]).
  assert (e + Zpos p ≤ eb) as He'.
  { unfold fexp in Hk. lia. }
  split_and!; [| done |];
    apply (iter_pos_shr_1_ceil p _ (n * 2 ^ (eb - (e + Zpos p))));
    try (by rewrite Hrm); rewrite Hrc;
    (replace (eb - e) with (Zpos p + (eb - (e + Zpos p))) in Hc by lia;
     rewrite Z.pow_add_r in Hc by lia; lia).
Qed.

Lemma round_nearest_even_ceil mrs :
  0 ≤ shr_m mrs →
  0 ≤ round_nearest_even (shr_m mrs) (loc_of_shr_record mrs) ≤ shr_ceil mrs.
Proof.
  destruct mrs as [m [] []]; unfold shr_ceil; simpl; intros Hm;
    try destruct (Z.even m); lia.
Qed.

Lemma binary_round_aux_upto mx ex lx n eb :
  0 ≤ mx → 0 < n < 2 ^ float_prec →
  emin float_prec float_emax ≤ eb ≤ float_emax - float_prec → ex ≤ eb →
  loc_ceil mx lx ≤ n * 2 ^ (eb - ex) →
  float_upto n eb (binary_round_aux float_prec float_emax false mx ex lx).
Proof.
  intros Hm Hn [Hemin Hemax] He Hc. unfold binary_round_aux.
  pose proof (shr_fexp_upto mx ex lx n eb Hm Hn Hemin He Hc) as (Hm1 & He1 & Hc1).
  destruct (shr_fexp float_prec float_emax mx ex lx) as [mrs1 e1].
  cbn [fst snd] in Hm1, He1, Hc1.
  pose proof (round_nearest_even_ceil mrs1 Hm1) as [Hr0 Hr1].
  set (mr := round_nearest_even (shr_m mrs1) (loc_of_shr_record mrs1)) in *.
  assert (loc_ceil mr loc_Exact ≤ n * 2 ^ (eb - e1)) as Hc2 by (simpl; lia).
  pose proof (shr_fexp_upto mr e1 loc_Exact n eb Hr0 Hn Hemin He1 Hc2)
    as (Hm2 & He2 & Hc3).
  destruct (shr_fexp float_prec float_emax mr e1 loc_Exact) as [mrs2 e2].
  cbn [fst snd] in Hm2, He2, Hc3.
  pose proof (shr_m_le_ceil mrs2) as Hle.
  destruct (shr_m mrs2) as [|m|m] eqn:Hm2'; [by left| |lia].
  rewrite (proj2 (Z.leb_le _ _)) by lia.
  right. exists m, e2. split_and!; [done|done|lia].
Qed.

Lemma SFdiv_core_binary_ints (a b : positive) :
  ∃ q e l r,
    SFdiv_core_binary float_prec float_emax (Zpos a) 0 (Zpos b) 0 = (q, e, l)
    ∧ e ≤ 0 ∧ 0 ≤ q
    ∧ Zpos a * 2 ^ (- e) = Zpos b * q + r ∧ 0 ≤ r < Zpos b
    ∧ (r = 0 → l = loc_Exact)
    ∧ (r ≠ 0 → ∃ c, l = loc_Inexact c).
Proof.
  unfold SFdiv_core_binary.
  set (e := Z.min _ (0 - 0)).
  assert (e ≤ 0) as He by (subst e; lia).
  set (m' := match 0 - 0 - e with
             | 0 => Zpos a
             | Zpos _ => Z.shiftl (Zpos a) (0 - 0 - e)
             | Zneg _ => 0
             end).
  assert (m' = Zpos a * 2 ^ (- e)) as Hm'.
  { subst m'. destruct (0 - 0 - e) as [|p|p] eqn:Hs; [|rewrite Z.shiftl_mul_pow2 by lia|lia].
    - replace (- e) with 0 by lia. lia.
    - by replace (- e) with (Zpos p) by lia. }
  pose proof (Z_div_mod m' (Zpos b) eq_refl) as Hdiv.
  destruct (Z.div_eucl m' (Zpos b)) as [q r]. destruct Hdiv as [Heq Hr].
  exists q, e, (new_location (Zpos b) r), r.
  assert (0 ≤ m') by (rewrite Hm'; apply Z.mul_nonneg_nonneg; [lia|apply Z.pow_nonneg; lia]).
  split_and!; [done|done|nia|lia|lia|lia| |].
  - intros ->. unfold new_location, new_location_even, new_location_odd.
    by destruct (Z.even (Zpos b)).
  - intros Hr0. unfold new_location.
    destruct (Z.even (Zpos b)); unfold new_location_even, new_location_odd;
      rewrite (proj2 (Z.eqb_neq r 0)) by done; by eexists.
Qed.


Lemma float_upto_finite n eb x :
  float_upto n eb x → ∀ s, x ≠ S754_infinity s.
Proof. intros [->|(m & e & -> & _)] s; discriminate. Qed.

Lemma truediv_upto a b :
  0 ≤ a ≤ b → 0 < b → ∃ q, truediv a b = Ok q ∧ float_upto 1 0 q.
Proof.
  intros [Ha Hab] Hb. unfold truediv. rewrite decide_False by lia.
  assert (float_upto 1 0 (SFdiv float_prec float_emax (int_operand a)
                            (int_operand b))) as Hq.
  { destruct b as [|b|b]; [lia| |lia]. destruct a as [|a|a]; [by left| |lia].
    cbn [int_operand SFdiv xorb].
    destruct (SFdiv_core_binary_ints a b)
      as (q & e & l & r & -> & He & Hq & Heq & Hr & Hexact & Hinexact).
    apply binary_round_aux_upto; [done|done|done|done|].
    rewrite Z.mul_1_l, Z.sub_0_l.
    assert (0 < 2 ^ (- e)) by (apply Z.pow_pos_nonneg; lia).
    destruct (decide (r = 0)) as [Hr0|Hr0].
    - rewrite (Hexact Hr0). simpl. nia.
    - destruct (Hinexact Hr0) as [c ->]. simpl. nia. }
  pose proof (float_upto_finite _ _ _ Hq) as Hfin.
  destruct (SFdiv _ _ _ _) as [| s | |]; [by eexists|by destruct (Hfin s)|
                                         by eexists|by eexists].
Qed.

Lemma truediv_same t : 0 < t → truediv t t = Ok (float_of_int 1).
Proof.
  intros Ht. unfold truediv. rewrite decide_False by lia.
  destruct t as [|t|t]; [lia| |lia].
  cbn [int_operand SFdiv xorb]. unfold SFdiv_core_binary.
  replace (Zdigits2 (Zpos t) + 0 - (Zdigits2 (Zpos t) + 0)) with 0 by lia.
  change (Z.min (fexp float_prec float_emax 0) (0 - 0)) with (-53).
  change (0 - 0 - -53) with 53.
  rewrite Z.shiftl_mul_pow2 by lia.
  assert (Z.div_eucl (Zpos t * 2 ^ 53) (Zpos t) = (2 ^ 53, 0)) as ->.
  { pose proof (Z_div_mod (Zpos t * 2 ^ 53) (Zpos t) eq_refl) as Hdiv.
    destruct (Z.div_eucl _ _) as [q r]. destruct Hdiv as [Heq Hr].
    assert (q = 2 ^ 53) as -> by nia. f_equal. lia. }
  assert (new_location (Zpos t) 0 = loc_Exact) as ->.
  { unfold new_location. by destruct (Z.even (Zpos t)). }
  by vm_compute.
Qed.

Lemma truediv_zero t : 0 < t → truediv 0 t = Ok (S754_zero false).
Proof.
  intros Ht. unfold truediv. rewrite decide_False by lia.
  by destruct t as [|t|t]; [lia| |lia].
Qed.

Lemma mul_int_100_upto x :
  float_upto 1 0 x → float_upto 25 2 (mul_int x 100).
Proof.
  unfold mul_int.
  change (float_of_int 100) with (S754_finite false 7036874417766400 (-46)).
  intros [->|(m & e & -> & He & Hm)]; [by left|].
  cbn [SFmul xorb].
  apply binary_round_aux_upto; [done|done|done|lia|].
  cbn [loc_ceil]. rewrite Pos2Z.inj_mul.
  replace (2 - (e + -46)) with (48 + (0 - e)) by lia.
  rewrite Z.pow_add_r by lia.
  change 7036874417766400 with (25 * 2 ^ 48). nia.
Qed.

Lemma inject_Z_nonneg n : 0 ≤ n → (0 <= inject_Z n)%Q.
Proof. intros Hn. change 0%Q with (inject_Z 0). by rewrite <-Zle_Qle. Qed.

Lemma float_upto_value n eb x :
  0 ≤ n → float_upto n eb x →
  ∃ v, float_value x = Some v
       ∧ (0 <= v)%Q ∧ (v <= inject_Z n * Qpower 2 eb)%Q.
Proof.
  intros Hn [->|(m & e & -> & He & Hm)].
  - exists 0%Q. split; [done|]. split; [apply Qle_refl|].
    apply Qmult_le_0_compat; [by apply inject_Z_nonneg|].
    by apply Qpower_0_le.
  - eexists. split; [done|]. split.
    + apply Qmult_le_0_compat; [by apply inject_Z_nonneg|].
      by apply Qpower_0_le.
    + assert (inject_Z n * 2 ^ eb == inject_Z (n * 2 ^ (eb - e)) * 2 ^ e)%Q
        as ->.
      { rewrite inject_Z_mult, Zpower_Qpower by lia.
        rewrite <-Qmult_assoc, <-Qpower_plus by done.
        by replace (eb - e + e) with eb by lia. }
      apply Qmult_le_compat_r; [by rewrite <-Zle_Qle|].
      by apply Qpower_0_le.
Qed.

Lemma float_upto_100 x :
  float_upto 25 2 x →
  ∃ v, float_value x = Some v ∧ (0 <= v)%Q ∧ (v <= 100)%Q.
Proof.
  intros Hx. destruct (float_upto_value 25 2 x) as (v & Hv & H0 & H100);
    [lia|done|].
  exists v. split_and!; [done|done|]. eapply Qle_trans; [exact H100|]. by vm_compute.
Qed.

(** The rate [(s / t) * 100] of a part [s] of a positive total [t]: the
    division and the product succeed, and the float obtained is finite and
    lies between 0 and 100; it is exactly 100.0 for [s = t] and 0.0 for
    [s = 0]. *)
Lemma rate_of_part s t :
  0 ≤ s ≤ t → 0 < t →
  ∃ ratio value,
    truediv s t = Ok ratio
    ∧ float_value (mul_int ratio 100) = Some value
    ∧ (0 <= value)%Q ∧ (value <= 100)%Q
    ∧ (s = t → mul_int ratio 100 = float_of_int 100)
    ∧ (s = 0 → mul_int ratio 100 = float_of_int 0).
Proof.
  intros Hs Ht. destruct (truediv_upto s t Hs Ht) as (ratio & Hratio & Hupto).
  destruct (float_upto_100 _ (mul_int_100_upto _ Hupto))
    as (value & Hvalue & Hlo & Hhi).
  exists ratio, value. split_and!; [done|done|done|done| |].
  - intros ->. rewrite truediv_same in Hratio by done.
    injection Hratio as <-. by vm_compute.
  - intros ->. rewrite truediv_zero in Hratio by done.
    injection Hratio as <-. by vm_compute.
Qed.

Lemma foldl_raised {A B} (k : A → B → Result A) e (items : list B) :
  foldl (λ racc item, acc ← racc; k acc item) (Raise e) items = Raise e.
Proof. induction items as [|item items IH]; [done|]. simpl. apply IH. Qed.

Lemma truediv_by_zero a : truediv a 0 = Raise ZeroDivisionError.
Proof. unfold truediv. by rewrite decide_True. Qed.

(** A report loop over counts between 0 and a positive total completes;
    with a zero total it raises [ZeroDivisionError] unless there is
    nothing to report. *)
Lemma report_percentages_ok count_list total :
  Forall (λ count, 0 ≤ count ≤ total) count_list → 0 < total →
  report_percentages count_list total = Ok tt.
Proof.
  intros Hall Htotal. unfold report_percentages.
  induction Hall as [|count count_list Hcount _ IH]; [done|]. simpl.
  by destruct (truediv_upto count total Hcount Htotal) as (q & -> & _).
Qed.

Lemma report_percentages_zero count_list :
  report_percentages count_list 0
  = if decide (count_list = []) then Ok tt else Raise ZeroDivisionError.
Proof.
  unfold report_percentages. destruct count_list as [|count count_list];
    [done|].
  rewrite decide_False by done. cbn [foldl mbind Result_bind].
  rewrite truediv_by_zero. cbn [mbind Result_bind].
  apply (foldl_raised (λ _ count, ratio ← truediv count 0;
                                  let percentage := mul_int ratio 100 in
                                  mret tt)).
Qed.

Lemma report_then_divide_by_zero {A} count_list s (k : float → Result A) :
  (_ ← report_percentages count_list 0; ratio ← truediv s 0; k ratio)
  = Raise ZeroDivisionError.
Proof.
  rewrite report_percentages_zero, truediv_by_zero.
  by destruct (decide (count_list = [])).
Qed.

End binary64.

Section bitflip_code.
Import BitFlip.

(** The loop's counters are those of [tally] whenever it completes. *)
Lemma analyze_loop_returns counts input_value t :
  analyze_loop counts input_value = Ok t → t = tally counts input_value.
Proof.
  unfold analyze_loop, tally.
  assert (∀ items racc, 
            foldl (λ racc item,
                     acc ← racc;
                     percentage ← truediv item.2 (Py.sum (map_to_list counts).*2);
                     mret (tally_step input_value acc item)) racc items = Ok t →
            ∃ acc, racc = Ok acc ∧ t = foldl (tally_step input_value) acc items)
    as Hfold.
  { induction items as [|item items IH]; intros racc Ht; simpl in *.
    - by exists t.
    - destruct (IH _ Ht) as (acc' & Hstep & ->).
      destruct racc as [acc|e]; [|done]. exists acc. split; [done|].
      simpl in Hstep. destruct (truediv _ _); [|done]. simpl in Hstep.
      by injection Hstep as <-. }
  intros Ht. destruct (Hfold _ _ Ht) as (acc & Hacc & ->).
  by injection Hacc as <-.
Qed.

(** With a positive shot total and no count outside [0, total] no
    iteration fails, and the loop ends with the counters of [tally]. *)
Lemma analyze_loop_tally counts input_value :
  (∀ k n, counts !! k = Some n →
          (0 ≤ n ≤ Py.sum (map_to_list counts).*2)%Z) →
  (0 < Py.sum (map_to_list counts).*2)%Z →
  analyze_loop counts input_value = Ok (tally counts input_value).
Proof.
  intros Hin Htotal. unfold analyze_loop, tally.
  assert (Forall (λ item, 0 ≤ item.2 ≤ Py.sum (map_to_list counts).*2)%Z
            (sorted_items counts)) as Hitems.
  { apply Forall_forall. intros [k n] Hel. simpl. apply (Hin k).
    apply elem_of_map_to_list. unfold sorted_items in Hel.
    by rewrite merge_sort_Permutation in Hel. }
  revert Hitems. generalize (0%Z, 0%Z) as acc.
  generalize (sorted_items counts) as items.
  induction items as [|item items IH]; intros acc Hitems; simpl; [done|].
  apply Forall_cons in Hitems as [Hitem Hitems].
  destruct (truediv_upto item.2 _ Hitem Htotal) as (q & -> & _). simpl.
  by apply IH.
Qed.

Lemma tally_singleton bitstring shots input_value :
  tally {[ bitstring := shots ]} input_value
  = tally_step input_value (0%Z, 0%Z) (bitstring, shots).
Proof.
  unfold tally, sorted_items. by rewrite map_to_list_singleton.
Qed.

Lemma analyze_loop_singleton bitstring shots input_value :
  (0 < shots)%Z →
  analyze_loop {[ bitstring := shots ]} input_value
  = Ok (tally_step input_value (0%Z, 0%Z) (bitstring, shots)).
Proof.
  intros Hshots. rewrite analyze_loop_tally, tally_singleton; [done| |].
  - intros k n [_ <-]%lookup_singleton_Some.
    rewrite map_to_list_singleton. simpl. lia.
  - rewrite map_to_list_singleton. simpl. lia.
Qed.

(** C3. Without noise, for input 0 or 1 and one X error on physical qubit
    0, 1 or 2, the circuit runs to a single outcome whose two syndrome bits
    are the parities of physical qubits (0,1) and (1,2); they are (1,0),
    (1,1), (0,1) for qubit 0, 1, 2, so they determine the qubit and differ
    from the error-free (0,0), and a majority vote over the three measured
    physical bits would give back the input. The key of the outcome is
    ['<physical bits> <syndrome bits>'], and [analyze_results] votes on the
    group after the space, that is on the two syndrome bits: its vote is 1
    exactly for an error on qubit 1, so every shot is counted as a success
    when the input is 1 and the error is on qubit 1, or the input is 0 and
    the error on qubit 0 or 2, and as a failure in the three other cases;
    the reported rate is 100.0 or 0.0 accordingly. *)
Theorem bitflip_vote_reads_syndrome_bits (input_value error_qubit shots : Z) :
  input_value ∈ [0; 1]%Z → error_qubit ∈ [0; 1; 2]%Z → (0 < shots)%Z →
  ∃ qc cstate results,
    create_bitflip_code input_value true error_qubit
    = Ok (qc, syndrome_c, physical_c)
    ∧ run_basis (data qc) zero_bits zero_bits = Some cstate
    ∧ (let '(p0, p1, p2) := physical_of cstate in
       syndrome_of cstate = (xorb p0 p1, xorb p1 p2))
    ∧ syndrome_of cstate = bitflip_syndrome error_qubit
    ∧ (∀ q', q' ∈ [0; 1; 2]%Z →
             bitflip_syndrome q' = syndrome_of cstate → q' = error_qubit)
    ∧ syndrome_of cstate ≠ (false, false)
    ∧ majority_vote (register_string cstate physical_c) = input_value
    ∧ majority_vote (bitstring_of cstate)
      = majority_vote (register_string cstate syndrome_c)
    ∧ majority_vote (bitstring_of cstate)
      = (if decide (error_qubit = 1%Z) then 1%Z else 0%Z)
    ∧ run_qec_circuit input_value true error_qubit shots = Ok (Some results)
    ∧ res_counts results = {[ bitstring_of cstate := shots ]}
    ∧ analyze_loop (res_counts results) input_value
      = Ok (if decide (input_value = 1%Z ↔ error_qubit = 1%Z)
            then (shots, 0%Z) else (0%Z, shots))
    ∧ analyze_results results input_value
      = Ok (PyFloat (float_of_int
                       (if decide (input_value = 1%Z ↔ error_qubit = 1%Z)
                        then 100 else 0))).
Proof.
  intros Hin Hq Hshots.
  assert (∀ q', q' ∈ [0; 1; 2]%Z → ∀ q, q ∈ [0; 1; 2]%Z →
            bitflip_syndrome q' = bitflip_syndrome q → q' = q) as Hinj.
  { intros q' Hq' q Hq0.
    repeat (apply elem_of_cons in Hq' as [->|Hq']);
      repeat (apply elem_of_cons in Hq0 as [->|Hq0]);
      try done; by (apply elem_of_nil in Hq' || apply elem_of_nil in Hq0). }
  assert (∀ qc cstate,
            create_bitflip_code input_value true error_qubit
            = Ok (qc, syndrome_c, physical_c) →
            run_basis (data qc) zero_bits zero_bits = Some cstate →
            ∀ v : bool,
            majority_vote (bitstring_of cstate) = (if v then input_value
                                                   else 1 - input_value)%Z →
            ∃ results,
              run_qec_circuit input_value true error_qubit shots
              = Ok (Some results)
              ∧ res_counts results = {[ bitstring_of cstate := shots ]}
              ∧ analyze_loop (res_counts results) input_value
                = Ok (if v then (shots, 0%Z) else (0%Z, shots))
              ∧ analyze_results results input_value
                = Ok (PyFloat (float_of_int (if v then 100 else 0)))) as Hrun.
  { intros qc cstate Hqc Hbasis v Hvote.
    unfold run_qec_circuit, get_counts. rewrite Hqc. simpl. rewrite Hbasis.
    simpl. eexists. split; [reflexivity|]. split; [reflexivity|].
    unfold analyze_results. simpl.
    rewrite analyze_loop_singleton by done.
    unfold tally_step. rewrite Hvote. destruct v.
    - rewrite decide_True by done. split; [done|]. simpl.
      rewrite decide_True by lia. replace (0 + shots + 0)%Z with shots by lia.
      replace (0 + shots)%Z with shots by lia.
      rewrite truediv_same by done. by vm_compute.
    - rewrite decide_False by lia. split; [done|]. simpl.
      rewrite decide_True by lia. replace (0 + (0 + shots))%Z with shots by lia.
      rewrite truediv_zero by done. by vm_compute. }
  repeat (apply elem_of_cons in Hin as [->|Hin]);
    [| |by apply elem_of_nil in Hin];
    (repeat (apply elem_of_cons in Hq as [->|Hq]);
     [| | |by apply elem_of_nil in Hq]).
  all: match goal with
       | |- ∃ qc cstate results,
              create_bitflip_code ?i true ?q = _ ∧ _ =>
           let c := eval vm_compute in (create_bitflip_code i true q) in
           match c with
           | Ok (?qc, _, _) =>
               let st := eval vm_compute in
                           (run_basis (data qc) zero_bits zero_bits) in
               match st with
               | Some ?cstate =>
                   let v := eval vm_compute in
                              (bool_decide (majority_vote (bitstring_of cstate)
                                            = i)) in
                   destruct (Hrun qc cstate eq_refl eq_refl v eq_refl)
                     as (results & Hres & Hcounts & Hloop & Hrate);
                   exists qc, cstate, results
               end
           end
       end.
  all: (split; [reflexivity|]; split; [reflexivity|];
        split; [by vm_compute|]; split; [by vm_compute|];
        split; [intros q' Hq' Hs; apply Hinj;
                [done|apply list_elem_of_In; simpl; tauto|by rewrite Hs]|];
        split; [by vm_compute|]; split; [by vm_compute|];
        split; [by vm_compute|]; split; [by vm_compute|];
        split; [exact Hres|]; split; [exact Hcounts|]).
  all: rewrite Hloop, Hrate; split; reflexivity.
Qed.

Lemma bitflip_vote_reads_syndrome_bits_witness :
  ∃ qc cstate results,
    create_bitflip_code 1 true 0 = Ok (qc, syndrome_c, physical_c)
    ∧ run_basis (data qc) zero_bits zero_bits = Some cstate
    ∧ bitstring_of cstate = "110 01"
    ∧ majority_vote (register_string cstate physical_c) = 1%Z
    ∧ majority_vote (bitstring_of cstate) = 0%Z
    ∧ run_qec_circuit 1 true 0 1024 = Ok (Some results)
    ∧ analyze_loop (res_counts results) 1 = Ok (0%Z, 1024%Z)
    ∧ analyze_results results 1 = Ok (PyFloat (S754_zero false)).
Proof.
  destruct (bitflip_vote_reads_syndrome_bits 1 0 1024)
    as (qc & cstate & results & Hqc & Hrun & _ & _ & _ & _ & Hphys & _
        & Hvote & Hres & Hcounts & Hloop & Hrate).
  - apply list_elem_of_In. simpl. tauto.
  - apply list_elem_of_In. simpl. tauto.
  - lia.
  - exists qc, cstate, results.
    injection Hqc as <-. injection Hrun as <-.
    split; [reflexivity|]. split; [reflexivity|].
    split; [reflexivity|]. split; [exact Hphys|]. split; [exact Hvote|].
    split; [exact Hres|]. split; [exact Hloop|]. exact Hrate.
Defined.

End bitflip_code.

Section histogram_sums.
Implicit Types (g : string * Z → Z) (m : gmap string Z).

Lemma sum_app l1 l2 : Py.sum (l1 ++ l2) = (Py.sum l1 + Py.sum l2)%Z.
Proof. induction l1 as [|a l1 IH]; simpl; lia. Qed.

Lemma sum_Permutation l1 l2 : l1 ≡ₚ l2 → Py.sum l1 = Py.sum l2.
Proof. induction 1; simpl; lia. Qed.

(** The sum of [g] over the entries of a histogram. *)
Lemma sum_items_insert g m k v :
  m !! k = None →
  Py.sum (g <$> map_to_list (<[k := v]> m))
  = (g (k, v) + Py.sum (g <$> map_to_list m))%Z.
Proof.
  intros Hk. rewrite (sum_Permutation _ (g <$> (k, v) :: map_to_list m)); [done|].
  apply fmap_Permutation. by apply map_to_list_insert.
Qed.

Lemma sum_items_delete g m k v :
  m !! k = Some v →
  Py.sum (g <$> map_to_list m)
  = (g (k, v) + Py.sum (g <$> map_to_list (delete k m)))%Z.
Proof.
  intros Hk. rewrite <-(sum_items_insert g (delete k m) k v).
  - by rewrite insert_delete_id.
  - apply lookup_delete_eq.
Qed.

Lemma sum_items_pointwise_sum g m1 m2 :
  (∀ k a b, g (k, (a + b)%Z) = (g (k, a) + g (k, b))%Z) →
  Py.sum (g <$> map_to_list (pointwise_sum m1 m2))
  = (Py.sum (g <$> map_to_list m1) + Py.sum (g <$> map_to_list m2))%Z.
Proof.
  intros Hg. unfold pointwise_sum. revert m1.
  induction m2 as [|k v m2 Hk IH] using map_ind; intros m1.
  - rewrite (right_id_L ∅ (union_with _)). rewrite map_to_list_empty. simpl. lia.
  - rewrite (sum_items_insert g m2 k v Hk).
    destruct (m1 !! k) as [a|] eqn:Hm1.
    + rewrite <-(insert_delete_id m1 k a Hm1) at 1.
      rewrite <-(insert_union_with (λ a b, Some (a + b)%Z) (delete k m1) m2
                   k a v (a + v)%Z) by done.
      rewrite sum_items_insert.
      * rewrite IH, Hg, (sum_items_delete g m1 k a Hm1). lia.
      * rewrite lookup_union_with, lookup_delete_eq, Hk. done.
    + rewrite <-insert_union_with_r by done.
      rewrite sum_items_insert.
      * rewrite IH. lia.
      * rewrite lookup_union_with, Hm1, Hk. done.
Qed.

Lemma positive_counts_sum m :
  positive_counts m → m ≠ ∅ → (0 < Py.sum (map_to_list m).*2)%Z.
Proof.
  intros Hpos Hne.
  assert (Forall (λ n, 0 < n)%Z (map_to_list m).*2) as Hall.
  { apply Forall_fmap, Forall_forall. intros [k n] Hin. simpl.
    apply elem_of_map_to_list in Hin. by apply (Hpos k n). }
  assert ((map_to_list m).*2 ≠ []) as Hne'.
  { intros Hnil. apply fmap_nil_inv in Hnil. by apply map_to_list_empty_iff in Hnil. }
  destruct Hall as [|n l Hn Hl]; [done|]. simpl.
  assert (0 ≤ Py.sum l)%Z; [|lia].
  clear -Hl. induction Hl; simpl; lia.
Qed.

Lemma elem_le_sum (l : list Z) (n : Z) :
  Forall (λ c, 0 ≤ c)%Z l → n ∈ l → (n ≤ Py.sum l)%Z.
Proof.
  induction 1 as [|c l Hc Hl IH]; intros Hin; [by apply elem_of_nil in Hin|].
  assert (0 ≤ Py.sum l)%Z by (clear -Hl; induction Hl; simpl; lia).
  apply elem_of_cons in Hin as [->|Hin]; simpl; [lia|].
  specialize (IH Hin). lia.
Qed.

Lemma positive_counts_le_sum m k n :
  positive_counts m → m !! k = Some n →
  (0 ≤ n ≤ Py.sum (map_to_list m).*2)%Z.
Proof.
  intros Hpos Hk. split; [specialize (Hpos k n Hk); simpl in Hpos; lia|].
  apply elem_le_sum.
  - apply Forall_fmap, Forall_forall. intros [k' n'] Hin. simpl.
    apply elem_of_map_to_list in Hin. specialize (Hpos k' n' Hin).
    simpl in Hpos. lia.
  - apply list_elem_of_fmap. exists (k, n). split; [done|].
    by apply elem_of_map_to_list.
Qed.

Lemma positive_counts_pointwise_sum m1 m2 :
  positive_counts m1 → positive_counts m2 →
  positive_counts (pointwise_sum m1 m2).
Proof.
  intros H1 H2 k n. unfold pointwise_sum. rewrite lookup_union_with.
  destruct (m1 !! k) as [a|] eqn:Ha, (m2 !! k) as [b|] eqn:Hb;
    simpl; intros [= <-].
  - specialize (H1 k a Ha). specialize (H2 k b Hb). simpl in *. lia.
  - by apply (H1 k).
  - by apply (H2 k).
Qed.

End histogram_sums.

Section bitflip_aggregation.
Import BitFlip.

Lemma tally_step_shares v s f item :
  tally_step v (s, f) item
  = ((s + success_share v item)%Z, (f + failure_share v item)%Z).
Proof.
  destruct item as [k c]. unfold tally_step, success_share, failure_share.
  simpl. destruct (decide (majority_vote k = v)); f_equal; lia.
Qed.

Lemma tally_fold v items s f :
  foldl (tally_step v) (s, f) items
  = ((s + Py.sum (success_share v <$> items))%Z,
     (f + Py.sum (failure_share v <$> items))%Z).
Proof.
  revert s f. induction items as [|item items IH]; intros s f.
  - simpl. f_equal; lia.
  - change (foldl (tally_step v) (s, f) (item :: items))
      with (foldl (tally_step v) (tally_step v (s, f) item) items).
    rewrite tally_step_shares, IH, !fmap_cons. simpl. f_equal; lia.
Qed.

Lemma tally_sums counts v :
  tally counts v
  = (Py.sum (success_share v <$> map_to_list counts),
     Py.sum (failure_share v <$> map_to_list counts)).
Proof.
  unfold tally, sorted_items. rewrite tally_fold. simpl.
  f_equal; apply sum_Permutation, fmap_Permutation, merge_sort_Permutation.
Qed.

Lemma analyze_loop_positive counts v :
  positive_counts counts → analyze_loop counts v = Ok (tally counts v).
Proof.
  intros Hpos. destruct (decide (counts = ∅)) as [->|Hne].
  - done.
  - apply analyze_loop_tally.
    + intros k n Hk. by apply (positive_counts_le_sum counts k).
    + by apply positive_counts_sum.
Qed.

(** C9. For every expected input value and every two histograms, the
    success and failure counters [analyze_results] accumulates over their
    pointwise sum are the sums of the counters it accumulates over each:
    splitting a batch and adding the statistics changes nothing, in either
    order and however the sub-batches are grouped. On histograms as a run
    produces them (positive counts) the loop completes on both parts and
    on their sum, with those counters. *)
Theorem tally_pointwise_sum_additive (input_value : Z) (c1 c2 c3 : gmap string Z) :
  tally (pointwise_sum c1 c2) input_value
  = (((tally c1 input_value).1 + (tally c2 input_value).1)%Z,
     ((tally c1 input_value).2 + (tally c2 input_value).2)%Z)
  ∧ tally (pointwise_sum c1 c2) input_value
    = tally (pointwise_sum c2 c1) input_value
  ∧ tally (pointwise_sum (pointwise_sum c1 c2) c3) input_value
    = tally (pointwise_sum c1 (pointwise_sum c2 c3)) input_value
  ∧ (positive_counts c1 → positive_counts c2 →
     ∃ s1 f1 s2 f2,
       analyze_loop c1 input_value = Ok (s1, f1)
       ∧ analyze_loop c2 input_value = Ok (s2, f2)
       ∧ analyze_loop (pointwise_sum c1 c2) input_value
         = Ok ((s1 + s2)%Z, (f1 + f2)%Z)).
Proof.
  assert (∀ a b, tally (pointwise_sum a b) input_value
                 = (((tally a input_value).1 + (tally b input_value).1)%Z,
                    ((tally a input_value).2 + (tally b input_value).2)%Z))
    as Hadd.
  { intros a b. rewrite !tally_sums. simpl.
    f_equal; apply sum_items_pointwise_sum; intros k x y;
      unfold success_share, failure_share; simpl; case_decide; lia. }
  split_and!.
  - apply Hadd.
  - rewrite !Hadd. f_equal; lia.
  - rewrite !Hadd. simpl. f_equal; lia.
  - intros H1 H2.
    exists (tally c1 input_value).1, (tally c1 input_value).2,
           (tally c2 input_value).1, (tally c2 input_value).2.
    rewrite !analyze_loop_positive
      by auto using positive_counts_pointwise_sum.
    rewrite Hadd. split_and!; try done; by destruct (tally _ _).
Qed.

Lemma tally_pointwise_sum_additive_witness :
  analyze_loop (pointwise_sum {[ "00 000" := 500%Z; "01 110" := 12%Z ]}
                              {[ "00 000" := 490%Z; "11 101" := 22%Z ]}) 0
  = Ok (990%Z, 34%Z).
Proof.
  destruct (tally_pointwise_sum_additive 0
              {[ "00 000" := 500%Z; "01 110" := 12%Z ]}
              {[ "00 000" := 490%Z; "11 101" := 22%Z ]} ∅)
    as (_ & _ & _ & Hloop).
  destruct Hloop as (s1 & f1 & s2 & f2 & H1 & H2 & Hsum).
  - apply map_Forall_to_list. vm_compute. repeat constructor.
  - apply map_Forall_to_list. vm_compute. repeat constructor.
  - rewrite Hsum. vm_compute in H1, H2.
    injection H1 as <- <-. injection H2 as <- <-. reflexivity.
Defined.

End bitflip_aggregation.

Section measurement_strings.

Lemma string_app_cons c s1 s2 : String c s1 +:+ s2 = String c (s1 +:+ s2).
Proof. reflexivity. Qed.

Lemma string_app_nil_r s : s +:+ "" = s.
Proof. induction s as [|c s IH]; [done|]. by rewrite string_app_cons, IH. Qed.

Lemma string_app_snoc s1 c s2 : (s1 +:+ String c "") +:+ s2 = s1 +:+ String c s2.
Proof.
  induction s1 as [|a s1 IH]; [done|]. by rewrite !string_app_cons, IH.
Qed.

Lemma bitstring_cons c s :
  bitstring (String c s) = true → isspace c = false ∧ bitstring s = true.
Proof.
  simpl. intros [Hc Hs]%andb_prop. split; [|done].
  apply bool_decide_eq_true in Hc as [-> | ->]; reflexivity.
Qed.

(** [split] reads a run of bit characters into the current word. *)
Lemma split_go_bitstring word bs rest :
  bitstring bs = true →
  split_go word (bs +:+ rest) = split_go (word +:+ bs) rest.
Proof.
  revert word. induction bs as [|c bs IH]; intros word Hbs.
  - by rewrite string_app_nil_r.
  - apply bitstring_cons in Hbs as [Hc Hbs].
    rewrite string_app_cons. simpl. rewrite Hc, IH by done.
    by rewrite string_app_snoc.
Qed.

(** A key made of two bit strings separated by one space splits into them. *)
Lemma split_two_registers r1 r2 :
  bitstring r1 = true → bitstring r2 = true → r1 ≠ "" → r2 ≠ "" →
  split (r1 +:+ " " +:+ r2) = [r1; r2].
Proof.
  intros H1 H2 Hne1 Hne2. unfold split.
  rewrite split_go_bitstring by done.
  change ("" +:+ r1) with r1. change (" " +:+ r2) with (String " " r2).
  simpl. rewrite decide_False by done. simpl. f_equal.
  rewrite <-(string_app_nil_r r2) at 1.
  rewrite split_go_bitstring by done. simpl. by rewrite decide_False.
Qed.

End measurement_strings.

Section five_qubit_analysis.
Import FiveQubit.

Lemma parse_measurement_registers physical_bits syndrome_bits :
  bitstring physical_bits = true → bitstring syndrome_bits = true →
  physical_bits ≠ "" → syndrome_bits ≠ "" →
  parse_measurement (physical_bits +:+ " " +:+ syndrome_bits)
  = (physical_bits, syndrome_bits).
Proof.
  intros. unfold parse_measurement. by rewrite split_two_registers.
Qed.

Lemma analyze_step_successful acc item :
  (analyze_step acc item).1 = (acc.1 + zero_syndrome_share item)%Z.
Proof.
  destruct acc as [successful stats], item as [measurement n].
  unfold analyze_step, zero_syndrome_share. simpl.
  destruct (parse_measurement measurement) as [p s].
  destruct (decode_five_qubit_syndrome s) as [q t]. simpl.
  case_decide; lia.
Qed.

Lemma analyze_step_zero_syndrome_count acc item :
  zero_syndrome_count (analyze_step acc item).2
  = (zero_syndrome_count acc.2 + zero_syndrome_share item)%Z.
Proof.
  destruct acc as [successful stats], item as [measurement n].
  unfold analyze_step, zero_syndrome_share, zero_syndrome_count. simpl.
  destruct (parse_measurement measurement) as [p s].
  destruct (decode_five_qubit_syndrome s) as [q t]. simpl.
  destruct (decide (s = "0000")) as [->|Hs].
  - rewrite lookup_alter_eq.
    destruct (decide (stats !! "0000" = None)) as [Hnone|Hsome].
    + rewrite lookup_insert_eq, Hnone. simpl. lia.
    + destruct (stats !! "0000"); [simpl; lia|done].
  - rewrite lookup_alter_ne by done.
    case_decide; [rewrite lookup_insert_ne by done|]; lia.
Qed.

Lemma analyze_fold acc items :
  (foldl analyze_step acc items).1
  = (acc.1 + Py.sum (zero_syndrome_share <$> items))%Z
  ∧ zero_syndrome_count (foldl analyze_step acc items).2
    = (zero_syndrome_count acc.2 + Py.sum (zero_syndrome_share <$> items))%Z.
Proof.
  revert acc. induction items as [|item items IH]; intros acc.
  - simpl. lia.
  - change (foldl analyze_step acc (item :: items))
      with (foldl analyze_step (analyze_step acc item) items).
    destruct (IH (analyze_step acc item)) as [-> ->].
    rewrite analyze_step_successful, analyze_step_zero_syndrome_count.
    rewrite fmap_cons. simpl. lia.
Qed.

(** C7. [analyze_five_qubit_results] adds a histogram entry to
    [successful] if and only if the syndrome bits parsed from its key are
    ['0000']: the tally is the sum of the counts of exactly those entries,
    which is the count [syndrome_stats] holds for ['0000']. For a key
    ['<physical bits> <syndrome bits>'] the entry's share depends on the
    syndrome bits and the count only, not on the physical bits, and
    neither the tally nor the returned rate depends on [input_value]. *)
Theorem five_qubit_success_is_zero_syndrome (counts : gmap string Z)
    (input_value input_value' : Z) :
  (analyze_loop counts).1
  = Py.sum (zero_syndrome_share <$> map_to_list counts)
  ∧ (analyze_loop counts).1 = zero_syndrome_count (analyze_loop counts).2
  ∧ (∀ physical_bits physical_bits' syndrome_bits n,
       bitstring physical_bits = true → bitstring physical_bits' = true →
       bitstring syndrome_bits = true →
       physical_bits ≠ "" → physical_bits' ≠ "" → syndrome_bits ≠ "" →
       zero_syndrome_share (physical_bits +:+ " " +:+ syndrome_bits, n)
       = (if decide (syndrome_bits = "0000") then n else 0%Z)
       ∧ zero_syndrome_share (physical_bits +:+ " " +:+ syndrome_bits, n)
         = zero_syndrome_share (physical_bits' +:+ " " +:+ syndrome_bits, n))
  ∧ analyze_five_qubit_results counts input_value
    = analyze_five_qubit_results counts input_value'
  ∧ analyze_five_qubit_results counts input_value
    = (_ ← report_percentages (reported_counts (analyze_loop counts).2)
             (Py.sum (map_to_list counts).*2);
       ratio ← truediv (Py.sum (zero_syndrome_share <$> map_to_list counts))
                       (Py.sum (map_to_list counts).*2);
       mret (mul_int ratio 100)).
Proof.
  assert ((analyze_loop counts).1
          = Py.sum (zero_syndrome_share <$> map_to_list counts)) as Hsum.
  { unfold analyze_loop, sorted_by_count_desc.
    rewrite (proj1 (analyze_fold _ _)). simpl.
    apply sum_Permutation, fmap_Permutation, merge_sort_Permutation. }
  split_and!.
  - done.
  - unfold analyze_loop.
    destruct (analyze_fold (0%Z, ∅) (sorted_by_count_desc counts)) as [-> ->].
    done.
  - intros p p' s n Hp Hp' Hs Hnp Hnp' Hns. unfold zero_syndrome_share. simpl.
    by rewrite !parse_measurement_registers.
  - done.
  - unfold analyze_five_qubit_results.
    destruct (analyze_loop counts) as [successful stats] eqn:Hloop.
    simpl in Hsum. by rewrite Hsum.
Qed.

Lemma five_qubit_success_is_zero_syndrome_witness :
  zero_syndrome_share ("10110 0000", 7%Z) = 7%Z
  ∧ zero_syndrome_share ("10110 0000", 7%Z)
    = zero_syndrome_share ("00000 0000", 7%Z)
  ∧ (analyze_loop {[ "00000 0000" := 1000%Z; "10110 0000" := 7%Z;
                     "00001 1011" := 17%Z ]}).1 = 1007%Z.
Proof.
  destruct (five_qubit_success_is_zero_syndrome
              {[ "00000 0000" := 1000%Z; "10110 0000" := 7%Z;
                 "00001 1011" := 17%Z ]} 0 1) as (Hsum & _ & Hshare & _).
  destruct (Hshare "10110" "00000" "0000" 7%Z) as [H1 H2];
    [reflexivity|reflexivity|reflexivity|discriminate|discriminate|discriminate|].
  split; [exact H1|]. split; [exact H2|].
  rewrite Hsum. vm_compute. reflexivity.
Defined.

End five_qubit_analysis.

Section error_model_channels.
Import ErrorModels.
Context {F QuantumError : Type}.
Context (add sub : F → F → F) (one : F) (gt : F → F → bool).
Context (aer_depolarizing_error : F → nat → string + QuantumError).
Context (aer_pauli_error : list (string * F) → string + QuantumError).
Context (num_qubits : QuantumError → nat) (ideal : QuantumError → bool).

Local Abbreviation attach := (add_all_qubit_quantum_error num_qubits ideal).
Local Abbreviation gate_names := ["id"; "x"; "y"; "z"; "h"; "cx"].

(** Attaching an error either gives a noise model or fails with the
    backend's [NoiseError]. *)
Lemma attach_outcomes noise_model error instructions :
  (∃ noise_model', attach noise_model error instructions = Ok noise_model')
  ∨ attach noise_model error instructions = Raise (BackendError "NoiseError").
Proof.
  unfold add_all_qubit_quantum_error.
  destruct (ideal error); [left; by eexists|].
  assert (∀ r : Result NoiseModel,
            (∃ nm, r = Ok nm) ∨ r = Raise (BackendError "NoiseError") →
            ∀ names,
              let r' := foldl (λ model name,
                                 noise_model ← model;
                                 _ ← check_number_of_qubits num_qubits error name;
                                 mret {| default_quantum_errors :=
                                           default_quantum_errors noise_model
                                           ++ [(name, error)] |}) r names in
              (∃ nm, r' = Ok nm) ∨ r' = Raise (BackendError "NoiseError"))
    as Hfold.
  { intros r Hr names. revert r Hr.
    induction names as [|name names IH]; intros r Hr; simpl; [done|].
    apply IH. destruct Hr as [[nm ->]| ->]; simpl; [|by right].
    unfold check_number_of_qubits.
    destruct (instruction_qubits name) as [n|]; simpl; [|left; by eexists].
    destruct (decide (num_qubits error = n)); simpl; [left; by eexists|by right]. }
  apply Hfold. left. by eexists.
Qed.

(** An error on one qubit that is not ideal cannot be attached under the
    six names the constructors pass, because ['cx'] is a gate on two
    qubits; under the five names [thermal_relaxation_channel] passes it
    can. *)
Lemma attach_one_qubit_error error :
  num_qubits error = 1%nat → ideal error = false →
  attach NoiseModel_new error gate_names = Raise (BackendError "NoiseError")
  ∧ attach NoiseModel_new error thermal_relaxation_instructions
    = Ok {| default_quantum_errors :=
              (λ name, (name, error)) <$> thermal_relaxation_instructions |}.
Proof.
  intros Hone Hideal.
  unfold add_all_qubit_quantum_error, thermal_relaxation_instructions.
  rewrite Hideal. unfold check_number_of_qubits.
  cbn [foldl mbind Result_bind mret Result_ret].
  change (instruction_qubits "id") with (Some 1%nat).
  change (instruction_qubits "x") with (Some 1%nat).
  change (instruction_qubits "y") with (Some 1%nat).
  change (instruction_qubits "z") with (Some 1%nat).
  change (instruction_qubits "h") with (Some 1%nat).
  change (instruction_qubits "cx") with (Some 2%nat).
  rewrite Hone. split; reflexivity.
Qed.

(** An ideal error is not attached: the model stays as it was. *)
Lemma attach_ideal_error noise_model error instructions :
  ideal error = true → attach noise_model error instructions = Ok noise_model.
Proof. intros Hideal. unfold add_all_qubit_quantum_error. by rewrite Hideal. Qed.

(** A constructor that only wraps one Pauli error of the backend. *)
Lemma pauli_wrapper_run noise_ops :
  let r := (error ← pauli_error aer_pauli_error noise_ops;
            let noise_model := NoiseModel_new in
            lift (attach noise_model error gate_names)) in
  calls r = [pauli_error_call noise_ops]
  ∧ outcome r
    = match aer_pauli_error noise_ops with
      | inl name => Raise (BackendError name)
      | inr error => attach NoiseModel_new error gate_names
      end.
Proof.
  unfold pauli_error, mbind, Run_bind. simpl.
  destruct (aer_pauli_error noise_ops); simpl; done.
Qed.

(** C5, as the code has it. [custom_pauli_channel] raises its
    [ValueError] if and only if [px + py + pz > 1]; it then has made no
    call to the backend and returns no noise model. Otherwise the one
    request it makes is for the Pauli error with probability [px] for X,
    [py] for Y, [pz] for Z and [1 - (px + py + pz)] for I; when the backend
    refuses, the call fails with the backend's own exception and nothing
    else is done, and an error the backend builds is handed to
    [add_all_qubit_quantum_error] of a fresh noise model, the call ending
    as that one does. *)
Theorem custom_pauli_channel_guard (px py pz : F) :
  let total := add (add px py) pz in
  let r := custom_pauli_channel add sub one gt aer_pauli_error num_qubits
             ideal px py pz in
  let noise_ops := [("X", px); ("Y", py); ("Z", pz); ("I", sub one total)] in
  ((∃ msg, outcome r = Raise (ValueError msg)) ↔ gt total one = true)
  ∧ (gt total one = true →
     r = {| calls := [];
            outcome := Raise (ValueError
                                "Sum of error probabilities must be <= 1") |})
  ∧ (gt total one = false →
     calls r = [pauli_error_call noise_ops]
     ∧ outcome r
       = match aer_pauli_error noise_ops with
         | inl name => Raise (BackendError name)
         | inr error => attach NoiseModel_new error gate_names
         end).
Proof.
  intros total r noise_ops. subst r.
  unfold custom_pauli_channel. fold total.
  destruct (gt total one) eqn:Hgt.
  - split_and!; [|done|done]. split; [done|]. intros _. by eexists.
  - destruct (pauli_wrapper_run noise_ops) as [Hcalls Hout].
    split_and!; [|done|by intros _].
    split; [|done]. intros [msg Hmsg]. exfalso.
    change (outcome
              (error ← pauli_error aer_pauli_error noise_ops;
               let noise_model := NoiseModel_new in
               lift (attach noise_model error gate_names))
            = Raise (ValueError msg)) in Hmsg.
    rewrite Hout in Hmsg.
    destruct (aer_pauli_error noise_ops) as [name|error]; [done|].
    destruct (attach_outcomes NoiseModel_new error gate_names)
      as [[nm Hnm]|Hnm]; rewrite Hnm in Hmsg; done.
Qed.

(** C6, as the code has it. The four one-parameter constructors check
    nothing themselves: for every [p], inside [0, 1] or not, the first and
    only request each makes to the backend is for the error with [p] (and
    [1 - p]) passed on unchanged; none of them ever raises [ValueError];
    when the backend refuses the value the call fails with the backend's
    own exception and nothing else is done; otherwise the error the
    backend built is handed to [add_all_qubit_quantum_error] of a fresh
    noise model, and the call ends as that one does. *)
Theorem single_parameter_channels_unchecked (p : F) :
  let flip name := [(name, p); ("I", sub one p)] in
  let wrapped (built : string + QuantumError) :=
    match built with
    | inl name => Raise (BackendError name)
    | inr error => attach NoiseModel_new error gate_names
    end in
  let depolarizing :=
    depolarizing_channel aer_depolarizing_error num_qubits ideal p in
  let bit_flip := bit_flip_channel sub one aer_pauli_error num_qubits ideal p in
  let phase_flip :=
    phase_flip_channel sub one aer_pauli_error num_qubits ideal p in
  let bit_phase_flip :=
    bit_phase_flip_channel sub one aer_pauli_error num_qubits ideal p in
  (calls depolarizing = [depolarizing_error_call p 1]
   ∧ outcome depolarizing = wrapped (aer_depolarizing_error p 1))
  ∧ (calls bit_flip = [pauli_error_call (flip "X")]
     ∧ outcome bit_flip = wrapped (aer_pauli_error (flip "X")))
  ∧ (calls phase_flip = [pauli_error_call (flip "Z")]
     ∧ outcome phase_flip = wrapped (aer_pauli_error (flip "Z")))
  ∧ (calls bit_phase_flip = [pauli_error_call (flip "Y")]
     ∧ outcome bit_phase_flip = wrapped (aer_pauli_error (flip "Y")))
  ∧ (∀ msg,
       outcome depolarizing ≠ Raise (ValueError msg)
       ∧ outcome bit_flip ≠ Raise (ValueError msg)
       ∧ outcome phase_flip ≠ Raise (ValueError msg)
       ∧ outcome bit_phase_flip ≠ Raise (ValueError msg)).
Proof.
  intros flip wrapped depolarizing bit_flip phase_flip bit_phase_flip.
  assert (∀ built msg, wrapped built ≠ Raise (ValueError msg)) as Hwrapped.
  { intros [name|error] msg; simpl; [done|].
    destruct (attach_outcomes NoiseModel_new error gate_names)
      as [[nm ->]| ->]; done. }
  assert (calls depolarizing = [depolarizing_error_call p 1]
          ∧ outcome depolarizing = wrapped (aer_depolarizing_error p 1))
    as Hdepol.
  { subst depolarizing.
    unfold depolarizing_channel, depolarizing_error, mbind, Run_bind. simpl.
    destruct (aer_depolarizing_error p 1); simpl; done. }
  pose proof (pauli_wrapper_run (flip "X")) as Hx.
  pose proof (pauli_wrapper_run (flip "Z")) as Hz.
  pose proof (pauli_wrapper_run (flip "Y")) as Hy.
  split_and!;
    [apply Hdepol|apply Hdepol|apply Hx|apply Hx|apply Hz|apply Hz
    |apply Hy|apply Hy|].
  intros msg. split_and!.
  - rewrite (proj2 Hdepol). apply Hwrapped.
  - destruct Hx as [_ Ho]. intros Hv.
    change (outcome bit_flip = wrapped (aer_pauli_error (flip "X"))) in Ho.
    rewrite Ho in Hv. by apply Hwrapped in Hv.
  - destruct Hz as [_ Ho]. intros Hv.
    change (outcome phase_flip = wrapped (aer_pauli_error (flip "Z"))) in Ho.
    rewrite Ho in Hv. by apply Hwrapped in Hv.
  - destruct Hy as [_ Ho]. intros Hv.
    change (outcome bit_phase_flip = wrapped (aer_pauli_error (flip "Y")))
      in Ho.
    rewrite Ho in Hv. by apply Hwrapped in Hv.
Qed.

End error_model_channels.

Section error_model_examples.
Import ErrorModels.

Lemma custom_pauli_channel_guard_witness :
  f_custom_pauli_channel (decimal 5 1) (decimal 5 1) (decimal 1 1)
  = {| calls := [];
       outcome := Raise (ValueError
                           "Sum of error probabilities must be <= 1") |}
  ∧ calls (f_custom_pauli_channel (decimal 5 2) (decimal 2 2) (decimal 3 2))
    = [pauli_error_call
         [("X", decimal 5 2); ("Y", decimal 2 2); ("Z", decimal 3 2);
          ("I", fsub (float_of_int 1)
                  (fadd (fadd (decimal 5 2) (decimal 2 2)) (decimal 3 2)))]].
Proof.
  split.
  - apply (custom_pauli_channel_guard fadd fsub (float_of_int 1) fgt
             f_pauli_error aer_num_qubits aer_ideal
             (decimal 5 1) (decimal 5 1) (decimal 1 1)).
    vm_compute. reflexivity.
  - apply (custom_pauli_channel_guard fadd fsub (float_of_int 1) fgt
             f_pauli_error aer_num_qubits aer_ideal
             (decimal 5 2) (decimal 2 2) (decimal 3 2)).
    vm_compute. reflexivity.
Defined.

(** C5, as stated, fails: for px = -0.5, py = pz = 0.25 the sum is 0, not
    above 1, so the guard passes; yet no channel is built, because the
    backend refuses the negative probability. *)
Lemma custom_pauli_channel_negative_counterexample :
  fgt (fadd (fadd (decimal (-5) 1) (decimal 25 2)) (decimal 25 2))
      (float_of_int 1) = false
  ∧ f_pauli_error [("X", decimal (-5) 1); ("Y", decimal 25 2);
                   ("Z", decimal 25 2);
                   ("I", fsub (float_of_int 1)
                           (fadd (fadd (decimal (-5) 1) (decimal 25 2))
                              (decimal 25 2)))]
    = inl "NoiseError"
  ∧ f_custom_pauli_channel (decimal (-5) 1) (decimal 25 2) (decimal 25 2)
    = {| calls := [pauli_error_call
                     [("X", decimal (-5) 1); ("Y", decimal 25 2);
                      ("Z", decimal 25 2);
                      ("I", fsub (float_of_int 1)
                              (fadd (fadd (decimal (-5) 1) (decimal 25 2))
                                 (decimal 25 2)))]];
         outcome := Raise (BackendError "NoiseError") |}.
Proof.
  split_and!; vm_compute; reflexivity.
Qed.

Lemma single_parameter_channels_unchecked_witness :
  calls (f_depolarizing_channel (decimal 12 1))
  = [depolarizing_error_call (decimal 12 1) 1]
  ∧ calls (f_phase_flip_channel (decimal 25 2))
    = [pauli_error_call [("Z", decimal 25 2);
                         ("I", fsub (float_of_int 1) (decimal 25 2))]]
  ∧ outcome (f_bit_phase_flip_channel (decimal (-25) 2))
    ≠ Raise (ValueError "Sum of error probabilities must be <= 1").
Proof.
  split_and!.
  - apply (single_parameter_channels_unchecked fsub (float_of_int 1)
             f_depolarizing_error f_pauli_error aer_num_qubits aer_ideal
             (decimal 12 1)).
  - apply (single_parameter_channels_unchecked fsub (float_of_int 1)
             f_depolarizing_error f_pauli_error aer_num_qubits aer_ideal
             (decimal 25 2)).
  - apply (single_parameter_channels_unchecked fsub (float_of_int 1)
             f_depolarizing_error f_pauli_error aer_num_qubits aer_ideal
             (decimal (-25) 2)).
Defined.

(** C6, as stated, fails: 1.2 lies outside [0, 1], yet
    [depolarizing_channel] hands it to the backend unchanged, and the
    backend accepts it and builds the error channel; the call fails only
    afterwards, when that error is attached, with the same [NoiseError]
    the in-range 0.5 ends in. For 2.0 the first thing [bit_flip_channel]
    does is request the channel with probabilities 2.0 and 1 - 2.0, the
    refusal being the backend's. *)
Lemma depolarizing_channel_out_of_range_counterexample :
  fgt (decimal 12 1) (float_of_int 1) = true
  ∧ f_depolarizing_error (decimal 12 1) 1 = inr (Depolarizing (decimal 12 1) 1)
  ∧ f_depolarizing_channel (decimal 12 1)
    = {| calls := [depolarizing_error_call (decimal 12 1) 1];
         outcome := add_all_qubit_quantum_error aer_num_qubits aer_ideal
                      (NoiseModel_new (QuantumError := AerError))
                      (Depolarizing (decimal 12 1) 1)
                      ["id"; "x"; "y"; "z"; "h"; "cx"] |}
  ∧ outcome (f_depolarizing_channel (decimal 12 1))
    = Raise (BackendError "NoiseError")
  ∧ outcome (f_depolarizing_channel (decimal 5 1))
    = Raise (BackendError "NoiseError")
  ∧ f_bit_flip_channel (float_of_int 2)
    = {| calls := [pauli_error_call
                     [("X", float_of_int 2);
                      ("I", fsub (float_of_int 1) (float_of_int 2))]];
         outcome := Raise (BackendError "NoiseError") |}.
Proof.
  split_and!; vm_compute; reflexivity.
Qed.

End error_model_examples.

Section bitflip_edges.
Import BitFlip.

Lemma getitem_in_range reg i :
  (- Z.of_nat (reg_size reg) ≤ i < Z.of_nat (reg_size reg))%Z →
  getitem reg i
  = Ok (reg_name reg, Z.to_nat (i mod Z.of_nat (reg_size reg))).
Proof.
  intros Hi. unfold getitem. simpl.
  destruct (decide (0 ≤ i)%Z) as [Hpos|Hneg].
  - rewrite bool_decide_eq_true_2 by lia. by rewrite Z.mod_small by lia.
  - rewrite bool_decide_eq_false_2 by lia. rewrite bool_decide_eq_true_2 by lia.
    do 3 f_equal.
    rewrite <-(Z.mod_add i 1) by lia. rewrite Z.mod_small by lia. lia.
Qed.

Lemma getitem_out_of_range reg i :
  ¬ (- Z.of_nat (reg_size reg) ≤ i < Z.of_nat (reg_size reg))%Z →
  getitem reg i = Raise IndexError.
Proof.
  intros Hi. unfold getitem. simpl.
  by rewrite !bool_decide_eq_false_2 by lia.
Qed.

(** X1. [create_bitflip_code] returns a circuit exactly when no error is
    requested or [-3 <= error_qubit < 3], and raises [IndexError]
    otherwise; without [apply_error] the value of [error_qubit] is never
    looked at. *)
Theorem create_bitflip_code_index_range (input_value : Z) (apply_error : bool)
    (error_qubit : Z) :
  ((∃ qc, create_bitflip_code input_value apply_error error_qubit
          = Ok (qc, syndrome_c, physical_c))
   ↔ apply_error = false ∨ (-3 ≤ error_qubit < 3)%Z)
  ∧ (apply_error = true → ¬ (-3 ≤ error_qubit < 3)%Z →
     create_bitflip_code input_value apply_error error_qubit
     = Raise IndexError)
  ∧ (apply_error = false →
     create_bitflip_code input_value apply_error error_qubit
     = create_bitflip_code input_value false 0).
Proof.
  unfold create_bitflip_code. destruct apply_error; simpl.
  - destruct (decide (-3 ≤ error_qubit < 3)%Z) as [Hin|Hout].
    + rewrite (getitem_in_range physical_q) by (simpl; lia). simpl.
      split_and!; [|done|done]. split; [by right|]. intros _. by eexists.
    + rewrite (getitem_out_of_range physical_q) by (simpl; lia). simpl.
      split_and!; [|done|done]. split; [by intros [qc ?]|].
      by intros [?|?].
  - split_and!; [|done|done]. split; [by left|]. intros _. by eexists.
Qed.

Lemma create_bitflip_code_index_range_witness :
  create_bitflip_code 1 true 3 = Raise IndexError
  ∧ create_bitflip_code 1 false 3 = create_bitflip_code 1 false 0
  ∧ ∃ qc, create_bitflip_code 0 true (-1) = Ok (qc, syndrome_c, physical_c).
Proof.
  split_and!.
  - apply (create_bitflip_code_index_range 1 true 3); [reflexivity|lia].
  - apply (create_bitflip_code_index_range 1 false 3). reflexivity.
  - apply (create_bitflip_code_index_range 0 true (-1)). right. lia.
Defined.

(** X2. A requested error adds exactly one [x] gate, on physical qubit
    [error_qubit mod 3] (so [-1] is qubit 2), and one barrier, between the
    encoding and the syndrome extraction; the rest of the instruction list
    is that of the error-free circuit for the same input. *)
Theorem create_bitflip_code_error_inserted (input_value error_qubit : Z)
    qc qc0 :
  create_bitflip_code input_value true error_qubit
  = Ok (qc, syndrome_c, physical_c) →
  create_bitflip_code input_value false 0 = Ok (qc0, syndrome_c, physical_c) →
  ∃ encoded extraction,
    data qc0 = encoded ++ extraction
    ∧ data qc
      = encoded
        ++ [ x (bit physical_q (Z.to_nat (error_qubit mod 3)));
             barrier (Some ("Error on qubit " +:+ pretty error_qubit)) ]
        ++ extraction
    ∧ acting_on (bit physical_q (Z.to_nat (error_qubit mod 3))) encoded
      = [cx (bit logical_q 0)
            (bit physical_q (Z.to_nat (error_qubit mod 3)))]
    ∧ qregs qc = qregs qc0 ∧ cregs qc = cregs qc0.
Proof.
  unfold create_bitflip_code.
  destruct (decide (-3 ≤ error_qubit < 3)%Z) as [Hin|Hout].
  - rewrite (getitem_in_range physical_q) by (simpl; lia).
    cbn -[pretty String.app Z.modulo].
    intros [= <-] [= <-]. cbn -[pretty String.app Z.modulo].
    exists ((if decide (input_value = 1%Z) then [x (bit logical_q 0)] else [])
            ++ [ barrier (Some "Input");
                 cx (bit logical_q 0) (bit physical_q 0);
                 cx (bit logical_q 0) (bit physical_q 1);
                 cx (bit logical_q 0) (bit physical_q 2);
                 barrier (Some "Encoded") ]),
           ([ cx (bit physical_q 0) (bit syndrome_q 0);
              cx (bit physical_q 1) (bit syndrome_q 0);
              cx (bit physical_q 1) (bit syndrome_q 1);
              cx (bit physical_q 2) (bit syndrome_q 1);
              barrier (Some "Syndrome Measured") ]
            ++ measure_register syndrome_q syndrome_c
            ++ measure_register physical_q physical_c).
    split_and!; [| | |done|done].
    + case_decide; reflexivity.
    + case_decide; reflexivity.
    + assert (error_qubit mod 3 = 0 ∨ error_qubit mod 3 = 1
              ∨ error_qubit mod 3 = 2)%Z as [-> | [-> | ->]]
        by (pose proof (Z.mod_pos_bound error_qubit 3); lia);
        case_decide; reflexivity.
  - rewrite (getitem_out_of_range physical_q) by (simpl; lia). done.
Qed.

Lemma create_bitflip_code_error_inserted_witness :
  ∃ qc qc0 encoded extraction,
    create_bitflip_code 1 true (-1) = Ok (qc, syndrome_c, physical_c)
    ∧ data qc0 = encoded ++ extraction
    ∧ data qc = encoded
                ++ [ x ("physical", 2%nat);
                     barrier (Some "Error on qubit -1") ]
                ++ extraction.
Proof.
  eexists _, _.
  destruct (create_bitflip_code_error_inserted 1 (-1) _ _ eq_refl eq_refl)
    as (encoded & extraction & Hdata0 & Hdata & _).
  exists encoded, extraction. split; [reflexivity|]. split; [exact Hdata0|].
  exact Hdata.
Defined.

End bitflip_edges.

Section bitflip_tally_edges.
Import BitFlip.

Lemma sum_fmap_ext {A} (f g : A → Z) (l : list A) :
  (∀ a, a ∈ l → f a = g a) → Py.sum (f <$> l) = Py.sum (g <$> l).
Proof.
  induction l as [|a l IH]; intros Hfg; [done|]. rewrite !fmap_cons. simpl.
  rewrite (Hfg a), IH; [done| |]; [intros b Hb; apply Hfg|]; set_solver.
Qed.

Lemma sum_fmap_add {A} (f g : A → Z) (l : list A) :
  (Py.sum (f <$> l) + Py.sum (g <$> l))%Z = Py.sum ((λ a, f a + g a)%Z <$> l).
Proof. induction l as [|a l IH]; [done|]. rewrite !fmap_cons. simpl. lia. Qed.

Lemma sum_fmap_zero {A} (l : list A) : Py.sum ((λ _, 0%Z) <$> l) = 0%Z.
Proof. induction l as [|a l IH]; [done|]. rewrite fmap_cons. simpl. lia. Qed.

Lemma sum_nonneg (l : list Z) : Forall (λ n, 0 ≤ n)%Z l → (0 ≤ Py.sum l)%Z.
Proof. induction 1; simpl; lia. Qed.

Lemma majority_vote_bit bitstring :
  majority_vote bitstring = 0%Z ∨ majority_vote bitstring = 1%Z.
Proof. unfold majority_vote. case_decide; auto. Qed.

Lemma tally_shares_total (counts : gmap string Z) (input_value : Z) :
  ((tally counts input_value).1 + (tally counts input_value).2)%Z
  = Py.sum (map_to_list counts).*2
  ∧ (positive_counts counts →
     (0 ≤ (tally counts input_value).1)%Z
     ∧ (0 ≤ (tally counts input_value).2)%Z).
Proof.
  rewrite tally_sums. simpl. split.
  - rewrite sum_fmap_add. apply sum_fmap_ext. intros [k n] _.
    unfold success_share, failure_share. simpl. case_decide; lia.
  - intros Hpos. split; apply sum_nonneg, Forall_fmap, Forall_forall;
      intros [k n] Hin%elem_of_map_to_list; specialize (Hpos k n Hin);
      unfold success_share, failure_share; simpl in *; case_decide; lia.
Qed.

(** X3. Every shot of a histogram is counted once, as a success or as a
    failure: the two counters add up to the number of shots. With positive
    counts neither counter is negative. An expected value other than 0 or
    1 can never be matched, so every shot is then a failure. *)
Theorem tally_conserves_shots (counts : gmap string Z) (input_value : Z) :
  ((tally counts input_value).1 + (tally counts input_value).2)%Z
  = Py.sum (map_to_list counts).*2
  ∧ (positive_counts counts →
     (0 ≤ (tally counts input_value).1)%Z
     ∧ (0 ≤ (tally counts input_value).2)%Z)
  ∧ (input_value ≠ 0%Z → input_value ≠ 1%Z →
     tally counts input_value = (0%Z, Py.sum (map_to_list counts).*2)).
Proof.
  destruct (tally_shares_total counts input_value) as [Hsum Hpos].
  split_and!; [done|done|].
  rewrite tally_sums. intros H0 H1. f_equal.
  - rewrite (sum_fmap_ext _ (λ _, 0%Z)).
    + apply sum_fmap_zero.
    + intros [k n] _. unfold success_share. simpl.
      destruct (majority_vote_bit k); case_decide; congruence.
  - apply sum_fmap_ext. intros [k n] _. unfold failure_share. simpl.
    destruct (majority_vote_bit k); case_decide; congruence.
Qed.

Lemma tally_conserves_shots_witness :
  tally {[ "00 000" := 990%Z; "01 110" := 34%Z ]} 2 = (0%Z, 1024%Z)
  ∧ (0 ≤ (tally {[ "00 000" := 990%Z; "01 110" := 34%Z ]} 1).1)%Z.
Proof.
  destruct (tally_conserves_shots {[ "00 000" := 990%Z; "01 110" := 34%Z ]} 2)
    as (_ & _ & Hbad).
  destruct (tally_conserves_shots {[ "00 000" := 990%Z; "01 110" := 34%Z ]} 1)
    as (_ & Hpos & _).
  split.
  - rewrite Hbad; [reflexivity|lia|lia].
  - apply Hpos. apply map_Forall_to_list. vm_compute. repeat constructor.
Defined.

Lemma analyze_loop_zero_total counts input_value :
  counts ≠ ∅ → Py.sum (map_to_list counts).*2 = 0%Z →
  analyze_loop counts input_value = Raise ZeroDivisionError.
Proof.
  intros Hne Hsum. unfold analyze_loop. rewrite Hsum.
  destruct (sorted_items counts) as [|item items] eqn:Hitems.
  - exfalso. apply Hne. apply map_to_list_empty_iff.
    apply Permutation_nil_r. rewrite <-Hitems. unfold sorted_items.
    by rewrite merge_sort_Permutation.
  - cbn [foldl]. cbn [mbind Result_bind].
    rewrite truediv_by_zero.
    cbn [mbind Result_bind].
    apply (foldl_raised
             (λ acc item, percentage ← truediv item.2 0;
                          mret (tally_step input_value acc item))).
Qed.

(** X4. What [analyze_results] returns: for an empty histogram the int 0,
    without a division; for a histogram of positive counts the float
    [(success / total) * 100], each operation rounded to the nearest
    float, which is finite and lies between 0 and 100, and is exactly
    100.0 when no shot failed and 0.0 when none succeeded; and for a
    histogram that is not empty but whose counts sum to zero it raises
    [ZeroDivisionError] while computing a printed percentage. *)
Theorem analyze_results_rate (results : Results) (input_value : Z) :
  (res_counts results = ∅ →
   analyze_results results input_value = Ok (PyInt 0))
  ∧ (res_counts results ≠ ∅ → positive_counts (res_counts results) →
     ∃ ratio value,
       truediv (tally (res_counts results) input_value).1
               (Py.sum (map_to_list (res_counts results)).*2) = Ok ratio
       ∧ analyze_results results input_value
         = Ok (PyFloat (mul_int ratio 100))
       ∧ float_value (mul_int ratio 100) = Some value
       ∧ (0 <= value)%Q ∧ (value <= 100)%Q
       ∧ ((tally (res_counts results) input_value).2 = 0%Z →
          mul_int ratio 100 = float_of_int 100)
       ∧ ((tally (res_counts results) input_value).1 = 0%Z →
          mul_int ratio 100 = float_of_int 0))
  ∧ (res_counts results ≠ ∅ →
     Py.sum (map_to_list (res_counts results)).*2 = 0%Z →
     analyze_results results input_value = Raise ZeroDivisionError).
Proof.
  unfold analyze_results. split_and!.
  - intros ->. reflexivity.
  - intros Hne Hpos.
    pose proof (positive_counts_sum _ Hpos Hne) as Htotal.
    destruct (tally_shares_total (res_counts results) input_value)
      as (Hsum & Hsf). destruct (Hsf Hpos) as [Hs Hf].
    rewrite analyze_loop_positive by done.
    destruct (tally (res_counts results) input_value) as [s f] eqn:Htally.
    simpl in *. cbn [mbind Result_bind]. rewrite decide_True by lia.
    rewrite <-Hsum.
    destruct (rate_of_part s (s + f)%Z) as
      (ratio & value & Hratio & Hvalue & Hlo & Hhi & Hall & Hnone);
      [lia|lia|].
    exists ratio, value. rewrite Hratio.
    split_and!; [done|done|done|done|done| |].
    + intros ->. apply Hall. lia.
    + intros ->. by apply Hnone.
  - intros Hne Hsum. by rewrite analyze_loop_zero_total.
Qed.

Lemma analyze_results_rate_witness :
  analyze_results {| res_circuit := {| qregs := []; cregs := []; data := [] |};
                     res_counts := {[ "000 00" := 0%Z ]};
                     res_syndrome_c := syndrome_c;
                     res_physical_c := physical_c |} 0
  = Raise ZeroDivisionError
  ∧ ∃ rate value,
      analyze_results {| res_circuit := {| qregs := []; cregs := [];
                                           data := [] |};
                         res_counts := {[ "000 00" := 990%Z;
                                          "110 11" := 34%Z ]};
                         res_syndrome_c := syndrome_c;
                         res_physical_c := physical_c |} 0
      = Ok (PyFloat rate)
      ∧ float_value rate = Some value
      ∧ (0 <= value)%Q ∧ (value <= 100)%Q.
Proof.
  split.
  - destruct (analyze_results_rate
                {| res_circuit := {| qregs := []; cregs := []; data := [] |};
                   res_counts := {[ "000 00" := 0%Z ]};
                   res_syndrome_c := syndrome_c;
                   res_physical_c := physical_c |} 0)
      as (_ & _ & Hzero).
    apply Hzero; [|vm_compute; reflexivity].
    intros Hempty.
    apply (f_equal (λ m : gmap string Z, m !! "000 00")) in Hempty.
    vm_compute in Hempty. discriminate.
  - destruct (analyze_results_rate
                {| res_circuit := {| qregs := []; cregs := []; data := [] |};
                   res_counts := {[ "000 00" := 990%Z; "110 11" := 34%Z ]};
                   res_syndrome_c := syndrome_c;
                   res_physical_c := physical_c |} 0)
      as (_ & Hrate & _).
    destruct Hrate as (ratio & value & _ & Hok & Hvalue & Hlo & Hhi & _).
    + intros Hempty.
      apply (f_equal (λ m : gmap string Z, m !! "000 00")) in Hempty.
      vm_compute in Hempty. discriminate.
    + apply map_Forall_to_list. vm_compute. repeat constructor.
    + exists (mul_int ratio 100), value.
      split; [exact Hok|]. split; [exact Hvalue|]. split; [exact Hlo|exact Hhi].
Defined.

End bitflip_tally_edges.

Section bitflip_vote.
Import BitFlip.

Lemma split_bitstring key :
  bitstring key = true → split key = if decide (key = "") then [] else [key].
Proof.
  intros Hkey. unfold split. rewrite <-(string_app_nil_r key) at 1.
  by rewrite split_go_bitstring.
Qed.

Lemma count_bitstring bs :
  bitstring bs = true →
  (count "0" bs + count "1" bs)%Z = Z.of_nat (String.length bs).
Proof.
  induction bs as [|c bs IH]; [done|]. simpl.
  intros [Hc Hbs]%andb_prop. specialize (IH Hbs).
  apply bool_decide_eq_true in Hc as [-> | ->];
    repeat case_decide; try done; lia.
Qed.

(** X5. On a key ['<syndrome bits> <physical bits>'] the majority vote
    looks at the part after the space only: it is 1 exactly when that part
    has more ['1'] than ['0'] characters, whatever the syndrome bits are,
    which for three physical bits means at least two ones. A key without
    any space is voted on by its last three characters. *)
Theorem majority_vote_reads_physical_bits (syndrome_bits syndrome_bits'
    physical_bits : string) :
  bitstring syndrome_bits = true → bitstring syndrome_bits' = true →
  bitstring physical_bits = true →
  syndrome_bits ≠ "" → syndrome_bits' ≠ "" → physical_bits ≠ "" →
  majority_vote (syndrome_bits +:+ " " +:+ physical_bits)
  = (if decide (count "1" physical_bits > count "0" physical_bits)%Z
     then 1%Z else 0%Z)
  ∧ majority_vote (syndrome_bits +:+ " " +:+ physical_bits)
    = majority_vote (syndrome_bits' +:+ " " +:+ physical_bits)
  ∧ (String.length physical_bits = 3%nat →
     (majority_vote (syndrome_bits +:+ " " +:+ physical_bits) = 1%Z
      ↔ (2 ≤ count "1" physical_bits)%Z))
  ∧ majority_vote physical_bits
    = (if decide (count "1" (suffix 3 physical_bits)
                  > count "0" (suffix 3 physical_bits))%Z
       then 1%Z else 0%Z).
Proof.
  intros Hs Hs' Hp Hns Hns' Hnp.
  assert (∀ s, bitstring s = true → s ≠ "" →
            majority_vote (s +:+ " " +:+ physical_bits)
            = (if decide (count "1" physical_bits > count "0" physical_bits)%Z
               then 1%Z else 0%Z)) as Hvote.
  { intros s Hbits Hne. unfold majority_vote.
    by rewrite split_two_registers. }
  split_and!.
  - by apply Hvote.
  - by rewrite (Hvote syndrome_bits), (Hvote syndrome_bits') by done.
  - intros Hlen. rewrite Hvote by done.
    pose proof (count_bitstring physical_bits Hp) as Hcount.
    rewrite Hlen in Hcount. case_decide; split; intros; try done; lia.
  - unfold majority_vote. rewrite split_bitstring by done.
    rewrite (decide_False (P := physical_bits = "")) by done. reflexivity.
Qed.

Lemma majority_vote_reads_physical_bits_witness :
  majority_vote "10 011" = 1%Z
  ∧ majority_vote "10 011" = majority_vote "00 011"
  ∧ majority_vote "11000" = 0%Z.
Proof.
  destruct (majority_vote_reads_physical_bits "10" "00" "011")
    as (H1 & H2 & _ & _);
    [reflexivity|reflexivity|reflexivity
    |discriminate|discriminate|discriminate|].
  destruct (majority_vote_reads_physical_bits "10" "00" "11000")
    as (_ & _ & _ & H4);
    [reflexivity|reflexivity|reflexivity
    |discriminate|discriminate|discriminate|].
  split; [exact H1|]. split; [exact H2|exact H4].
Defined.

End bitflip_vote.

Section five_qubit_decoder_image.
Import FiveQubit.

(** X6. The corrections [decode_five_qubit_syndrome] can report are
    exactly twelve of the fifteen single-qubit errors: an X error on qubit
    2 or 3 and a Y error on qubit 0 are never reported, whatever the
    syndrome, because their table keys are written again further down. *)
Theorem decode_five_qubit_reachable (q : nat) (t : string) :
  ((∃ s, decode_five_qubit_syndrome s = (Some q, Some t))
   ↔ (q, t) ∈ [ (0, "X"); (1, "X"); (4, "X");
                (0, "Z"); (1, "Z"); (2, "Z"); (3, "Z"); (4, "Z");
                (1, "Y"); (2, "Y"); (3, "Y"); (4, "Y") ]%nat)
  ∧ (∀ s, decode_five_qubit_syndrome s ≠ (Some 2, Some "X")%nat
          ∧ decode_five_qubit_syndrome s ≠ (Some 3, Some "X")%nat
          ∧ decode_five_qubit_syndrome s ≠ (Some 0, Some "Y")%nat).
Proof.
  assert (∀ s q' t', decode_five_qubit_syndrome s = (Some q', Some t') →
            (q', t') ∈ [ (0, "X"); (1, "X"); (4, "X");
                         (0, "Z"); (1, "Z"); (2, "Z"); (3, "Z"); (4, "Z");
                         (1, "Y"); (2, "Y"); (3, "Y"); (4, "Y") ]%nat)
    as Himage.
  { intros s q' t' Hs.
    destruct (decide (s ∈ syndrome_table_entries.*1)) as [Hin|Hout].
    - apply five_qubit_keys_cases in Hin.
      repeat (apply elem_of_cons in Hin as [->|Hin];
              [vm_compute in Hs; try discriminate Hs;
               injection Hs as <- <-;
               apply list_elem_of_In; simpl; tauto|]).
      by apply elem_of_nil in Hin.
    - rewrite (decode_five_qubit_unlisted _ Hout) in Hs. discriminate Hs. }
  split.
  - split; [intros [s Hs]; by apply (Himage s)|].
    intros Hin.
    repeat (apply elem_of_cons in Hin as [[= -> ->]|Hin]).
    + by exists "1011". + by exists "0111". + by exists "0110".
    + by exists "0101". + by exists "1010". + by exists "0011".
    + by exists "1100". + by exists "1001".
    + by exists "1101". + by exists "1110". + by exists "0010".
    + by exists "1111".
    + by apply elem_of_nil in Hin.
  - intros s. split_and!; intros Hs; apply Himage in Hs;
      apply list_elem_of_In in Hs; simpl in Hs;
      repeat (destruct Hs as [Hs|Hs]; [discriminate Hs|]); done.
Qed.

Lemma decode_five_qubit_reachable_witness :
  (∃ s, decode_five_qubit_syndrome s = (Some 3, Some "Y")%nat)
  ∧ decode_five_qubit_syndrome "1110" ≠ (Some 3, Some "X")%nat.
Proof.
  destruct (decode_five_qubit_reachable 3 "Y") as [[_ Hex] Hnever].
  split.
  - apply Hex. apply list_elem_of_In. simpl. tauto.
  - apply (Hnever "1110").
Defined.

End five_qubit_decoder_image.

Section syndrome_statistics.
Context {V : Type}.
Implicit Types (g : string * V → Z) (m : gmap string V).

Lemma sum_entries_insert g m k v :
  m !! k = None →
  Py.sum (g <$> map_to_list (<[k := v]> m))
  = (g (k, v) + Py.sum (g <$> map_to_list m))%Z.
Proof.
  intros Hk. rewrite (sum_Permutation _ (g <$> (k, v) :: map_to_list m)); [done|].
  apply fmap_Permutation. by apply map_to_list_insert.
Qed.

Lemma sum_entries_delete g m k v :
  m !! k = Some v →
  Py.sum (g <$> map_to_list m)
  = (g (k, v) + Py.sum (g <$> map_to_list (delete k m)))%Z.
Proof.
  intros Hk. rewrite <-(sum_entries_insert g (delete k m) k v).
  - by rewrite insert_delete_id.
  - apply lookup_delete_eq.
Qed.

(** Adding [n] to the count kept under key [k], with a fresh entry [v0]
    first when the key is new: what it does to the sum of all counts. *)
Lemma sum_entries_bump (count_of : V → Z) (bump : V → V) m k v0 n :
  count_of v0 = 0%Z →
  (∀ v, count_of (bump v) = (count_of v + n)%Z) →
  Py.sum ((λ kv, count_of kv.2) <$>
            map_to_list (alter bump k (if decide (m !! k = None)
                                       then <[k := v0]> m else m)))
  = (Py.sum ((λ kv, count_of kv.2) <$> map_to_list m) + n)%Z.
Proof.
  intros Hv0 Hbump. destruct (m !! k) as [v|] eqn:Hk.
  - rewrite decide_False by done.
    rewrite <-(insert_delete_id m k v Hk) at 1.
    rewrite alter_insert_eq, sum_entries_insert by apply lookup_delete_eq.
    rewrite (sum_entries_delete _ m k v Hk). simpl. rewrite Hbump. lia.
  - rewrite decide_True by done.
    rewrite alter_insert_eq, sum_entries_insert by done.
    simpl. rewrite Hbump, Hv0. lia.
Qed.

End syndrome_statistics.

Section five_qubit_statistics.
Import FiveQubit.

Local Abbreviation bump n :=
  (λ st, {| stat_count := stat_count st + n; stat_error := stat_error st |}).
Local Abbreviation count_at stats s := (default 0%Z (stat_count <$> stats !! s)).
Local Abbreviation stats_total stats :=
  (Py.sum ((λ kv, stat_count kv.2) <$> map_to_list stats)).

Lemma analyze_step_stats acc item :
  let s := (parse_measurement item.1).2 in
  (analyze_step acc item).2
  = alter (bump item.2) s
      (if decide (acc.2 !! s = None)
       then <[s := {| stat_count := 0;
                      stat_error := decode_five_qubit_syndrome s |}]> acc.2
       else acc.2).
Proof.
  destruct acc as [successful stats], item as [measurement n].
  unfold analyze_step. cbn [fst snd].
  destruct (parse_measurement measurement) as [p s]. cbn [fst snd].
  destruct (decode_five_qubit_syndrome s) as [q t]. reflexivity.
Qed.

Lemma analyze_step_count_at acc item s :
  count_at (analyze_step acc item).2 s
  = (count_at acc.2 s + syndrome_share s item)%Z.
Proof.
  rewrite analyze_step_stats. unfold syndrome_share. simpl.
  set (s0 := (parse_measurement item.1).2).
  destruct (decide (s0 = s)) as [->|Hne].
  - rewrite lookup_alter_eq.
    destruct (decide (acc.2 !! s = None)) as [Hnone|Hsome].
    + rewrite lookup_insert_eq, Hnone. simpl. lia.
    + destruct (acc.2 !! s); [simpl; lia|done].
  - rewrite lookup_alter_ne by done.
    case_decide; [rewrite lookup_insert_ne by done|]; lia.
Qed.

Lemma analyze_step_errors acc item :
  (∀ s st, acc.2 !! s = Some st →
           stat_error st = decode_five_qubit_syndrome s) →
  ∀ s st, (analyze_step acc item).2 !! s = Some st →
          stat_error st = decode_five_qubit_syndrome s.
Proof.
  intros Hacc s st. rewrite analyze_step_stats. simpl.
  set (s0 := (parse_measurement item.1).2).
  destruct (decide (s0 = s)) as [->|Hne].
  - rewrite lookup_alter_eq.
    destruct (decide (acc.2 !! s = None)) as [Hnone|Hsome].
    + rewrite lookup_insert_eq. simpl. by intros [= <-].
    + destruct (acc.2 !! s) as [st0|] eqn:Hst0; [|done]. simpl.
      intros [= <-]. simpl. by apply Hacc.
  - rewrite lookup_alter_ne by done.
    case_decide; [rewrite lookup_insert_ne by done|]; apply Hacc.
Qed.

Lemma analyze_fold_stats acc items :
  (∀ s, count_at (foldl analyze_step acc items).2 s
        = (count_at acc.2 s + Py.sum (syndrome_share s <$> items))%Z)
  ∧ stats_total (foldl analyze_step acc items).2
    = (stats_total acc.2 + Py.sum items.*2)%Z
  ∧ ((∀ s st, acc.2 !! s = Some st →
              stat_error st = decode_five_qubit_syndrome s) →
     ∀ s st, (foldl analyze_step acc items).2 !! s = Some st →
             stat_error st = decode_five_qubit_syndrome s).
Proof.
  revert acc. induction items as [|item items IH]; intros acc.
  - simpl. split_and!; [intros; lia|lia|done].
  - change (foldl analyze_step acc (item :: items))
      with (foldl analyze_step (analyze_step acc item) items).
    destruct (IH (analyze_step acc item)) as (Hcount & Htotal & Herr).
    split_and!.
    + intros s. rewrite Hcount, analyze_step_count_at, fmap_cons. simpl. lia.
    + rewrite Htotal, analyze_step_stats, fmap_cons.
      rewrite (sum_entries_bump stat_count _ _ _ _ item.2) by done. simpl. lia.
    + intros Hacc. apply Herr. by apply analyze_step_errors.
Qed.

Lemma analyze_step_keys acc item s :
  is_Some ((analyze_step acc item).2 !! s)
  ↔ is_Some (acc.2 !! s) ∨ (parse_measurement item.1).2 = s.
Proof.
  rewrite analyze_step_stats. simpl.
  set (s0 := (parse_measurement item.1).2).
  destruct (decide (s0 = s)) as [->|Hne].
  - rewrite lookup_alter_eq.
    destruct (decide (acc.2 !! s = None)) as [Hnone|Hsome].
    + rewrite lookup_insert_eq. simpl. split; [by right|by eexists].
    + destruct (acc.2 !! s) as [st0|]; [|done]. simpl.
      split; [by left|by eexists].
  - rewrite lookup_alter_ne by done.
    case_decide; [rewrite lookup_insert_ne by done|]; tauto.
Qed.

Lemma analyze_fold_keys acc items s :
  is_Some ((foldl analyze_step acc items).2 !! s)
  ↔ is_Some (acc.2 !! s)
    ∨ ∃ item, item ∈ items ∧ (parse_measurement item.1).2 = s.
Proof.
  revert acc. induction items as [|item items IH]; intros acc.
  - simpl. split; [by left|]. intros [H|(item & Hin & _)]; [done|].
    by apply elem_of_nil in Hin.
  - change (foldl analyze_step acc (item :: items))
      with (foldl analyze_step (analyze_step acc item) items).
    rewrite IH, analyze_step_keys. split.
    + intros [[H|H]|(item' & Hin & H)]; [by left|right|right].
      * exists item. split; [apply elem_of_cons; by left|done].
      * exists item'. split; [apply elem_of_cons; by right|done].
    + intros [H|(item' & Hin & H)]; [left; by left|].
      apply elem_of_cons in Hin as [->|Hin]; [left; by right|].
      right. by exists item'.
Qed.

(** X7. After the loop of [analyze_five_qubit_results], [syndrome_stats]
    has a record for a syndrome exactly when some histogram entry has
    that syndrome, and none otherwise; the record holds the total count
    of the entries with that syndrome and the decoder's answer for it,
    and the recorded counts add up to the number of shots. *)
Theorem five_qubit_syndrome_stats (counts : gmap string Z) :
  (∀ s, is_Some ((analyze_loop counts).2 !! s)
        ↔ ∃ measurement count,
            counts !! measurement = Some count
            ∧ (parse_measurement measurement).2 = s)
  ∧ (∀ s, (¬ ∃ measurement count,
               counts !! measurement = Some count
               ∧ (parse_measurement measurement).2 = s) →
          (analyze_loop counts).2 !! s = None)
  ∧ (∀ s st, (analyze_loop counts).2 !! s = Some st →
             stat_count st = Py.sum (syndrome_share s <$> map_to_list counts))
  ∧ (∀ s, default 0%Z (stat_count <$> (analyze_loop counts).2 !! s)
        = Py.sum (syndrome_share s <$> map_to_list counts))
  ∧ (∀ s st, (analyze_loop counts).2 !! s = Some st →
             stat_error st = decode_five_qubit_syndrome s)
  ∧ Py.sum ((λ kv, stat_count kv.2) <$> map_to_list (analyze_loop counts).2)
    = Py.sum (map_to_list counts).*2.
Proof.
  unfold analyze_loop.
  destruct (analyze_fold_stats (0%Z, ∅) (sorted_by_count_desc counts))
    as (Hcount & Htotal & Herr).
  assert (sorted_by_count_desc counts ≡ₚ map_to_list counts) as Hperm
    by apply merge_sort_Permutation.
  assert (∀ s, default 0%Z
                 (stat_count <$>
                    (foldl analyze_step (0%Z, ∅)
                       (sorted_by_count_desc counts)).2 !! s)
               = Py.sum (syndrome_share s <$> map_to_list counts)) as Hshare.
  { intros s. rewrite Hcount. simpl. rewrite lookup_empty. simpl.
    apply sum_Permutation, fmap_Permutation, Hperm. }
  assert (∀ s, is_Some ((foldl analyze_step (0%Z, ∅)
                           (sorted_by_count_desc counts)).2 !! s)
               ↔ ∃ measurement count,
                   counts !! measurement = Some count
                   ∧ (parse_measurement measurement).2 = s) as Hkeys.
  { intros s. rewrite analyze_fold_keys. simpl. rewrite lookup_empty. split.
    - intros [[? [=]]|([k n] & Hin & Hs)]. exists k, n. split; [|done].
      apply elem_of_map_to_list. by rewrite <-Hperm.
    - intros (k & n & Hk & Hs). right. exists (k, n). split; [|done].
      rewrite Hperm. by apply elem_of_map_to_list. }
  split_and!.
  - exact Hkeys.
  - intros s Hnone. apply eq_None_not_Some. by rewrite Hkeys.
  - intros s st Hst. specialize (Hshare s). by rewrite Hst in Hshare.
  - exact Hshare.
  - apply Herr. simpl. intros s st. by rewrite lookup_empty.
  - rewrite Htotal. simpl. rewrite map_to_list_empty. simpl.
    apply sum_Permutation, fmap_Permutation, Hperm.
Qed.

Lemma five_qubit_syndrome_stats_witness :
  ∃ st, (analyze_loop {[ "00000 0000" := 1000%Z; "10110 0000" := 7%Z;
                         "00001 1011" := 17%Z ]}).2 !! "1011" = Some st
        ∧ stat_error st = (Some 0, Some "X")%nat.
Proof.
  destruct (five_qubit_syndrome_stats
              {[ "00000 0000" := 1000%Z; "10110 0000" := 7%Z;
                 "00001 1011" := 17%Z ]}) as (_ & _ & _ & _ & Herr & _).
  eexists. split; [vm_compute; reflexivity|].
  rewrite (Herr "1011" {| stat_count := 17; stat_error := (Some 0, Some "X")%nat |});
    [reflexivity|vm_compute; reflexivity].
Defined.

Lemma sum_fmap_le {A} (f g : A → Z) (l : list A) :
  (∀ a, a ∈ l → (f a ≤ g a)%Z) → (Py.sum (f <$> l) ≤ Py.sum (g <$> l))%Z.
Proof.
  induction l as [|a l IH]; intros Hfg; [done|]. rewrite !fmap_cons. simpl.
  assert (f a ≤ g a)%Z by (apply Hfg; set_solver).
  assert (Py.sum (f <$> l) ≤ Py.sum (g <$> l))%Z
    by (apply IH; intros b Hb; apply Hfg; set_solver).
  lia.
Qed.

Lemma five_qubit_successful_bounds counts :
  positive_counts counts →
  (0 ≤ (analyze_loop counts).1 ≤ Py.sum (map_to_list counts).*2)%Z.
Proof.
  intros Hpos. unfold analyze_loop, sorted_by_count_desc.
  rewrite (proj1 (analyze_fold _ _)). simpl.
  rewrite (sum_Permutation _ (zero_syndrome_share <$> map_to_list counts))
    by apply fmap_Permutation, merge_sort_Permutation.
  assert (∀ item, item ∈ map_to_list counts → (0 < item.2)%Z) as Hitems.
  { intros [k n] Hin%elem_of_map_to_list. by apply (Hpos k n). }
  split.
  - apply sum_nonneg, Forall_fmap, Forall_forall. intros item Hin.
    specialize (Hitems item Hin). unfold zero_syndrome_share. simpl.
    case_decide; lia.
  - apply sum_fmap_le. intros item Hin. specialize (Hitems item Hin).
    unfold zero_syndrome_share. case_decide; lia.
Qed.

Lemma five_qubit_reported_counts_bounds counts :
  positive_counts counts →
  Forall (λ count, 0 ≤ count ≤ Py.sum (map_to_list counts).*2)%Z
    (reported_counts (analyze_loop counts).2).
Proof.
  intros Hpos. unfold reported_counts, sorted_desc.
  apply Forall_fmap, Forall_forall. intros [s st] Hin. simpl.
  rewrite merge_sort_Permutation in Hin. apply elem_of_map_to_list in Hin.
  assert (stat_count st = Py.sum (syndrome_share s <$> map_to_list counts))
    as ->.
  { unfold analyze_loop in Hin.
    destruct (analyze_fold_stats (0%Z, ∅) (sorted_by_count_desc counts))
      as (Hcount & _ & _).
    specialize (Hcount s). rewrite Hin in Hcount. simpl in Hcount.
    rewrite lookup_empty in Hcount. simpl in Hcount. rewrite Hcount.
    apply sum_Permutation, fmap_Permutation, merge_sort_Permutation. }
  assert (∀ item, item ∈ map_to_list counts → (0 < item.2)%Z) as Hitems.
  { intros [k n] Hel%elem_of_map_to_list. by apply (Hpos k n). }
  split.
  - apply sum_nonneg, Forall_fmap, Forall_forall. intros item Hel.
    specialize (Hitems item Hel). unfold syndrome_share. simpl.
    case_decide; lia.
  - apply sum_fmap_le. intros item Hel. specialize (Hitems item Hel).
    unfold syndrome_share. case_decide; lia.
Qed.

(** X8. [analyze_five_qubit_results] raises [ZeroDivisionError] whenever
    the counts sum to zero, the empty histogram included; on a non-empty
    histogram of positive counts both loops complete and it returns the
    float [(successful / total_shots) * 100], each operation rounded to
    the nearest float, which is finite and lies between 0 and 100. *)
Theorem analyze_five_qubit_results_rate (counts : gmap string Z)
    (input_value : Z) :
  (Py.sum (map_to_list counts).*2 = 0%Z →
   analyze_five_qubit_results counts input_value = Raise ZeroDivisionError)
  ∧ analyze_five_qubit_results ∅ input_value = Raise ZeroDivisionError
  ∧ (counts ≠ ∅ → positive_counts counts →
     ∃ ratio value,
       truediv (analyze_loop counts).1 (Py.sum (map_to_list counts).*2)
       = Ok ratio
       ∧ analyze_five_qubit_results counts input_value
         = Ok (mul_int ratio 100)
       ∧ float_value (mul_int ratio 100) = Some value
       ∧ (0 <= value)%Q ∧ (value <= 100)%Q).
Proof.
  split_and!.
  - intros Hsum. unfold analyze_five_qubit_results. rewrite Hsum.
    destruct (analyze_loop counts) as [successful stats].
    apply report_then_divide_by_zero.
  - reflexivity.
  - intros Hne Hpos. unfold analyze_five_qubit_results.
    pose proof (positive_counts_sum _ Hpos Hne) as Htotal.
    pose proof (five_qubit_successful_bounds counts Hpos) as Hbounds.
    pose proof (five_qubit_reported_counts_bounds counts Hpos) as Hreport.
    destruct (analyze_loop counts) as [successful stats].
    cbn [fst snd] in *.
    rewrite report_percentages_ok by done. cbn [mbind Result_bind].
    destruct (rate_of_part successful (Py.sum (map_to_list counts).*2))
      as (ratio & value & Hratio & Hvalue & Hlo & Hhi & _); [done|done|].
    exists ratio, value. rewrite Hratio. done.
Qed.

Lemma analyze_five_qubit_results_rate_witness :
  analyze_five_qubit_results {[ "00000 0000" := 0%Z ]} 0
  = Raise ZeroDivisionError
  ∧ ∃ rate value,
      analyze_five_qubit_results
        {[ "00000 0000" := 1000%Z; "00001 1011" := 24%Z ]} 0 = Ok rate
      ∧ float_value rate = Some value
      ∧ (0 <= value)%Q ∧ (value <= 100)%Q.
Proof.
  destruct (analyze_five_qubit_results_rate {[ "00000 0000" := 0%Z ]} 0)
    as (Hzero & _ & _).
  destruct (analyze_five_qubit_results_rate
              {[ "00000 0000" := 1000%Z; "00001 1011" := 24%Z ]} 0)
    as (_ & _ & Hrate).
  split.
  - apply Hzero. vm_compute. reflexivity.
  - destruct Hrate as (ratio & value & _ & Hok & Hvalue & Hlo & Hhi).
    + intros Hempty.
      apply (f_equal (λ m : gmap string Z, m !! "00000 0000")) in Hempty.
      vm_compute in Hempty. discriminate.
    + apply map_Forall_to_list. vm_compute. repeat constructor.
    + exists (mul_int ratio 100), value.
      split; [exact Hok|]. split; [exact Hvalue|]. split; [exact Hlo|exact Hhi].
Defined.

End five_qubit_statistics.

Section error_injection.

Lemma error_gate_known reg error_qubit error_type :
  error_type ∈ ["X"; "Z"; "Y"] →
  error_gate reg error_qubit error_type
  = (q ← getitem reg error_qubit; mret [pauli_gate error_type q]).
Proof.
  intros Hin. unfold error_gate, pauli_gate.
  repeat (apply elem_of_cons in Hin as [->|Hin]); try done.
  by apply elem_of_nil in Hin.
Qed.

Lemma error_gate_unknown reg error_qubit error_type :
  error_type ∉ ["X"; "Z"; "Y"] → error_gate reg error_qubit error_type = Ok [].
Proof.
  intros Hout. unfold error_gate.
  rewrite !decide_False; [done|..]; intros ->; apply Hout; set_solver.
Qed.

(** The instructions the [ERROR INJECTION] block appends. *)
Lemma error_injection_cases reg (apply_error : bool) error_qubit error_type :
  let n := Z.of_nat (reg_size reg) in
  (if apply_error
   then gate ← error_gate reg error_qubit error_type;
        mret (gate ++ [barrier None])
   else mret [])
  = if apply_error then
      if decide (error_type ∈ ["X"; "Z"; "Y"]) then
        if decide (- n ≤ error_qubit < n)%Z
        then Ok [ pauli_gate error_type
                    (reg_name reg, Z.to_nat (error_qubit mod n));
                  barrier None ]
        else Raise IndexError
      else Ok [barrier None]
    else Ok [].
Proof.
  intros n. destruct apply_error; [|done].
  destruct (decide (error_type ∈ ["X"; "Z"; "Y"])) as [Hin|Hout].
  - rewrite error_gate_known by done.
    destruct (decide (- n ≤ error_qubit < n)%Z) as [Hq|Hq].
    + by rewrite getitem_in_range.
    + by rewrite getitem_out_of_range.
  - by rewrite error_gate_unknown.
Qed.

Lemma qubits_of_pauli_gate error_type q :
  qubits_of (pauli_gate error_type q) = [q].
Proof. unfold pauli_gate. by repeat case_decide. Qed.

Lemma error_injection_on_register reg (apply_error : bool) error_qubit
    error_type instrs :
  (if apply_error
   then gate ← error_gate reg error_qubit error_type;
        mret (gate ++ [barrier None])
   else mret []) = Ok instrs →
  on_register (reg_name reg) instrs.
Proof.
  rewrite error_injection_cases.
  assert (on_register (reg_name reg) [barrier None]) as Hbarrier.
  { apply Forall_cons. split; [|by apply Forall_nil].
    simpl. intros q Hq. by apply elem_of_nil in Hq. }
  destruct apply_error; [|intros [= <-]; by apply Forall_nil].
  repeat case_decide; intros [= <-]; [|done].
  apply Forall_cons. split; [|done].
  intros q. rewrite qubits_of_pauli_gate.
  by intros ->%list_elem_of_singleton.
Qed.

Lemma acting_on_disjoint a name instrs :
  a.1 ≠ name → on_register name instrs → acting_on a instrs = [].
Proof.
  intros Ha Hinstrs. apply acting_on_other_register.
  eapply Forall_impl; [exact Hinstrs|]. simpl. intros i Hi q Hq.
  by rewrite (Hi q Hq).
Qed.

End error_injection.

Section five_qubit_circuit.
Import FiveQubit.

(** X9. In every circuit [create_five_qubit_code] builds, the ancilla of
    the [k]-th stabilizer is touched by exactly: a Hadamard, then for the
    generator named in the docstring (XZZXI, IXZZX, XIXZZ, ZXIXZ) one
    controlled-X onto each qubit carrying X and one controlled-Z onto each
    qubit carrying Z, in qubit order and none for I, then a Hadamard and
    its measurement into classical bit [k]. *)
Theorem five_qubit_stabilizer_blocks input_value apply_error error_qubit
    error_type qc r1 r2 (k : nat) :
  create_five_qubit_code input_value apply_error error_qubit error_type
  = Ok (qc, r1, r2) →
  (k < 4)%nat →
  acting_on (bit syndrome k) (data qc)
  = [h (bit syndrome k)]
    ++ generator_gates (bit syndrome k) 0
         (default "" (stabilizer_generators !! k))
    ++ [h (bit syndrome k); measure (bit syndrome k) (bit c_syndrome k)].
Proof.
  unfold create_five_qubit_code.
  set (inj := if apply_error then _ else _).
  assert (∀ instrs, inj = Ok instrs → on_register "physical" instrs) as Hinj
    by apply (error_injection_on_register physical).
  destruct inj as [instrs|]; [|done]. specialize (Hinj _ eq_refl).
  intros [= <- <- <-] Hk. cbn [data].
  rewrite !acting_on_app.
  rewrite (acting_on_disjoint (bit syndrome k) "physical" instrs) by done.
  assert (k = 0 ∨ k = 1 ∨ k = 2 ∨ k = 3)%nat as [->|[->|[->| ->]]] by lia;
    case_decide; by vm_compute.
Qed.

Lemma five_qubit_stabilizer_blocks_witness :
  ∃ qc, create_five_qubit_code 1 true (-2) "Z"
        = Ok (qc, c_syndrome, c_physical)
        ∧ acting_on (bit syndrome 3) (data qc)
          = [ h ("syndrome", 3%nat);
              cz ("syndrome", 3%nat) ("physical", 0%nat);
              cx ("syndrome", 3%nat) ("physical", 1%nat);
              cx ("syndrome", 3%nat) ("physical", 3%nat);
              cz ("syndrome", 3%nat) ("physical", 4%nat);
              h ("syndrome", 3%nat);
              measure ("syndrome", 3%nat) ("c_syn", 3%nat) ].
Proof.
  eexists. split; [reflexivity|].
  apply (five_qubit_stabilizer_blocks 1 true (-2) "Z" _ c_syndrome
           c_physical 3); [reflexivity|lia].
Defined.

(** X10. [create_five_qubit_code] fails, with [IndexError], only when an
    error of type X, Z or Y is requested on an index outside [-5, 5). A
    requested error of one of these types adds that one gate on qubit
    [error_qubit mod 5] and a barrier right after the encoding; a
    requested error of any other type adds only the barrier and applies
    no gate; nothing else in the circuit depends on the error arguments. *)
Theorem create_five_qubit_code_error_injection (input_value : Z)
    (apply_error : bool) (error_qubit : Z) (error_type : string) :
  ∃ encoding extraction,
    create_five_qubit_code input_value false 0 "X"
    = Ok ({| qregs := [physical; syndrome];
             cregs := [c_syndrome; c_physical];
             data := encoding ++ extraction |}, c_syndrome, c_physical)
    ∧ on_register "physical" encoding
    ∧ head extraction = Some (h (bit syndrome 0))
    ∧ create_five_qubit_code input_value apply_error error_qubit error_type
      = if apply_error then
          if decide (error_type ∈ ["X"; "Z"; "Y"]) then
            if decide (-5 ≤ error_qubit < 5)%Z
            then Ok ({| qregs := [physical; syndrome];
                        cregs := [c_syndrome; c_physical];
                        data := encoding
                                ++ [ pauli_gate error_type
                                       (bit physical
                                          (Z.to_nat (error_qubit mod 5)));
                                     barrier None ]
                                ++ extraction |}, c_syndrome, c_physical)
            else Raise IndexError
          else Ok ({| qregs := [physical; syndrome];
                      cregs := [c_syndrome; c_physical];
                      data := encoding ++ [barrier None] ++ extraction |},
                   c_syndrome, c_physical)
        else Ok ({| qregs := [physical; syndrome];
                    cregs := [c_syndrome; c_physical];
                    data := encoding ++ extraction |},
                 c_syndrome, c_physical).
Proof.
  unfold create_five_qubit_code.
  rewrite (error_injection_cases physical).
  change (Z.of_nat (reg_size physical)) with 5%Z.
  change (Z.opp 5) with (Zneg 5).
  eexists _, _. split; [reflexivity|].
  split.
  { apply Forall_app. split.
    - case_decide; [|by apply Forall_nil].
      apply Forall_cons. split; [|by apply Forall_nil].
      simpl. by intros q ->%list_elem_of_singleton.
    - repeat (apply Forall_cons; split;
              [simpl; intros q Hq;
               repeat (apply elem_of_cons in Hq as [->|Hq]; [done|]);
               by apply elem_of_nil in Hq|]).
      by apply Forall_nil. }
  split; [reflexivity|].
  destruct apply_error; [|reflexivity].
  repeat case_decide; reflexivity.
Qed.

Lemma create_five_qubit_code_error_injection_witness :
  create_five_qubit_code 0 true 5 "Y" = Raise IndexError
  ∧ ∃ qc, create_five_qubit_code 0 true 5 "H"
          = Ok (qc, c_syndrome, c_physical).
Proof.
  destruct (create_five_qubit_code_error_injection 0 true 5 "Y")
    as (enc & ext & _ & _ & _ & HY).
  destruct (create_five_qubit_code_error_injection 0 true 5 "H")
    as (enc' & ext' & _ & _ & _ & HH).
  split.
  - rewrite HY. reflexivity.
  - rewrite HH. eexists. reflexivity.
Defined.

End five_qubit_circuit.

Section steane_decoder_tables.
Import Steane.

Lemma steane_tables_equal : z_syndrome_table = x_syndrome_table.
Proof. reflexivity. Qed.

Lemma steane_lookup_cases s a :
  Py.get x_syndrome_table s None = Some a →
  (s, a) ∈ [ ("111", 0); ("110", 1); ("101", 2); ("011", 3);
             ("010", 4); ("001", 5); ("100", 6) ]%nat.
Proof.
  unfold Py.get, x_syndrome_table. rewrite dict_literal_lookup.
  set (entries := [("000", None); _; _; _; _; _; _; _]).
  destruct (decide (s ∈ entries.*1)) as [Hin|Hout].
  - subst entries. simpl in Hin. intros Hs.
    repeat (apply elem_of_cons in Hin as [->|Hin];
            [vm_compute in Hs; try discriminate Hs; injection Hs as <-;
             apply list_elem_of_In; simpl; tauto|]).
    by apply elem_of_nil in Hin.
  - apply last_listed_None in Hout. by rewrite Hout.
Qed.

(** X11. Each of the seven physical qubits has exactly one syndrome in the
    Steane tables; that syndrome alone decodes to an X error on the qubit,
    alone in the other register to a Z error, and in both registers to a
    Y error. *)
Theorem decode_steane_round_trip (q : nat) :
  (q < 7)%nat →
  ∃ s,
    (∀ s', Py.get x_syndrome_table s' None = Some q ↔ s' = s)
    ∧ (∀ s', Py.get z_syndrome_table s' None = Some q ↔ s' = s)
    ∧ decode_steane_syndrome s "000" = (Some q, Some "X")
    ∧ decode_steane_syndrome "000" s = (Some q, Some "Z")
    ∧ decode_steane_syndrome s s = (Some q, Some "Y").
Proof.
  intros Hq. rewrite steane_tables_equal.
  assert (∀ s, Py.get x_syndrome_table s None = Some q →
               (∀ s', Py.get x_syndrome_table s' None = Some q ↔ s' = s))
    as Huniq.
  { intros s Hs s'. split; [|by intros ->].
    intros Hs'. apply steane_lookup_cases in Hs, Hs'.
    apply list_elem_of_In in Hs, Hs'. simpl in Hs, Hs'.
    repeat (destruct Hs as [Hs|Hs]; [injection Hs as <- <-|]); try done;
      repeat (destruct Hs' as [Hs'|Hs']; [by injection Hs' as <-|]);
      done. }
  assert (q = 0 ∨ q = 1 ∨ q = 2 ∨ q = 3 ∨ q = 4 ∨ q = 5 ∨ q = 6)%nat
    as [->|[->|[->|[->|[->|[->| ->]]]]]] by lia.
  - exists "111". split_and!; try reflexivity; by apply Huniq.
  - exists "110". split_and!; try reflexivity; by apply Huniq.
  - exists "101". split_and!; try reflexivity; by apply Huniq.
  - exists "011". split_and!; try reflexivity; by apply Huniq.
  - exists "010". split_and!; try reflexivity; by apply Huniq.
  - exists "001". split_and!; try reflexivity; by apply Huniq.
  - exists "100". split_and!; try reflexivity; by apply Huniq.
Qed.

Lemma decode_steane_round_trip_witness :
  ∃ s, decode_steane_syndrome s "000" = (Some 4, Some "X")%nat
       ∧ decode_steane_syndrome s s = (Some 4, Some "Y")%nat.
Proof.
  destruct (decode_steane_round_trip 4) as (s & _ & _ & HX & _ & HY); [lia|].
  exists s. split; [exact HX|exact HY].
Defined.

(** X12. [decode_steane_syndrome] never names a qubit outside 0..6, and
    names one only with type X, Y or Z; without a qubit the type is absent
    or ['Unknown']. Exchanging the two syndromes keeps the qubit and
    exchanges the types X and Z. *)
Theorem decode_steane_syndrome_range (syndrome_x syndrome_z : string) :
  (∀ q t, decode_steane_syndrome syndrome_x syndrome_z = (Some q, t) →
          (q < 7)%nat ∧ t ∈ [Some "X"; Some "Y"; Some "Z"])
  ∧ (∀ t, decode_steane_syndrome syndrome_x syndrome_z = (None, t) →
          t ∈ [None; Some "Unknown"])
  ∧ (decode_steane_syndrome syndrome_z syndrome_x).1
    = (decode_steane_syndrome syndrome_x syndrome_z).1
  ∧ ((decode_steane_syndrome syndrome_z syndrome_x).2 = Some "X"
     ↔ (decode_steane_syndrome syndrome_x syndrome_z).2 = Some "Z")
  ∧ ((decode_steane_syndrome syndrome_z syndrome_x).2 = Some "Y"
     ↔ (decode_steane_syndrome syndrome_x syndrome_z).2 = Some "Y")
  ∧ ((decode_steane_syndrome syndrome_z syndrome_x).2 = Some "Unknown"
     ↔ (decode_steane_syndrome syndrome_x syndrome_z).2 = Some "Unknown").
Proof.
  unfold decode_steane_syndrome. rewrite steane_tables_equal.
  assert (∀ s a, Py.get x_syndrome_table s None = Some a → (a < 7)%nat)
    as Hrange.
  { intros s a Hs%steane_lookup_cases. apply list_elem_of_In in Hs.
    simpl in Hs.
    repeat (destruct Hs as [Hs|Hs]; [injection Hs as <- <-; lia|]). done. }
  destruct (Py.get x_syndrome_table syndrome_x None) as [a|] eqn:Hx;
    destruct (Py.get x_syndrome_table syndrome_z None) as [b|] eqn:Hz;
    simpl.
  - destruct (decide (a = b)) as [->|Hab].
    + rewrite decide_True by done. split_and!; try done.
      * intros q t [= <- <-]. split; [by eapply Hrange|set_solver].
    + rewrite (decide_False (P := b = a)) by done.
      split_and!; try done. intros t [= <-]. set_solver.
  - split_and!; try done.
    intros q t [= <- <-]. split; [by eapply Hrange|set_solver].
  - split_and!; try done.
    intros q t [= <- <-]. split; [by eapply Hrange|set_solver].
  - split_and!; try done. intros t [= <-]. set_solver.
Qed.

Lemma decode_steane_syndrome_range_witness :
  (decode_steane_syndrome "000" "011").1 = (decode_steane_syndrome "011" "000").1
  ∧ ∀ q t, decode_steane_syndrome "011" "000" = (Some q, t) → (q < 7)%nat.
Proof.
  destruct (decode_steane_syndrome_range "011" "000") as (Hq & _ & Hswap & _).
  split; [exact Hswap|]. intros q t Hdec. by apply (Hq q t).
Defined.

End steane_decoder_tables.

Section steane_circuit_edges.
Import Steane.

Lemma existsb_coupled_app a q l1 l2 :
  coupled a q (l1 ++ l2) = coupled a q l1 || coupled a q l2.
Proof. apply existsb_app. Qed.

Lemma coupled_other_register a q name instrs :
  a.1 ≠ name → on_register name instrs → coupled a q instrs = false.
Proof.
  intros Ha. unfold coupled. induction 1 as [|i instrs Hi _ IH]; [done|].
  simpl. rewrite IH, orb_false_r.
  destruct i as [| | | |c t|c t| |]; try done;
    apply bool_decide_eq_false_2; intros [[-> _]|[_ ->]];
    apply Ha, Hi; simpl; set_solver.
Qed.

Lemma steane_encoding_on_register (input_value : Z) :
  on_register "physical"
    ((if decide (input_value = 1%Z) then [x (bit physical 0)] else [])
     ++ [ h (bit physical 0); h (bit physical 2);
          h (bit physical 4); h (bit physical 6);
          cx (bit physical 0) (bit physical 1);
          cx (bit physical 2) (bit physical 1);
          cx (bit physical 2) (bit physical 3);
          cx (bit physical 4) (bit physical 3);
          cx (bit physical 4) (bit physical 5);
          cx (bit physical 6) (bit physical 5);
          cx (bit physical 0) (bit physical 6);
          cx (bit physical 2) (bit physical 6);
          cx (bit physical 4) (bit physical 6);
          barrier None ]).
Proof.
  apply Forall_app. split.
  - case_decide; [|by apply Forall_nil].
    apply Forall_cons. split; [|by apply Forall_nil].
    simpl. by intros q ->%list_elem_of_singleton.
  - repeat (apply Forall_cons; split;
            [simpl; intros q Hq;
             repeat (apply elem_of_cons in Hq as [->|Hq]; [done|]);
             by apply elem_of_nil in Hq|]).
    by apply Forall_nil.
Qed.

(** What follows the error injection in every Steane circuit. *)
Lemma create_steane_code_split input_value apply_error error_qubit error_type
    qc r1 r2 r3 :
  create_steane_code input_value apply_error error_qubit error_type
  = Ok (qc, r1, r2, r3) →
  ∃ prefix,
    on_register "physical" prefix
    ∧ data qc
      = prefix ++ drop 14 (match create_steane_code 0 false 0 "X" with
                           | Ok r => data r.1.1.1
                           | Raise _ => []
                           end).
Proof.
  unfold create_steane_code at 1.
  change (if decide (error_type = "X") then _ else _)
    with (error_gate physical error_qubit error_type).
  set (inj := if apply_error then _ else _).
  assert (∀ instrs, inj = Ok instrs → on_register "physical" instrs) as Hinj
    by apply (error_injection_on_register physical).
  destruct inj as [instrs|]; [|done]. specialize (Hinj _ eq_refl).
  intros [= <- <- <- <-]. cbn [data].
  exists (((if decide (input_value = 1%Z) then [x (bit physical 0)] else [])
     ++ [ h (bit physical 0); h (bit physical 2);
          h (bit physical 4); h (bit physical 6);
          cx (bit physical 0) (bit physical 1);
          cx (bit physical 2) (bit physical 1);
          cx (bit physical 2) (bit physical 3);
          cx (bit physical 4) (bit physical 3);
          cx (bit physical 4) (bit physical 5);
          cx (bit physical 6) (bit physical 5);
          cx (bit physical 0) (bit physical 6);
          cx (bit physical 2) (bit physical 6);
          cx (bit physical 4) (bit physical 6);
          barrier None ]) ++ instrs).
  split.
  - apply Forall_app. split; [apply steane_encoding_on_register|done].
  - rewrite <-(app_assoc _ instrs). reflexivity.
Qed.

(** X13. [create_steane_code] fails, with [IndexError], only when an error
    of type X, Z or Y is requested on an index outside [-7, 7). Such an
    error adds that one gate on qubit [error_qubit mod 7] and a barrier
    between the encoding and the first syndrome block; a requested error
    of any other type adds only the barrier; nothing else in the circuit
    depends on the error arguments. *)
Theorem create_steane_code_error_injection (input_value : Z)
    (apply_error : bool) (error_qubit : Z) (error_type : string) :
  ∃ encoding extraction,
    create_steane_code input_value false 0 "X"
    = Ok ({| qregs := [physical; syndrome_x; syndrome_z];
             cregs := [c_syndrome_x; c_syndrome_z; c_physical];
             data := encoding ++ extraction |},
          c_syndrome_x, c_syndrome_z, c_physical)
    ∧ on_register "physical" encoding
    ∧ head extraction = Some (h (bit syndrome_x 0))
    ∧ create_steane_code input_value apply_error error_qubit error_type
      = if apply_error then
          if decide (error_type ∈ ["X"; "Z"; "Y"]) then
            if decide (-7 ≤ error_qubit < 7)%Z
            then Ok ({| qregs := [physical; syndrome_x; syndrome_z];
                        cregs := [c_syndrome_x; c_syndrome_z; c_physical];
                        data := encoding
                                ++ [ pauli_gate error_type
                                       (bit physical
                                          (Z.to_nat (error_qubit mod 7)));
                                     barrier None ]
                                ++ extraction |},
                     c_syndrome_x, c_syndrome_z, c_physical)
            else Raise IndexError
          else Ok ({| qregs := [physical; syndrome_x; syndrome_z];
                      cregs := [c_syndrome_x; c_syndrome_z; c_physical];
                      data := encoding ++ [barrier None] ++ extraction |},
                   c_syndrome_x, c_syndrome_z, c_physical)
        else Ok ({| qregs := [physical; syndrome_x; syndrome_z];
                    cregs := [c_syndrome_x; c_syndrome_z; c_physical];
                    data := encoding ++ extraction |},
                 c_syndrome_x, c_syndrome_z, c_physical).
Proof.
  unfold create_steane_code.
  change (if decide (error_type = "X") then _ else _)
    with (error_gate physical error_qubit error_type).
  rewrite (error_injection_cases physical).
  change (Z.of_nat (reg_size physical)) with 7%Z.
  change (Z.opp 7) with (Zneg 7).
  eexists _, _. split; [reflexivity|].
  split; [apply steane_encoding_on_register|].
  split; [reflexivity|].
  destruct apply_error; [|reflexivity].
  repeat case_decide; reflexivity.
Qed.

Lemma create_steane_code_error_injection_witness :
  create_steane_code 1 true (-8) "X" = Raise IndexError
  ∧ ∃ qc, create_steane_code 1 true (-8) "x"
          = Ok (qc, c_syndrome_x, c_syndrome_z, c_physical).
Proof.
  destruct (create_steane_code_error_injection 1 true (-8) "X")
    as (enc & ext & _ & _ & _ & HX).
  destruct (create_steane_code_error_injection 1 true (-8) "x")
    as (enc' & ext' & _ & _ & _ & Hx).
  split.
  - rewrite HX. reflexivity.
  - rewrite Hx. eexists. reflexivity.
Defined.

(** X14. In every circuit [create_steane_code] builds, each syndrome
    ancilla that shares a two-qubit gate with physical qubit 2 shares one
    with qubit 3 as well, and conversely; the same holds for qubits 4 and
    5. No syndrome bit is therefore wired to tell the two qubits of either
    pair apart. *)
Theorem steane_ancillas_pair_qubits input_value apply_error error_qubit
    error_type qc r1 r2 r3 (ancilla : Bit) :
  create_steane_code input_value apply_error error_qubit error_type
  = Ok (qc, r1, r2, r3) →
  ancilla.1 ∈ ["syn_x"; "syn_z"] →
  coupled ancilla (bit physical 2) (data qc)
  = coupled ancilla (bit physical 3) (data qc)
  ∧ coupled ancilla (bit physical 4) (data qc)
    = coupled ancilla (bit physical 5) (data qc).
Proof.
  intros Hqc Hanc.
  destruct (create_steane_code_split input_value apply_error
              error_qubit error_type qc r1 r2 r3 Hqc)
    as (prefix & Hprefix & Hdata).
  rewrite Hdata, !existsb_coupled_app.
  assert (ancilla.1 ≠ "physical") as Hne.
  { intros Heq. rewrite Heq in Hanc.
    repeat (apply elem_of_cons in Hanc as [?|Hanc]; [done|]).
    by apply elem_of_nil in Hanc. }
  rewrite !(coupled_other_register ancilla _ "physical" prefix) by done.
  destruct ancilla as [name [|[|[|i]]]]; simpl in Hanc;
    repeat (apply elem_of_cons in Hanc as [->|Hanc];
            [split; vm_compute; reflexivity|]);
    by apply elem_of_nil in Hanc.
Qed.

Lemma steane_ancillas_pair_qubits_witness :
  ∃ qc, create_steane_code 0 false 0 "X"
        = Ok (qc, c_syndrome_x, c_syndrome_z, c_physical)
        ∧ coupled (bit syndrome_z 1) (bit physical 4) (data qc)
          = coupled (bit syndrome_z 1) (bit physical 5) (data qc).
Proof.
  eexists. split; [reflexivity|].
  apply (steane_ancillas_pair_qubits 0 false 0 "X" _ c_syndrome_x
           c_syndrome_z c_physical (bit syndrome_z 1)); [reflexivity|].
  apply list_elem_of_In. simpl. tauto.
Defined.

End steane_circuit_edges.

Section three_register_keys.

Lemma split_three_registers r1 r2 r3 :
  bitstring r1 = true → bitstring r2 = true → bitstring r3 = true →
  r1 ≠ "" → r2 ≠ "" → r3 ≠ "" →
  split (r1 +:+ " " +:+ r2 +:+ " " +:+ r3) = [r1; r2; r3].
Proof.
  intros H1 H2 H3 Hne1 Hne2 Hne3. unfold split.
  rewrite split_go_bitstring by done.
  change ("" +:+ r1) with r1.
  change (" " +:+ r2 +:+ " " +:+ r3) with (String " " (r2 +:+ " " +:+ r3)).
  cbn [split_go]. change (isspace " ") with true. cbn iota.
  rewrite decide_False by done.
  change (split_go "" (r2 +:+ " " +:+ r3)) with (split (r2 +:+ " " +:+ r3)).
  by rewrite split_two_registers.
Qed.

Lemma bitstring_length_3 s :
  bitstring s = true → String.length s = 3%nat →
  s ∈ ["000"; "001"; "010"; "011"; "100"; "101"; "110"; "111"].
Proof.
  destruct s as [|c1 [|c2 [|c3 [|c4 s]]]]; try done. simpl.
  rewrite !andb_true_r. intros Hbits _.
  apply andb_prop in Hbits as [H1 Hbits].
  apply andb_prop in Hbits as [H2 H3].
  apply bool_decide_eq_true in H1 as [-> | ->];
    apply bool_decide_eq_true in H2 as [-> | ->];
    apply bool_decide_eq_true in H3 as [-> | ->];
    apply list_elem_of_In; simpl; tauto.
Qed.

End three_register_keys.

Section steane_analysis.
Import Steane.

Lemma steane_parse_registers physical_bits syndrome_z_bits syndrome_x_bits :
  bitstring physical_bits = true → bitstring syndrome_z_bits = true →
  bitstring syndrome_x_bits = true →
  physical_bits ≠ "" → syndrome_z_bits ≠ "" → syndrome_x_bits ≠ "" →
  parse_measurement
    (physical_bits +:+ " " +:+ syndrome_z_bits +:+ " " +:+ syndrome_x_bits)
  = (physical_bits, syndrome_z_bits, syndrome_x_bits).
Proof.
  intros. unfold parse_measurement. by rewrite split_three_registers.
Qed.

Lemma steane_step_successful acc item :
  (analyze_step acc item).1 = (acc.1 + no_error_share item)%Z.
Proof.
  destruct acc as [successful stats], item as [measurement n].
  unfold analyze_step, no_error_share. cbn [fst snd].
  destruct (parse_measurement measurement) as [[p sz] sx].
  destruct (decode_steane_syndrome sx sz) as [q t]. cbn [fst snd].
  destruct (bool_decide (sx = "000") && bool_decide (sz = "000")); lia.
Qed.

Lemma steane_fold_successful acc items :
  (foldl analyze_step acc items).1
  = (acc.1 + Py.sum (no_error_share <$> items))%Z.
Proof.
  revert acc. induction items as [|item items IH]; intros acc.
  - simpl. lia.
  - change (foldl analyze_step acc (item :: items))
      with (foldl analyze_step (analyze_step acc item) items).
    rewrite IH, steane_step_successful, fmap_cons. simpl. lia.
Qed.

Lemma steane_no_error_iff syndrome_x syndrome_z :
  bitstring syndrome_x = true → bitstring syndrome_z = true →
  String.length syndrome_x = 3%nat → String.length syndrome_z = 3%nat →
  (syndrome_x = "000" ∧ syndrome_z = "000"
   ↔ decode_steane_syndrome syndrome_x syndrome_z = (None, None)).
Proof.
  intros Hx Hz Hlx Hlz.
  apply bitstring_length_3 in Hx; [|done].
  apply bitstring_length_3 in Hz; [|done].
  repeat (apply elem_of_cons in Hx as [->|Hx]);
    try (by apply elem_of_nil in Hx);
    repeat (apply elem_of_cons in Hz as [->|Hz]);
    try (by apply elem_of_nil in Hz);
    (split; [intros [Hx0 Hz0]; try discriminate Hx0; try discriminate Hz0;
             reflexivity
            |intros Hdec; vm_compute in Hdec; try discriminate Hdec; done]).
Qed.

(** X15. [analyze_steane_results] counts a histogram entry as successful
    exactly when both syndromes parsed from its key are ['000']; for a key
    ['<physical> <Z syndrome> <X syndrome>'] this does not depend on the
    physical bits, and for three-bit syndromes it is exactly the case in
    which [decode_steane_syndrome] reports no error. The expected
    [input_value] is never used, and a histogram whose counts sum to zero
    (the empty one included) raises [ZeroDivisionError]. *)
Theorem steane_success_is_no_error (counts : gmap string Z)
    (input_value input_value' : Z) :
  (analyze_loop counts).1 = Py.sum (no_error_share <$> map_to_list counts)
  ∧ (∀ physical_bits syndrome_z_bits syndrome_x_bits n,
       bitstring physical_bits = true → bitstring syndrome_z_bits = true →
       bitstring syndrome_x_bits = true →
       physical_bits ≠ "" →
       String.length syndrome_z_bits = 3%nat →
       String.length syndrome_x_bits = 3%nat →
       no_error_share
         (physical_bits +:+ " " +:+ syndrome_z_bits +:+ " "
          +:+ syndrome_x_bits, n)
       = (if decide (decode_steane_syndrome syndrome_x_bits syndrome_z_bits
                     = (None, None))
          then n else 0%Z))
  ∧ analyze_steane_results counts input_value
    = analyze_steane_results counts input_value'
  ∧ (Py.sum (map_to_list counts).*2 = 0%Z →
     analyze_steane_results counts input_value = Raise ZeroDivisionError).
Proof.
  split_and!.
  - unfold analyze_loop, sorted_by_count_desc.
    rewrite steane_fold_successful. simpl.
    apply sum_Permutation, fmap_Permutation, merge_sort_Permutation.
  - intros p sz sx n Hp Hsz Hsx Hnp Hlz Hlx.
    unfold no_error_share. cbn [fst snd].
    rewrite steane_parse_registers; [|done..| |];
      [|by intros ->|by intros ->].
    pose proof (steane_no_error_iff sx sz Hsx Hsz Hlx Hlz) as Hiff.
    destruct (decide (decode_steane_syndrome sx sz = (None, None)))
      as [Hnone|Hsome].
    + apply Hiff in Hnone as [-> ->]. reflexivity.
    + destruct (bool_decide (sx = "000")) eqn:Hbx;
        destruct (bool_decide (sz = "000")) eqn:Hbz; try reflexivity.
      apply bool_decide_eq_true in Hbx, Hbz. exfalso. apply Hsome.
      by apply Hiff.
  - reflexivity.
  - intros Hsum. unfold analyze_steane_results. rewrite Hsum.
    destruct (analyze_loop counts) as [successful stats].
    apply report_then_divide_by_zero.
Qed.

Lemma steane_success_is_no_error_witness :
  no_error_share ("1010101 000 000", 9%Z) = 9%Z
  ∧ no_error_share ("1010101 011 000", 9%Z) = 0%Z
  ∧ analyze_steane_results ∅ 0 = Raise ZeroDivisionError.
Proof.
  destruct (steane_success_is_no_error ∅ 0 1) as (_ & Hshare & _ & Hzero).
  split_and!.
  - apply (Hshare "1010101" "000" "000" 9%Z);
      [reflexivity|reflexivity|reflexivity|discriminate
      |reflexivity|reflexivity].
  - apply (Hshare "1010101" "011" "000" 9%Z);
      [reflexivity|reflexivity|reflexivity|discriminate
      |reflexivity|reflexivity].
  - apply Hzero. reflexivity.
Defined.

End steane_analysis.

Section surface_analysis.
Import Surface.

Lemma decode_surface_none_iff syndrome_x syndrome_z :
  decode_surface_syndrome syndrome_x syndrome_z = (None, None)
  ↔ syndrome_x = "0000" ∧ syndrome_z = "0000".
Proof.
  unfold decode_surface_syndrome.
  destruct (decide (syndrome_x = "0000")) as [Hx|Hx];
    destruct (decide (syndrome_z = "0000")) as [Hz|Hz];
    repeat first [rewrite (bool_decide_eq_true_2 _ Hx)
                 |rewrite (bool_decide_eq_false_2 _ Hx)
                 |rewrite (bool_decide_eq_true_2 _ Hz)
                 |rewrite (bool_decide_eq_false_2 _ Hz)];
    simpl; split; try done; intros [? ?]; done.
Qed.

Lemma surface_step_successful acc item :
  (analyze_step acc item).1 = (acc.1 + no_error_share item)%Z.
Proof.
  destruct acc as [successful stats], item as [measurement n].
  unfold analyze_step, no_error_share. cbn [fst snd].
  destruct (parse_measurement measurement) as [[p sz] sx].
  pose proof (decode_surface_none_iff sx sz) as Hiff.
  destruct (decode_surface_syndrome sx sz) as [loc t]. cbn [fst snd].
  destruct (decide ((loc, t) = (None, None))) as [Hnone|Hsome].
  - apply Hiff in Hnone as [-> ->]. simpl. lia.
  - destruct (bool_decide (sx = "0000")) eqn:Hbx;
      destruct (bool_decide (sz = "0000")) eqn:Hbz; simpl; try lia.
    apply bool_decide_eq_true in Hbx, Hbz. exfalso. apply Hsome.
    by apply Hiff.
Qed.

Lemma surface_fold_successful acc items :
  (foldl analyze_step acc items).1
  = (acc.1 + Py.sum (no_error_share <$> items))%Z.
Proof.
  revert acc. induction items as [|item items IH]; intros acc.
  - simpl. lia.
  - change (foldl analyze_step acc (item :: items))
      with (foldl analyze_step (analyze_step acc item) items).
    rewrite IH, surface_step_successful, fmap_cons. simpl. lia.
Qed.

(** X16. [analyze_surface_results] counts a histogram entry as successful
    exactly when [decode_surface_syndrome], applied to the two syndromes
    parsed from its key, reports no error; for a key
    ['<data> <Z syndrome> <X syndrome>'] the data bits do not matter. A
    histogram whose counts sum to zero raises [ZeroDivisionError]. *)
Theorem surface_success_is_decoder_verdict (counts : gmap string Z)
    (input_value : Z) :
  (analyze_loop counts).1 = Py.sum (no_error_share <$> map_to_list counts)
  ∧ (∀ data_bits syndrome_z_bits syndrome_x_bits n,
       bitstring data_bits = true → bitstring syndrome_z_bits = true →
       bitstring syndrome_x_bits = true →
       data_bits ≠ "" → syndrome_z_bits ≠ "" → syndrome_x_bits ≠ "" →
       no_error_share
         (data_bits +:+ " " +:+ syndrome_z_bits +:+ " " +:+ syndrome_x_bits, n)
       = (if decide (decode_surface_syndrome syndrome_x_bits syndrome_z_bits
                     = (None, None))
          then n else 0%Z))
  ∧ (Py.sum (map_to_list counts).*2 = 0%Z →
     analyze_surface_results counts input_value = Raise ZeroDivisionError).
Proof.
  split_and!.
  - unfold analyze_loop, sorted_by_count_desc.
    rewrite surface_fold_successful. simpl.
    apply sum_Permutation, fmap_Permutation, merge_sort_Permutation.
  - intros d sz sx n Hd Hsz Hsx Hnd Hnz Hnx.
    unfold no_error_share, parse_measurement. cbn [fst snd].
    by rewrite split_three_registers.
  - intros Hsum. unfold analyze_surface_results. rewrite Hsum.
    destruct (analyze_loop counts) as [successful stats].
    apply report_then_divide_by_zero.
Qed.

Lemma surface_success_is_decoder_verdict_witness :
  no_error_share ("000000000 0000 0000", 5%Z) = 5%Z
  ∧ no_error_share ("100000000 0100 0000", 5%Z) = 0%Z
  ∧ analyze_surface_results {[ "000000000 0000 0000" := 0%Z ]} 0
    = Raise ZeroDivisionError.
Proof.
  destruct (surface_success_is_decoder_verdict
              {[ "000000000 0000 0000" := 0%Z ]} 0) as (_ & Hshare & Hzero).
  split_and!.
  - apply (Hshare "000000000" "0000" "0000" 5%Z);
      [reflexivity|reflexivity|reflexivity
      |discriminate|discriminate|discriminate].
  - apply (Hshare "100000000" "0100" "0000" 5%Z);
      [reflexivity|reflexivity|reflexivity
      |discriminate|discriminate|discriminate].
  - apply Hzero. vm_compute. reflexivity.
Defined.

End surface_analysis.

Section surface_circuit.
Import Surface.

Lemma coupled_acting_on a q instrs :
  coupled a q instrs = coupled a q (acting_on a instrs).
Proof.
  unfold coupled, acting_on. induction instrs as [|i instrs IH]; [done|].
  destruct (decide (a ∈ qubits_of i)) as [Hin|Hout].
  - rewrite filter_cons_True by done. simpl. by rewrite IH.
  - rewrite filter_cons_False by done. simpl. rewrite <-IH.
    destruct i as [| | | |c t|c t| |]; try done;
      rewrite bool_decide_eq_false_2; try done;
      intros [[-> _]|[_ ->]]; apply Hout; simpl; set_solver.
Qed.

(** X17. In every circuit [create_surface_code] builds, the ancilla of
    the [k]-th X-stabilizer is touched by exactly a Hadamard, one
    controlled-X onto each data qubit of its support ({0,1,3}, {1,2,4},
    {3,4,6}, {4,5,7}), a Hadamard and its measurement, and the ancilla of
    the [k]-th Z-stabilizer by exactly one controlled-X from each data
    qubit of its support ({0,1,3,4}, {1,2,4,5}, {3,4,6,7}, {4,5,7,8}) and
    its measurement. In particular no X-stabilizer ancilla is ever
    joined to data qubit 8. *)
Theorem surface_stabilizer_blocks input_value apply_error error_qubit
    error_type qc r1 r2 r3 (k : nat) :
  create_surface_code input_value apply_error error_qubit error_type
  = Ok (qc, r1, r2, r3) →
  (k < 4)%nat →
  acting_on (bit syndrome_x k) (data qc)
  = [h (bit syndrome_x k)]
    ++ ((λ j, cx (bit syndrome_x k) (bit physical j))
          <$> x_stabilizer_support k)
    ++ [h (bit syndrome_x k); measure (bit syndrome_x k) (bit c_syndrome_x k)]
  ∧ acting_on (bit syndrome_z k) (data qc)
    = ((λ j, cx (bit physical j) (bit syndrome_z k))
         <$> z_stabilizer_support k)
      ++ [measure (bit syndrome_z k) (bit c_syndrome_z k)]
  ∧ coupled (bit syndrome_x k) (bit physical 8) (data qc) = false.
Proof.
  intros Hqc Hk.
  assert (acting_on (bit syndrome_x k) (data qc)
          = [h (bit syndrome_x k)]
            ++ ((λ j, cx (bit syndrome_x k) (bit physical j))
                  <$> x_stabilizer_support k)
            ++ [h (bit syndrome_x k);
                measure (bit syndrome_x k) (bit c_syndrome_x k)]
          ∧ acting_on (bit syndrome_z k) (data qc)
            = ((λ j, cx (bit physical j) (bit syndrome_z k))
                 <$> z_stabilizer_support k)
              ++ [measure (bit syndrome_z k) (bit c_syndrome_z k)])
    as [Hx Hz].
  { revert Hqc. unfold create_surface_code.
    set (inj := if apply_error then _ else _).
    assert (∀ instrs, inj = Ok instrs → on_register "data" instrs) as Hinj
      by apply (error_injection_on_register physical).
    destruct inj as [instrs|]; [|done]. specialize (Hinj _ eq_refl).
    intros [= <- <- <- <-]. cbn [data].
    rewrite !acting_on_app.
    rewrite (acting_on_disjoint (bit syndrome_x k) "data" instrs),
      (acting_on_disjoint (bit syndrome_z k) "data" instrs) by done.
    assert (k = 0 ∨ k = 1 ∨ k = 2 ∨ k = 3)%nat as [->|[->|[->| ->]]] by lia;
      case_decide; split; vm_compute; reflexivity. }
  split; [exact Hx|]. split; [exact Hz|].
  rewrite coupled_acting_on, Hx.
  assert (k = 0 ∨ k = 1 ∨ k = 2 ∨ k = 3)%nat as [->|[->|[->| ->]]] by lia;
    vm_compute; reflexivity.
Qed.

Lemma surface_stabilizer_blocks_witness :
  ∃ qc, create_surface_code 1 true 8 "Z"
        = Ok (qc, c_syndrome_x, c_syndrome_z, c_physical)
        ∧ acting_on (bit syndrome_x 3) (data qc)
          = [ h ("syn_x", 3%nat);
              cx ("syn_x", 3%nat) ("data", 4%nat);
              cx ("syn_x", 3%nat) ("data", 5%nat);
              cx ("syn_x", 3%nat) ("data", 7%nat);
              h ("syn_x", 3%nat);
              measure ("syn_x", 3%nat) ("c_syn_x", 3%nat) ].
Proof.
  eexists. split; [reflexivity|].
  destruct (surface_stabilizer_blocks 1 true 8 "Z" _ c_syndrome_x
              c_syndrome_z c_physical 3 eq_refl) as (Hx & _); [lia|].
  exact Hx.
Defined.

End surface_circuit.

Section random_errors.
Import RandomErrors.
Context {F G : Type}.
Context (lt : F → F → bool).
Context (random : G → F * G).
Context (choice : list string → G → Result (string * G)).

Local Abbreviation step rate types :=
  (λ state qubit,
     st ← state; error_step lt random choice rate types st qubit).

Lemma gate_of_error_qregs c1 c2 error :
  qregs c1 = qregs c2 → gate_of_error c1 error = gate_of_error c2 error.
Proof. intros Hq. unfold gate_of_error, circuit_qubits. by rewrite Hq. Qed.

Lemma append_gate_effect gate c qubit c' :
  append_gate gate c qubit = Ok c' →
  qregs c' = qregs c ∧ cregs c' = cregs c
  ∧ ∃ q, circuit_qubits c !! qubit = Some q ∧ data c' = data c ++ [gate q].
Proof.
  unfold append_gate. destruct (circuit_qubits c !! qubit) as [q|]; [|done].
  intros [= <-]. simpl. eauto.
Qed.

(** What one iteration does to the circuit and to the recorded errors. *)
Lemma error_step_effect rate types c errs g qubit c' errs' g' :
  error_step lt random choice rate types (c, errs, g) qubit
  = Ok (c', errs', g') →
  qregs c' = qregs c ∧ cregs c' = cregs c
  ∧ ((errs' = errs ∧ data c' = data c)
     ∨ ∃ t, errs' = errs ++ [(qubit, t)]
            ∧ data c' = data c ++ gate_of_error c (qubit, t)).
Proof.
  unfold error_step. destruct (random g) as [draw g1].
  destruct (lt draw rate); [|intros [= <- <- <-]; auto].
  destruct (choice types g1) as [[t g2]|]; [|done].
  cbn [mbind Result_bind].
  assert (∀ gate c1,
            append_gate gate c qubit = Ok c1 →
            (∀ q, circuit_qubits c !! qubit = Some q →
                  gate_of_error c (qubit, t) = [gate q]) →
            qregs c1 = qregs c ∧ cregs c1 = cregs c
            ∧ data c1 = data c ++ gate_of_error c (qubit, t)) as Hgate.
  { intros gate c1 (Hq & Hc & q & Hlook & Hdata)%append_gate_effect Hgoe.
    by rewrite (Hgoe q Hlook). }
  destruct (decide (t = "X")) as [->|HX];
    [|destruct (decide (t = "Y")) as [->|HY];
      [|destruct (decide (t = "Z")) as [->|HZ]]].
  - destruct (append_gate x c qubit) as [c1|] eqn:Happ; [|done].
    intros [= <- <- <-].
    destruct (Hgate x c1 Happ) as (Hq & Hc & Hd).
    { intros q Hl. unfold gate_of_error. cbn [fst snd]. by rewrite Hl. }
    split; [done|]. split; [done|]. right. by exists "X".
  - destruct (append_gate y c qubit) as [c1|] eqn:Happ; [|done].
    intros [= <- <- <-].
    destruct (Hgate y c1 Happ) as (Hq & Hc & Hd).
    { intros q Hl. unfold gate_of_error. cbn [fst snd]. by rewrite Hl. }
    split; [done|]. split; [done|]. right. by exists "Y".
  - destruct (append_gate z c qubit) as [c1|] eqn:Happ; [|done].
    intros [= <- <- <-].
    destruct (Hgate z c1 Happ) as (Hq & Hc & Hd).
    { intros q Hl. unfold gate_of_error. cbn [fst snd]. by rewrite Hl. }
    split; [done|]. split; [done|]. right. by exists "Z".
  - intros [= <- <- <-]. split; [done|]. split; [done|]. right. exists t.
    split; [done|]. unfold gate_of_error. cbn [fst snd].
    destruct (circuit_qubits c !! qubit);
      rewrite ?decide_False by done; by rewrite app_nil_r.
Qed.

Lemma error_loop_effect rate types qubits c errs g c' errs' g' :
  foldl (step rate types) (Ok (c, errs, g)) qubits = Ok (c', errs', g') →
  qregs c' = qregs c ∧ cregs c' = cregs c
  ∧ ∃ new, errs' = errs ++ new
           ∧ data c' = data c ++ concat (gate_of_error c <$> new)
           ∧ new.*1 `sublist_of` qubits.
Proof.
  revert c errs g. induction qubits as [|qubit qubits IH]; intros c errs g.
  - intros [= <- <- <-]. split; [done|]. split; [done|]. exists [].
    by rewrite !app_nil_r.
  - cbn [foldl]. cbn [mbind Result_bind].
    destruct (error_step lt random choice rate types (c, errs, g) qubit)
      as [[[c1 errs1] g1]|e] eqn:Hstep.
    + intros Hrest.
      destruct (IH _ _ _ Hrest) as (Hq & Hc & new & -> & Hdata & Hsub).
      destruct (error_step_effect _ _ _ _ _ _ _ _ _ Hstep)
        as (Hq1 & Hc1 & [[-> Hd1]|(t & -> & Hd1)]).
      * split; [congruence|]. split; [congruence|]. exists new.
        split; [done|]. split; [|by apply sublist_cons].
        rewrite Hdata, Hd1. do 2 f_equal. apply list_fmap_ext.
        intros ???. by apply gate_of_error_qregs.
      * split; [congruence|]. split; [congruence|].
        exists ((qubit, t) :: new).
        split; [by rewrite <-app_assoc|].
        split; [|by apply sublist_skip].
        rewrite Hdata, Hd1, fmap_cons. simpl. rewrite <-app_assoc.
        do 3 f_equal. apply list_fmap_ext.
        intros ???. by apply gate_of_error_qregs.
    + rewrite (foldl_raised
                 (λ st qubit, error_step lt random choice rate types st qubit)).
      done.
Qed.

(** X18. When [apply_random_errors] returns, the qubits of the recorded
    errors are distinct, in increasing order and below [num_qubits] (a
    sub-sequence of [range(num_qubits)]), so at most one error per qubit;
    the circuit keeps its registers and its instructions and gains, after
    them and in the order recorded, one [x], [y] or [z] gate per recorded
    error of type X, Y or Z. A recorded error of any other type adds no
    gate: if all recorded types are of that kind the circuit is returned
    unchanged although errors are reported. *)
Theorem apply_random_errors_effect (circuit : QuantumCircuit)
    (num_qubits : Z) (error_rate : F) (error_types : list string) (g : G)
    circuit' errors_applied g' :
  apply_random_errors lt random choice circuit num_qubits error_rate
    error_types g = Ok (circuit', errors_applied, g') →
  qregs circuit' = qregs circuit ∧ cregs circuit' = cregs circuit
  ∧ data circuit'
    = data circuit ++ concat (gate_of_error circuit <$> errors_applied)
  ∧ errors_applied.*1 `sublist_of` seq 0 (Z.to_nat num_qubits)
  ∧ NoDup errors_applied.*1
  ∧ Forall (λ q, Z.of_nat q < num_qubits)%Z errors_applied.*1
  ∧ (length errors_applied ≤ Z.to_nat num_qubits)%nat
  ∧ (Forall (λ e, e.2 ∉ ["X"; "Y"; "Z"]) errors_applied →
     data circuit' = data circuit).
Proof.
  unfold apply_random_errors. intros Hloop.
  destruct (error_loop_effect _ _ _ _ _ _ _ _ _ Hloop)
    as (Hq & Hc & new & Hnew & Hdata & Hsub).
  simpl in Hnew. subst new.
  split_and!; try done.
  - apply (sublist_NoDup _ _ (NoDup_seq _ _) Hsub).
  - apply Forall_forall. intros q Hin.
    apply (elem_of_sublist _ _ _ Hin) in Hsub.
    apply elem_of_seq in Hsub. lia.
  - apply sublist_length in Hsub.
    by rewrite length_fmap, length_seq in Hsub.
  - intros Hother. rewrite Hdata.
    rewrite <-(app_nil_r (data circuit)) at 2. f_equal.
    clear -Hother. induction Hother as [|[q t] errs Ht _ IH]; [done|].
    rewrite fmap_cons. simpl. rewrite IH, app_nil_r.
    unfold gate_of_error. simpl in *.
    destruct (circuit_qubits circuit !! q); [|done].
    rewrite !decide_False; [done|..]; intros ->; apply Ht; set_solver.
Qed.

(** X19. If no draw falls below [error_rate], [apply_random_errors]
    returns the circuit as it was with an empty error list and never asks
    for an error type; with [num_qubits <= 0] it does so without drawing
    at all. *)
Theorem apply_random_errors_none (circuit : QuantumCircuit)
    (num_qubits : Z) (error_rate : F) (error_types : list string) (g : G) :
  ((∀ g0, lt (random g0).1 error_rate = false) →
   ∃ g', apply_random_errors lt random choice circuit num_qubits error_rate
           error_types g = Ok (circuit, [], g'))
  ∧ ((num_qubits ≤ 0)%Z →
     apply_random_errors lt random choice circuit num_qubits error_rate
       error_types g = Ok (circuit, [], g)).
Proof.
  unfold apply_random_errors. split.
  - intros Hdraw. generalize (seq 0 (Z.to_nat num_qubits)) as qubits.
    intros qubits. revert g.
    induction qubits as [|qubit qubits IH]; intros g; [by exists g|].
    cbn [foldl]. cbn [mbind Result_bind]. unfold error_step at 2.
    pose proof (Hdraw g) as Hg. destruct (random g) as [draw g1].
    simpl in Hg. rewrite Hg. apply IH.
  - intros Hn. by replace (Z.to_nat num_qubits) with 0%nat by lia.
Qed.

Lemma error_step_succeeds rate types c errs g qubit :
  (∀ g0, ∃ t g1, choice types g0 = Ok (t, g1)) →
  (qubit < length (circuit_qubits c))%nat →
  ∃ c' errs' g',
    error_step lt random choice rate types (c, errs, g) qubit
    = Ok (c', errs', g')
    ∧ qregs c' = qregs c.
Proof.
  intros Hchoice Hqubit. unfold error_step.
  destruct (random g) as [draw g1]. destruct (lt draw rate); [|by eauto].
  destruct (Hchoice g1) as (t & g2 & ->). cbn [mbind Result_bind].
  apply lookup_lt_is_Some in Hqubit as [q Hq].
  unfold append_gate. rewrite Hq.
  repeat case_decide; cbn [mbind Result_bind mret Result_ret]; eauto.
Qed.

(** X20. [apply_random_errors] cannot fail when [num_qubits] does not
    exceed the number of qubits of the circuit and the type choice itself
    succeeds (a non-empty [error_types] for the NumPy generator). *)
Theorem apply_random_errors_succeeds (circuit : QuantumCircuit)
    (num_qubits : Z) (error_rate : F) (error_types : list string) (g : G) :
  (∀ g0, ∃ t g1, choice error_types g0 = Ok (t, g1)) →
  (Z.to_nat num_qubits ≤ length (circuit_qubits circuit))%nat →
  ∃ circuit' errors_applied g',
    apply_random_errors lt random choice circuit num_qubits error_rate
      error_types g = Ok (circuit', errors_applied, g').
Proof.
  intros Hchoice Hsize. unfold apply_random_errors.
  assert (Forall (λ q, q < length (circuit_qubits circuit))%nat
            (seq 0 (Z.to_nat num_qubits))) as Hqubits.
  { apply Forall_forall. intros q Hq%elem_of_seq. lia. }
  revert Hqubits. generalize (seq 0 (Z.to_nat num_qubits)) as qubits.
  generalize (@nil (nat * string)) as errs. clear Hsize.
  intros errs qubits. revert circuit errs g.
  induction qubits as [|qubit qubits IH]; intros circuit errs g Hqubits.
  - by exists circuit, errs, g.
  - apply Forall_cons in Hqubits as [Hqubit Hqubits].
    cbn [foldl]. cbn [mbind Result_bind].
    destruct (error_step_succeeds error_rate error_types circuit errs g qubit
                Hchoice Hqubit) as (c1 & errs1 & g1 & -> & Hq).
    apply IH. unfold circuit_qubits in *. by rewrite Hq.
Qed.

End random_errors.

Section random_errors_examples.
Import RandomErrors.

Lemma apply_random_errors_effect_witness :
  ∃ circuit',
    apply_random_errors Z.ltb replay_random first_choice
      {| qregs := [QuantumRegister 5 "q"]; cregs := []; data := [] |}
      5 3%Z ["Y"; "X"] [7; 1; 9; 2; 8]%Z
    = Ok (circuit', [(1%nat, "Y"); (3%nat, "Y")], [])
    ∧ data circuit' = [y ("q", 1%nat); y ("q", 3%nat)].
Proof.
  eexists. split; [vm_compute; reflexivity|].
  destruct (apply_random_errors_effect Z.ltb replay_random first_choice
              {| qregs := [QuantumRegister 5 "q"]; cregs := []; data := [] |}
              5 3%Z ["Y"; "X"] [7; 1; 9; 2; 8]%Z _ _ _ eq_refl)
    as (_ & _ & Hdata & _).
  exact Hdata.
Defined.

Lemma apply_random_errors_none_witness :
  (∃ g', apply_random_errors Z.ltb (λ g : list Z, (1%Z, g)) first_choice
           {| qregs := [QuantumRegister 5 "q"]; cregs := []; data := [] |}
           5 0%Z [] [7; 1; 9]%Z
         = Ok ({| qregs := [QuantumRegister 5 "q"]; cregs := [];
                  data := [] |}, [], g'))
  ∧ apply_random_errors Z.ltb replay_random first_choice
      {| qregs := [QuantumRegister 5 "q"]; cregs := []; data := [] |}
      (-2) 3%Z ["X"] [1; 1]%Z
    = Ok ({| qregs := [QuantumRegister 5 "q"]; cregs := []; data := [] |},
          [], [1; 1]%Z).
Proof.
  split.
  - apply (apply_random_errors_none Z.ltb (λ g : list Z, (1%Z, g))
             first_choice). intros g0. reflexivity.
  - apply (apply_random_errors_none Z.ltb replay_random first_choice). lia.
Defined.

Lemma apply_random_errors_succeeds_witness :
  ∃ circuit' errors_applied g',
    apply_random_errors Z.ltb replay_random first_choice
      {| qregs := [QuantumRegister 2 "a"; QuantumRegister 3 "b"];
         cregs := []; data := [] |}
      5 3%Z ["Z"] [0; 0; 0; 0; 0]%Z
    = Ok (circuit', errors_applied, g').
Proof.
  apply (apply_random_errors_succeeds Z.ltb replay_random first_choice).
  - intros g0. by exists "Z", g0.
  - simpl. lia.
Defined.

End random_errors_examples.

Section unspaced_keys.
Import FiveQubit.

Lemma remove_char_bitstring s : bitstring s = true → remove_char " " s = s.
Proof.
  induction s as [|c s IH]; [done|]. simpl.
  intros [Hc Hs]%andb_prop. rewrite IH by done.
  apply bool_decide_eq_true in Hc as [-> | ->]; by rewrite decide_False.
Qed.

Lemma bitstring_app s1 s2 :
  bitstring s1 = true → bitstring s2 = true → bitstring (s1 +:+ s2) = true.
Proof.
  intros H1 H2. induction s1 as [|c s1 IH]; [done|].
  rewrite string_app_cons. simpl in *.
  apply andb_prop in H1 as [Hc H1]. by rewrite Hc, IH.
Qed.

Lemma substring_app_l s1 s2 :
  substring 0 (String.length s1) (s1 +:+ s2) = s1.
Proof.
  induction s1 as [|c s1 IH]; [by destruct s2|].
  rewrite string_app_cons. simpl. by rewrite IH.
Qed.

Lemma substring_app_r s1 s2 :
  substring (String.length s1) (String.length s2) (s1 +:+ s2) = s2.
Proof.
  induction s1 as [|c s1 IH].
  - change ("" +:+ s2) with s2. simpl.
    induction s2 as [|c s2 IH2]; [done|]. simpl. by rewrite IH2.
  - rewrite string_app_cons. simpl. apply IH.
Qed.

(** X21. [analyze_five_qubit_results] reads a key the same way with or
    without the space between the registers: five physical bits followed
    by four syndrome bits give the same two registers in either form. *)
Theorem parse_measurement_unspaced (physical_bits syndrome_bits : string) :
  bitstring physical_bits = true → bitstring syndrome_bits = true →
  String.length physical_bits = 5%nat → String.length syndrome_bits = 4%nat →
  parse_measurement (physical_bits +:+ syndrome_bits)
  = (physical_bits, syndrome_bits)
  ∧ parse_measurement (physical_bits +:+ syndrome_bits)
    = parse_measurement (physical_bits +:+ " " +:+ syndrome_bits).
Proof.
  intros Hp Hs Hlp Hls.
  assert (physical_bits ≠ "") as Hnp by (intros ->; done).
  assert (syndrome_bits ≠ "") as Hns by (intros ->; done).
  assert (parse_measurement (physical_bits +:+ syndrome_bits)
          = (physical_bits, syndrome_bits)) as Hparse.
  { unfold parse_measurement.
    rewrite split_bitstring by by apply bitstring_app.
    assert (physical_bits +:+ syndrome_bits ≠ "") as Hne.
    { destruct physical_bits; [done|]. by rewrite string_app_cons. }
    rewrite decide_False by done.
    rewrite remove_char_bitstring by by apply bitstring_app.
    unfold slice. change (5 - 0)%nat with 5%nat.
    change (9 - 5)%nat with 4%nat. f_equal.
    - rewrite <-Hlp. apply substring_app_l.
    - rewrite <-Hlp, <-Hls. apply substring_app_r. }
  split; [done|]. by rewrite Hparse, parse_measurement_registers.
Qed.

Lemma parse_measurement_unspaced_witness :
  parse_measurement "101100011" = ("10110", "0011")
  ∧ parse_measurement "101100011" = parse_measurement "10110 0011".
Proof.
  apply (parse_measurement_unspaced "10110" "0011"); reflexivity.
Defined.

End unspaced_keys.

Section error_model_attach.
Import ErrorModels.
Context {F QuantumError : Type}.
Context (add sub : F → F → F) (one : F) (gt : F → F → bool).
Context (aer_pauli_error : list (string * F) → string + QuantumError).
Context (num_qubits : QuantumError → nat) (ideal : QuantumError → bool).

Local Abbreviation attach := (add_all_qubit_quantum_error num_qubits ideal).
Local Abbreviation gate_names := ["id"; "x"; "y"; "z"; "h"; "cx"].

(** X22. [custom_pauli_channel] never returns a noise model that holds
    the error it asked for. Past its own guard, an error the backend
    built on one qubit is attached under a list of names that includes
    the two-qubit gate ['cx'], which the backend refuses with
    [NoiseError]; only an ideal error gets through, and then nothing is
    attached and the empty model comes back. Under the names
    [thermal_relaxation_channel] uses, the same list without ['cx'], the
    same error is attached to all five. *)
Theorem custom_pauli_channel_never_attaches (px py pz : F) :
  let total := add (add px py) pz in
  let r := custom_pauli_channel add sub one gt aer_pauli_error num_qubits
             ideal px py pz in
  let noise_ops := [("X", px); ("Y", py); ("Z", pz); ("I", sub one total)] in
  (∀ error, aer_pauli_error noise_ops = inr error →
            num_qubits error = 1%nat) →
  ((∃ msg, outcome r = Raise (ValueError msg)) ↔ gt total one = true)
  ∧ (gt total one = true →
     r = {| calls := [];
            outcome := Raise (ValueError
                                "Sum of error probabilities must be <= 1") |})
  ∧ (gt total one = false →
     calls r = [pauli_error_call noise_ops]
     ∧ outcome r
       = match aer_pauli_error noise_ops with
         | inl name => Raise (BackendError name)
         | inr error =>
             if ideal error then Ok NoiseModel_new
             else Raise (BackendError "NoiseError")
         end)
  ∧ (∀ noise_model, outcome r = Ok noise_model → noise_model = NoiseModel_new)
  ∧ (∀ error, aer_pauli_error noise_ops = inr error → ideal error = false →
       attach NoiseModel_new error thermal_relaxation_instructions
       = Ok {| default_quantum_errors :=
                 (λ name, (name, error)) <$> thermal_relaxation_instructions |}).
Proof.
  intros total r noise_ops Hone.
  assert (gt total one = false →
          calls r = [pauli_error_call noise_ops]
          ∧ outcome r
            = match aer_pauli_error noise_ops with
              | inl name => Raise (BackendError name)
              | inr error =>
                  if ideal error then Ok NoiseModel_new
                  else Raise (BackendError "NoiseError")
              end) as Helse.
  { intros Hgt. subst r. unfold custom_pauli_channel. fold total. rewrite Hgt.
    destruct (pauli_wrapper_run aer_pauli_error num_qubits ideal noise_ops)
      as [Hcalls Hout].
    split; [exact Hcalls|].
    etransitivity; [exact Hout|].
    destruct (aer_pauli_error noise_ops) as [name|error] eqn:Hbuilt; [done|].
    destruct (ideal error) eqn:Hideal.
    - by apply attach_ideal_error.
    - by apply attach_one_qubit_error; [apply Hone|]. }
  assert (gt total one = true →
          r = {| calls := [];
                 outcome := Raise (ValueError
                                     "Sum of error probabilities must be <= 1") |})
    as Hthen.
  { intros Hgt. subst r. unfold custom_pauli_channel. fold total.
    by rewrite Hgt. }
  split_and!; [|exact Hthen|exact Helse| |].
  - destruct (gt total one) eqn:Hgt.
    + rewrite Hthen by done. split; [done|]. intros _. by eexists.
    + destruct (Helse eq_refl) as [_ Hout]. rewrite Hout.
      split; [|done]. intros [msg Hmsg].
      destruct (aer_pauli_error noise_ops) as [name|error]; [done|].
      by destruct (ideal error).
  - intros noise_model Hok. destruct (gt total one) eqn:Hgt.
    + rewrite Hthen in Hok by done. done.
    + destruct (Helse eq_refl) as [_ Hout]. rewrite Hout in Hok.
      destruct (aer_pauli_error noise_ops) as [name|error]; [done|].
      destruct (ideal error); [|done]. by injection Hok as <-.
  - intros error Hbuilt Hideal.
    by apply attach_one_qubit_error; [apply Hone|].
Qed.

End error_model_attach.

Section error_model_attach_examples.
Import ErrorModels.

Lemma custom_pauli_channel_never_attaches_witness :
  calls (f_custom_pauli_channel (decimal 5 2) (decimal 2 2) (decimal 3 2))
  = [pauli_error_call
       [("X", decimal 5 2); ("Y", decimal 2 2); ("Z", decimal 3 2);
        ("I", fsub (float_of_int 1)
                (fadd (fadd (decimal 5 2) (decimal 2 2)) (decimal 3 2)))]]
  ∧ outcome (f_custom_pauli_channel (decimal 5 2) (decimal 2 2) (decimal 3 2))
    = Raise (BackendError "NoiseError").
Proof.
  pose proof (custom_pauli_channel_never_attaches fadd fsub (float_of_int 1)
                fgt f_pauli_error aer_num_qubits aer_ideal
                (decimal 5 2) (decimal 2 2) (decimal 3 2)) as Hrun.
  cbv zeta in Hrun.
  destruct Hrun as (_ & _ & Hrun & _).
  { intros error Hbuilt. vm_compute in Hbuilt. injection Hbuilt as <-.
    reflexivity. }
  destruct Hrun as [Hcalls Hout]; [vm_compute; reflexivity|].
  split; [exact Hcalls|]. etransitivity; [exact Hout|]. vm_compute. reflexivity.
Defined.

End error_model_attach_examples.
